(** * Next-song recommender: data accessor, MFC / BPM recommenders,
      user-activity simulator and session aggregator.

    Shallow embedding of [data/data_manager.py] and [mfc_module.py].

    - JSON objects are insertion-ordered association lists ([dict]); Python
      guarantees that a dict holds every key once, which is the predicate
      [keys_unique].
    - Python exceptions are the constructors of [exn]; a call either returns
      ([Ok]), raises ([Raise]) or, for the one unbounded [while] loop of the
      program, exhausts the fuel given to the model ([OutOfFuel]).
    - The two JSON files, the state of the global random generator and the
      [active_users] attribute of the simulator form the [world] that the
      stateful methods thread through.
    - Weights and the result of [random.random()] are rationals; BPM values
      are integers. *)

From Stdlib Require Import String Ascii ZArith NArith QArith Lia Lqa Bool Arith.
From Stdlib Require Import DecimalNat DecimalString Permutation Sorted List.
Import ListNotations.

Local Open Scope string_scope.
Local Open Scope nat_scope.
Local Open Scope list_scope.

(* ================================================================== *)
(** ** Python values: exceptions, results, lists, dicts, strings       *)
(* ================================================================== *)

Inductive exn : Set :=
| KeyError
| IndexError
| ValueError
| TypeError
| AttributeError
| UnboundLocalError.

Inductive result (A : Type) : Type :=
| Ok (a : A)
| Raise (e : exn)
| OutOfFuel.

Arguments Ok {A} a.
Arguments Raise {A} e.
Arguments OutOfFuel {A}.

Definition rbind {A B : Type} (r : result A) (k : A -> result B) : result B :=
  match r with
  | Ok a => k a
  | Raise e => Raise e
  | OutOfFuel => OutOfFuel
  end.

Notation "x <~ c ;; k" := (rbind c (fun x => k))
  (at level 61, c at next level, right associativity).

(** A [for] loop whose body may raise: the accumulator is what the body
    leaves in the local variables it assigns. *)
Fixpoint for_each {A S : Type} (body : S -> A -> result S) (l : list A) (s : S)
  : result S :=
  match l with
  | [] => Ok s
  | x :: rest => s' <~ body s x ;; for_each body rest s'
  end.

(** [l[i]] for a non-negative index. *)
Definition list_index {A : Type} (l : list A) (i : nat) : result A :=
  match nth_error l i with
  | Some x => Ok x
  | None => Raise IndexError
  end.

(** [l[-1]]. *)
Definition list_last {A : Type} (l : list A) : result A :=
  match rev l with
  | x :: _ => Ok x
  | [] => Raise IndexError
  end.

(** [l[:n]] for a non-negative bound. *)
Definition slice_to {A : Type} (l : list A) (n : nat) : list A := firstn n l.

(** Insertion-ordered dictionaries with string keys. *)
Definition dict (V : Type) : Type := list (string * V).

Fixpoint dict_get {V : Type} (k : string) (d : dict V) : option V :=
  match d with
  | [] => None
  | (k', v) :: rest => if String.eqb k' k then Some v else dict_get k rest
  end.

(** [d[k]]. *)
Definition getitem {V : Type} (d : dict V) (k : string) : result V :=
  match dict_get k d with
  | Some v => Ok v
  | None => Raise KeyError
  end.

(** [d[k] = v]: replaces in place, a new key goes last. *)
Fixpoint dict_set {V : Type} (k : string) (v : V) (d : dict V) : dict V :=
  match d with
  | [] => [(k, v)]
  | (k', v') :: rest =>
      if String.eqb k' k then (k', v) :: rest else (k', v') :: dict_set k v rest
  end.

(** [dict(items)]. *)
Definition dict_of_items {V : Type} (items : list (string * V)) : dict V :=
  fold_left (fun d kv => dict_set (fst kv) (snd kv) d) items [].

Definition keys {V : Type} (d : dict V) : list string := map fst d.

Definition keys_unique {V : Type} (d : dict V) : Prop := NoDup (keys d).

(** [str(n)] for a non-negative integer. *)
Definition str (n : nat) : string := NilEmpty.string_of_uint (Nat.to_uint n).

(** [s.split(sep)] for a one-character separator. *)
Fixpoint split (sep : ascii) (s : string) : list string :=
  match s with
  | EmptyString => [EmptyString]
  | String c rest =>
      if Ascii.eqb c sep then EmptyString :: split sep rest
      else match split sep rest with
           | piece :: pieces => String c piece :: pieces
           | [] => [String c EmptyString]
           end
  end.

(** [s.replace(old, new)] for a non-empty [old]: the occurrences of [old] are
    taken from the left, without overlap.  [skip] counts the characters of a
    matched occurrence that are still to be passed over. *)
Fixpoint replace_from (skip : nat) (old new s : string) : string :=
  match s with
  | EmptyString => EmptyString
  | String c rest =>
      match skip with
      | S skip' => replace_from skip' old new rest
      | O =>
          if String.prefix old s
          then String.append new (replace_from (String.length old - 1) old new rest)
          else String c (replace_from 0 old new rest)
      end
  end.

Definition replace (old new s : string) : string := replace_from 0 old new s.

(** [sorted(l, key=key, reverse=reverse)]: the stable sort.  The outcome of a
    stable sort is determined by its input, so insertion from the right
    stands for Python's merge-based implementation. *)
Section Sorted.
Context {A : Type} (key : A -> Z) (reverse : bool).

Definition goes_before (x y : A) : bool :=
  if reverse then (key y <=? key x)%Z else (key x <=? key y)%Z.

Definition in_order (x y : A) : Prop := goes_before x y = true.

Fixpoint insert_stable (x : A) (l : list A) : list A :=
  match l with
  | [] => [x]
  | y :: rest =>
      if goes_before x y then x :: y :: rest else y :: insert_stable x rest
  end.

Fixpoint sorted (l : list A) : list A :=
  match l with
  | [] => []
  | x :: rest => insert_stable x (sorted rest)
  end.

End Sorted.

(** [collections.Counter(l)]: counts in first-seen order. *)
Fixpoint counter_incr (x : string) (c : dict nat) : dict nat :=
  match c with
  | [] => [(x, 1)]
  | (k, n) :: rest =>
      if String.eqb k x then (k, S n) :: rest else (k, n) :: counter_incr x rest
  end.

Definition Counter (l : list string) : dict nat :=
  fold_left (fun c x => counter_incr x c) l [].

(** [c.most_common(n)] is [heapq.nlargest(n, c.items(), key=itemgetter(1))],
    that is [sorted(c.items(), key=itemgetter(1), reverse=True)[:n]]. *)
Definition most_common (n : nat) (c : dict nat) : list (string * nat) :=
  slice_to (sorted (fun item => Z.of_nat (snd item)) true c) n.

(* ================================================================== *)
(** ** The record store and the world                                  *)
(* ================================================================== *)

(** One object of [data/mrs_users.json].  The accessor reads the users table
    and the songs table from this same file, so an object may carry the
    members of either. *)
Record entry : Type := mkEntry {
  played_songs : option (dict (list string));
  BPM : option Z;
  genre : option string
}.

Definition empty_object : entry := mkEntry None None None.

(** State of the process-wide random generator: a tape of raw draws. *)
Record rng : Type := mkRng {
  tape : nat -> N;
  cursor : nat
}.

Record world : Type := mkWorld {
  mrs_users : dict entry;        (* USERS_DATA  = data/mrs_users.json *)
  mrs_config : dict (list Q);    (* CONFIG_DATA = data/mrs_config.json *)
  generator : rng;               (* the global [random] generator *)
  active_users : list nat        (* [UAS.active_users], a set *)
}.

Definition with_users (w : world) (u : dict entry) : world :=
  mkWorld u (mrs_config w) (generator w) (active_users w).

Definition with_generator (w : world) (g : rng) : world :=
  mkWorld (mrs_users w) (mrs_config w) g (active_users w).

Definition with_active_users (w : world) (s : list nat) : world :=
  mkWorld (mrs_users w) (mrs_config w) (generator w) s.

(** Stateful methods. *)
Definition M (A : Type) : Type := world -> result A * world.

Definition ret {A : Type} (a : A) : M A := fun w => (Ok a, w).

Definition bind {A B : Type} (m : M A) (k : A -> M B) : M B :=
  fun w =>
    match m w with
    | (Ok a, w') => k a w'
    | (Raise e, w') => (Raise e, w')
    | (OutOfFuel, w') => (OutOfFuel, w')
    end.

(** A read-only method run in the current world. *)
Definition query {A : Type} (f : world -> result A) : M A := fun w => (f w, w).

Notation "x <- c ;; k" := (bind c (fun x => k))
  (at level 61, c at next level, right associativity).

Definition raise {A : Type} (e : exn) : M A := fun w => (Raise e, w).

Definition lift {A : Type} (r : result A) : M A := fun w => (r, w).

(* ================================================================== *)
(** ** [JSONData]                                                      *)
(* ================================================================== *)

Module JSONData.

(** What [read_json] hands back: the value stored under the key, or the
    whole decoded file. *)
Inductive json_read (V : Type) : Type :=
| Entry (value : V)
| Whole (data : dict V).

Arguments Entry {V} value.
Arguments Whole {V} data.

(** [read_json(key=None)].  The file is taken to exist and to decode; the
    [except] branch is outside the model. *)
Definition read_json {V : Type} (data : dict V) (key : option string)
  : json_read V :=
  match key with
  | Some k =>
      match dict_get k data with
      | Some result => Entry result
      | None => Whole data
      end
  | None => Whole data
  end.

(** [read_json()] used as a table; with no key the call always yields the
    whole file, the other branch types the projection. *)
Definition as_table {V : Type} (r : json_read V) : result (dict V) :=
  match r with
  | Whole data => Ok data
  | Entry _ => Raise TypeError
  end.

(** [write_json(keys, value)] at the path its one caller uses,
    [keys = [user_id, 'played_songs', song_id]]: [setdefault] walks down,
    creating the missing levels, and the last key is assigned. *)
Definition write_json (data : dict entry) (user_id song_id : string)
  (value : list string) : dict entry :=
  let user := match dict_get user_id data with
              | Some e => e
              | None => empty_object
              end in
  let nested := match played_songs user with
                | Some ps => ps
                | None => []
                end in
  dict_set user_id
    (mkEntry (Some (dict_set song_id value nested)) (BPM user) (genre user))
    data.

(** [write_to_interview_sessions(main_key, value)]: the new file content and
    the message returned.  [main_key] only shows in the message. *)
Definition write_to_interview_sessions {V : Type} (data : dict V)
  (main_key : string) (value : V) : dict V * string :=
  (dict_set "interview_sessions" value data,
   String.append "'"
     (String.append main_key
        "' updated in the 'interview_sessions' key of the JSON file")).

End JSONData.

Import JSONData.

(* ================================================================== *)
(** ** The [random] module                                             *)
(* ================================================================== *)

Definition Qltb (x y : Q) : bool := negb (Qle_bool y x).

Module random.

Definition next_raw (g : rng) : N * rng :=
  (tape g (cursor g), mkRng (tape g) (S (cursor g))).

(** [_randbelow(n)]: some value in [0, n). *)
Definition randbelow (n : nat) : M nat :=
  fun w =>
    let (raw, g) := next_raw (generator w) in
    (Ok (N.to_nat (raw mod N.of_nat n)), with_generator w g).

(** [random()]: a multiple of 2^-53 in [0, 1). *)
Definition random : M Q :=
  fun w =>
    let (raw, g) := next_raw (generator w) in
    (Ok (Z.of_N (raw mod 2 ^ 53) # 2 ^ 53)%Q, with_generator w g).

(** [choice(seq)]. *)
Definition choice {A : Type} (population : list A) : M A :=
  match population with
  | [] => raise IndexError
  | _ => i <- randbelow (length population) ;; lift (list_index population i)
  end.

(** [randint(a, b)], both ends included. *)
Definition randint (a b : nat) : M nat :=
  i <- randbelow (b - a + 1) ;; ret (a + i).

(** [itertools.accumulate] over numbers. *)
Fixpoint accumulate_from (total : Q) (l : list Q) : list Q :=
  match l with
  | [] => []
  | x :: rest => let total' := (total + x)%Q in total' :: accumulate_from total' rest
  end.

Definition accumulate (l : list Q) : list Q :=
  match l with
  | [] => []
  | x :: rest => x :: accumulate_from x rest
  end.

(** [itertools.accumulate] over strings concatenates them. *)
Fixpoint accumulate_str_from (total : string) (l : list string) : list string :=
  match l with
  | [] => []
  | x :: rest =>
      let total' := String.append total x in total' :: accumulate_str_from total' rest
  end.

Definition accumulate_str (l : list string) : list string :=
  match l with
  | [] => []
  | x :: rest => x :: accumulate_str_from x rest
  end.

(** [bisect.bisect(a, x, lo, hi)], the [while lo < hi] loop. *)
Fixpoint bisect_loop (fuel : nat) (a : list Q) (x : Q) (lo hi : nat) : result nat :=
  if lo <? hi then
    match fuel with
    | O => OutOfFuel
    | S fuel' =>
        let mid := (lo + hi) / 2 in
        a_mid <~ list_index a mid ;;
        if Qltb x a_mid then bisect_loop fuel' a x lo mid
        else bisect_loop fuel' a x (mid + 1) hi
    end
  else Ok lo.

Definition bisect (a : list Q) (x : Q) (lo hi : nat) : result nat :=
  bisect_loop (hi - lo) a x lo hi.

(** [choices(population, weights)] with [k = 1].  [weights] is whatever
    [get_songs_probabilities_data] returned: a weight list, or the whole
    config dict, whose iteration yields its keys. *)
Definition choices {A : Type} (population : list A)
  (weights : json_read (list Q)) : M (list A) :=
  let n := length population in
  match weights with
  | Entry ws =>
      let cum_weights := accumulate ws in
      if negb (length cum_weights =? n) then raise ValueError
      else
        last <- lift (list_last cum_weights) ;;
        let total := (last + 0)%Q in
        if Qle_bool total 0 then raise ValueError
        else
          let hi := n - 1 in
          r <- random ;;
          i <- lift (bisect cum_weights (r * total)%Q 0 hi) ;;
          x <- lift (list_index population i) ;;
          ret [x]
  | Whole data =>
      let cum_weights := accumulate_str (keys data) in
      if negb (length cum_weights =? n) then raise ValueError
      else
        last <- lift (list_last cum_weights) ;;
        raise TypeError
  end.

End random.

(** [obj[name]] for one of the three members of an [entry]. *)
Definition member {X : Type} (field : entry -> option X) (obj : entry) : result X :=
  match field obj with
  | Some x => Ok x
  | None => Raise KeyError
  end.

(* ================================================================== *)
(** ** [DataExtractor]: read-only queries, [self] is the world         *)
(* ================================================================== *)

Module DataExtractor.

Definition get_songs_probabilities_data (w : world) (set : nat)
  : result (json_read (list Q)) :=
  let key := String.append "songs_probabilities_set" (str set) in
  Ok (read_json (mrs_config w) (Some key)).

Definition get_users_data (w : world) : result (dict entry) :=
  as_table (read_json (mrs_users w) None).

Definition get_user_count (w : world) : result nat :=
  user_data <~ as_table (read_json (mrs_users w) None) ;;
  Ok (length user_data).

(** Reads [self.users_data], as the source does. *)
Definition get_songs_data (w : world) : result (dict entry) :=
  as_table (read_json (mrs_users w) None).

(** The first key of the table stands for every user; over an empty table
    [random_user] stays [None] and [user_data[None]] raises. *)
Definition get_song_count (w : world) : result nat :=
  user_data <~ as_table (read_json (mrs_users w) None) ;;
  let random_user := match user_data with
                     | [] => None
                     | (user, _) :: _ => Some user
                     end in
  first <~ match random_user with
           | Some user => getitem user_data user
           | None => Raise KeyError
           end ;;
  history <~ member played_songs first ;;
  Ok (length history).

Definition get_inner_data (w : world) (data_type key : string)
  : result (option (dict entry)) :=
  if negb (existsb (String.eqb data_type) ["users"; "songs"; "genres"])
  then Raise ValueError
  else if String.eqb data_type "users" then
    data <~ get_users_data w ;; Ok (Some data)
  else if String.eqb data_type "songs" then
    data <~ get_songs_data w ;; Ok (Some data)
  else Ok None.

Definition get_similar_bpm_songs (w : world) (song_id : string)
  : result (list string) :=
  songs_data <~ get_songs_data w ;;
  song <~ getitem songs_data song_id ;;
  song_bpm <~ member BPM song ;;
  song' <~ getitem songs_data song_id ;;
  song_genre <~ member genre song' ;;
  song_list <~ for_each
    (fun (song_list : dict Z) (item : string * entry) =>
       let (id, genre_bpm) := item in
       g <~ member genre genre_bpm ;;
       if String.eqb g song_genre && negb (String.eqb song_id id) then
         b <~ member BPM genre_bpm ;; Ok (dict_set id b song_list)
       else Ok song_list)
    songs_data [] ;;
  let sorted_data :=
    dict_of_items
      (sorted (fun item : string * Z => Z.abs (snd item - song_bpm)) false
              song_list) in
  Ok (keys sorted_data).

Definition get_most_played_songs (w : world) (song_id : string)
  : result (list string) :=
  users_data <~ get_users_data w ;;
  next_songs <~ for_each
    (fun (next_songs : list string) (kv : string * entry) =>
       let (k, v) := kv in
       history <~ member played_songs v ;;
       for_each
         (fun (next_songs : list string) (item : string * list string) =>
            let (song, next_song) := item in
            if String.eqb song song_id then
              first <~ list_index next_song 0 ;; Ok (next_songs ++ [first])
            else Ok next_songs)
         history next_songs)
    users_data [] ;;
  let counter := Counter next_songs in
  let most_common := most_common 3 counter in
  m0 <~ list_index most_common 0 ;;
  m1 <~ list_index most_common 1 ;;
  m2 <~ list_index most_common 2 ;;
  Ok [fst m0; fst m1; fst m2].

(** The dict [{'song_1': [first, count], 'song_2': [second, count]}]. *)
Record mfc_users_data : Type := mkTally {
  song_1 : string * nat;
  song_2 : string * nat
}.

Definition get_mfc_users_data (w : world)
  (song_id first_recomendation second_recomendation : string)
  : result mfc_users_data :=
  users <~ as_table (read_json (mrs_users w) None) ;;
  counts <~ for_each
    (fun (counts : nat * nat) (kv : string * entry) =>
       let (song_1_count, song_2_count) := counts in
       let (k, v) := kv in
       history <~ member played_songs v ;;
       nexts <~ getitem history song_id ;;
       first <~ list_index nexts 0 ;;
       if String.eqb first first_recomendation then
         Ok (song_1_count + 1, song_2_count)
       else
         history' <~ member played_songs v ;;
         nexts' <~ getitem history' song_id ;;
         first' <~ list_index nexts' 0 ;;
         if String.eqb first' second_recomendation then
           Ok (song_1_count, song_2_count + 1)
         else Ok (song_1_count, song_2_count))
    users (0, 0) ;;
  Ok (mkTally (first_recomendation, fst counts)
              (second_recomendation, snd counts)).

End DataExtractor.

(* ================================================================== *)
(** ** [DataSaver]                                                     *)
(* ================================================================== *)

Module DataSaver.

Definition format_user_id (user_id : nat) : string :=
  String.append "user_id_" (str user_id).

Definition format_song_id (song_id : nat) : string :=
  String.append "song_id_" (str song_id).

Definition set_new_song (user_id song_id next_song_id : string) : M string :=
  fun w =>
    (Ok "new song saved to json file",
     with_users w (write_json (mrs_users w) user_id song_id [next_song_id])).

End DataSaver.

(* ================================================================== *)
(** ** [MFC]: most frequent choice                                     *)
(* ================================================================== *)

Module MFC.

Definition get_next_songs (song_id : string) : M (list string) :=
  query (fun w => DataExtractor.get_most_played_songs w song_id).

Definition get_next_song (song_id : string) : M string :=
  songs <- get_next_songs song_id ;;
  songs <- query (fun w => DataExtractor.get_most_played_songs w song_id) ;;
  let songs_len := length songs in
  let songs := if 2 <? songs_len then slice_to songs songs_len else songs in
  probabilities <-
    query (fun w => DataExtractor.get_songs_probabilities_data w songs_len) ;;
  picked <- random.choices songs probabilities ;;
  lift (list_index picked 0).

End MFC.

(* ================================================================== *)
(** ** [BPM]: tempo similarity                                         *)
(* ================================================================== *)

Module BPM.

Definition get_next_song (song_id : string) : M string :=
  songs <- query (fun w => DataExtractor.get_similar_bpm_songs w song_id) ;;
  let songs_len := length songs in
  let _unused := if 2 <? songs_len then slice_to songs songs_len else [] in
  probabilities <-
    query (fun w => DataExtractor.get_songs_probabilities_data w songs_len) ;;
  picked <- random.choices songs probabilities ;;
  result <- lift (list_index picked 0) ;;
  lift (list_last (split "_" result)).

End BPM.

(* ================================================================== *)
(** ** [UAS]: user activity simulator                                  *)
(* ================================================================== *)

(** Python sets of integers.  A set is kept as the list of its elements in
    the order they were added, which is what decides the content of the hash
    table; [list(s)] goes through the slots of that table.  The theorems use
    of this order only that it lists the elements of the set ([SetOrder]);
    the order of the interpreter itself is [hash_order] below. *)
Definition set_add (x : nat) (s : list nat) : list nat :=
  if existsb (Nat.eqb x) s then s else s ++ [x].

Class SetOrder : Type := {
  list_of_set : list nat -> list nat;
  list_of_set_perm : forall s, Permutation (list_of_set s) s
}.

(** CPython's set object ([Objects/setobject.c]), as far as a set of
    non-negative integers that only grows uses it: an open-addressing table
    of [2^k] slots, the hash of a small integer being the integer; a key is
    looked for at slot [hash & mask], then at the [LINEAR_PROBES] following
    slots when they all lie inside the table, then after a jump computed from
    the hash; the table is rebuilt four times the size of its content as soon
    as three fifths of it are in use; [list(s)] reads the slots in order. *)
Module PySet.

Definition PySet_MINSIZE : nat := 8.
Definition LINEAR_PROBES : N := 9.
Definition PERTURB_SHIFT : N := 5.

(** [hash(key)] of a non-negative integer. *)
Definition int_hash (key : nat) : N := (N.of_nat key mod (2 ^ 61 - 1))%N.

Record PySetObject : Type := mkSet {
  table : list (option nat);
  fill : nat
}.

Definition mask (t : list (option nat)) : N := N.of_nat (length t - 1).

Definition slot (t : list (option nat)) (i : N) : option nat :=
  nth (N.to_nat i) t None.

Fixpoint put (t : list (option nat)) (i : nat) (key : nat) : list (option nat) :=
  match t, i with
  | [], _ => []
  | _ :: rest, O => Some key :: rest
  | e :: rest, S i' => e :: put rest i' key
  end.

Inductive probe_result : Type :=
| Unused (i : N)
| Active
| Ahead.

(** The inner [do ... while (probes--)] loop: [entries] slots from [i] on. *)
Fixpoint probe_entries (t : list (option nat)) (key : nat) (i : N) (entries : nat)
  : probe_result :=
  match entries with
  | O => Ahead
  | S entries' =>
      match slot t i with
      | None => Unused i
      | Some k =>
          if Nat.eqb k key then Active else probe_entries t key (i + 1)%N entries'
      end
  end.

(** The outer [while (1)] loop, with [perturb >>= PERTURB_SHIFT] and
    [i = (i * 5 + 1 + perturb) & mask] between two runs of probes. *)
Fixpoint probe (fuel : nat) (t : list (option nat)) (key : nat) (i perturb : N)
  : probe_result :=
  match fuel with
  | O => Ahead
  | S fuel' =>
      let probes := if (i + LINEAR_PROBES <=? mask t)%N then LINEAR_PROBES else 0%N in
      match probe_entries t key i (S (N.to_nat probes)) with
      | Ahead =>
          let perturb' := N.shiftr perturb PERTURB_SHIFT in
          probe fuel' t key (N.land (i * 5 + 1 + perturb') (mask t)) perturb'
      | found => found
      end
  end.

Definition lookup_slot (t : list (option nat)) (key : nat) : probe_result :=
  probe (length t + 64) t key (N.land (int_hash key) (mask t)) (int_hash key).

Definition set_insert_clean (t : list (option nat)) (key : nat) : list (option nat) :=
  match lookup_slot t key with
  | Unused i => put t (N.to_nat i) key
  | _ => t
  end.

(** [while (newsize <= minused) newsize <<= 1]. *)
Fixpoint grow (fuel newsize minused : nat) : nat :=
  if newsize <=? minused then
    match fuel with
    | O => newsize
    | S fuel' => grow fuel' (2 * newsize) minused
    end
  else newsize.

Definition keys_of (t : list (option nat)) : list nat :=
  flat_map (fun e => match e with Some k => [k] | None => [] end) t.

Definition set_table_resize (so : PySetObject) (minused : nat) : PySetObject :=
  let newsize := grow minused PySet_MINSIZE minused in
  mkSet (fold_left set_insert_clean (keys_of (table so)) (repeat None newsize))
        (length (keys_of (table so))).

#[warnings="-abstract-large-number"]
Definition set_add_entry (so : PySetObject) (key : nat) : PySetObject :=
  match lookup_slot (table so) key with
  | Unused i =>
      let so' := mkSet (put (table so) (N.to_nat i) key) (S (fill so)) in
      if fill so' * 5 <? (length (table so') - 1) * 3 then so'
      else set_table_resize so'
             (if 50000 <? fill so' then fill so' * 2 else fill so' * 4)
  | _ => so
  end.

Definition empty_set : PySetObject := mkSet (repeat None PySet_MINSIZE) 0.

(** [list(s)] for the set that received the elements of [added] in turn. *)
Definition listing (added : list nat) : list nat :=
  keys_of (table (fold_left set_add_entry added empty_set)).

End PySet.

Definition same_elements (l s : list nat) : bool :=
  forallb (fun x => count_occ Nat.eq_dec l x =? count_occ Nat.eq_dec s x) (l ++ s).

(** The order of the interpreter.  The test only matters for a list that is
    no set (an element twice): there the table holds fewer elements than the
    list, and the list is kept. *)
Definition hash_listing (s : list nat) : list nat :=
  let l := PySet.listing s in
  if same_elements l s then l else s.

#[export] Instance hash_order : SetOrder.
Proof.
  refine {| list_of_set := hash_listing |}.
  intros s. unfold hash_listing.
  destruct (same_elements (PySet.listing s) s) eqn:E; [|apply Permutation_refl].
  apply (Permutation_count_occ Nat.eq_dec). intros x.
  unfold same_elements in E. rewrite forallb_forall in E.
  destruct (in_dec Nat.eq_dec x (PySet.listing s ++ s)) as [Hin|Hout].
  - apply Nat.eqb_eq. exact (E x Hin).
  - rewrite in_app_iff in Hout.
    rewrite (proj1 (count_occ_not_In Nat.eq_dec _ x)) by tauto.
    rewrite (proj1 (count_occ_not_In Nat.eq_dec _ x)) by tauto.
    reflexivity.
Defined.

Module UAS.

(** [while len(self.active_users) < count: self.active_users.add(randint(1, 50))] *)
Fixpoint fill_active_users (fuel count : nat) : M unit :=
  fun w =>
    if length (active_users w) <? count then
      match fuel with
      | O => (OutOfFuel, w)
      | S fuel' =>
          (user <- random.randint 1 50 ;;
           _ <- (fun w' => (Ok tt, with_active_users w' (set_add user (active_users w')))) ;;
           fill_active_users fuel' count) w
      end
    else (Ok tt, w).

Definition generate_active_users `{SetOrder} (fuel : nat) : M (list nat) :=
  count <- random.choice (seq 10 15) ;;
  _ <- (fun w => (Ok tt, with_active_users w [])) ;;
  _ <- fill_active_users fuel count ;;
  query (fun w => Ok (list_of_set (active_users w))).


(** The [for] loop returns inside its first iteration; a loop over no user
    falls through and the method returns [None]. *)
Definition active_users_behaviour `{SetOrder} (song_id : string) (fuel : nat)
  : M (option nat) :=
  active_users <- generate_active_users fuel ;;
  match active_users with
  | user :: _ =>
      let user_id := DataSaver.format_user_id user in
      next_song <- MFC.get_next_song song_id ;;
      _ <- DataSaver.set_new_song user_id song_id next_song ;;
      ret (Some (length active_users))
  | [] => ret None
  end.

End UAS.

(* ================================================================== *)
(** ** [MFCInterface]: session aggregator                              *)
(* ================================================================== *)

Module MFCInterface.

Record Stats : Type := mkStats {
  user_count : nat;
  active_users_count : option nat;
  original_song : string;
  default_song : string;
  mfc_song : string;
  users_count_and_choosen_songs : DataExtractor.mfc_users_data
}.

Definition current_song (song_id : string) : string :=
  let song := song_id in
  replace "song_id_" "" song.

Definition mfc_recommendation (song_id : string) : M string :=
  MFC.get_next_song song_id.

Definition original_recommendation (song_id : string) : M string :=
  query (fun w =>
    data <~ DataExtractor.get_inner_data w "songs" "user_id_1" ;;
    match data with
    | None => Raise AttributeError
    | Some data =>
        result <~ for_each
          (fun (result : option (list string)) (kv : string * entry) =>
             let (k, v) := kv in
             if String.eqb k "user_id_1" then
               history <~ member played_songs v ;;
               nexts <~ getitem history song_id ;;
               Ok (Some nexts)
             else Ok result)
          data None ;;
        match result with
        | None => Raise UnboundLocalError
        | Some result => list_index result 0
        end
    end).

Definition stats `{SetOrder} (song_id : string) (fuel : nat) : M Stats :=
  let current_song := song_id in
  recomended_songs <- MFC.get_next_songs current_song ;;
  r0 <- lift (list_index recomended_songs 0) ;;
  r1 <- lift (list_index recomended_songs 1) ;;
  active_users_data <-
    query (fun w => DataExtractor.get_mfc_users_data w current_song r0 r1) ;;
  active <- UAS.active_users_behaviour song_id fuel ;;
  default <- original_recommendation song_id ;;
  mfc <- mfc_recommendation song_id ;;
  ret (mkStats 50 active current_song default mfc active_users_data).

End MFCInterface.

(* ================================================================== *)
(** ** The recommenders with the length guard taken out                *)
(* ================================================================== *)

Module Unguarded.

(** [MFC.get_next_song] without [if songs_len > 2: songs = songs[:songs_len]]. *)
Definition MFC_get_next_song (song_id : string) : M string :=
  songs <- MFC.get_next_songs song_id ;;
  songs <- query (fun w => DataExtractor.get_most_played_songs w song_id) ;;
  let songs_len := length songs in
  probabilities <-
    query (fun w => DataExtractor.get_songs_probabilities_data w songs_len) ;;
  picked <- random.choices songs probabilities ;;
  lift (list_index picked 0).

(** [BPM.get_next_song] without [if songs_len > 2: songs[:songs_len]]. *)
Definition BPM_get_next_song (song_id : string) : M string :=
  songs <- query (fun w => DataExtractor.get_similar_bpm_songs w song_id) ;;
  let songs_len := length songs in
  probabilities <-
    query (fun w => DataExtractor.get_songs_probabilities_data w songs_len) ;;
  picked <- random.choices songs probabilities ;;
  result <- lift (list_index picked 0) ;;
  lift (list_last (split "_" result)).

End Unguarded.

(* ================================================================== *)
(** ** Vocabulary of the properties                                    *)
(* ================================================================== *)

(** The first recorded next-song of a user after [song_id], if any. *)
Definition first_next (song_id : string) (user : entry) : option string :=
  match played_songs user with
  | Some history =>
      match dict_get song_id history with
      | Some (next :: _) => Some next
      | _ => None
      end
  | None => None
  end.

Definition chose (song_id candidate : string) (user : string * entry) : bool :=
  match first_next song_id (snd user) with
  | Some next => String.eqb next candidate
  | None => false
  end.

(** Number of users whose first recorded next-song after [song_id] is
    [candidate]. *)
Definition votes (users : dict entry) (song_id candidate : string) : nat :=
  length (filter (chose song_id candidate) users).

(** Number of users whose first recorded next-song after [song_id] is
    [candidate] and not [other]. *)
Definition votes_but (users : dict entry) (song_id candidate other : string) : nat :=
  length (filter (fun user => chose song_id candidate user
                              && negb (chose song_id other user)) users).

(** Every user has a recorded, non-empty history for [song_id]. *)
Definition all_played (users : dict entry) (song_id : string) : Prop :=
  forall k user, In (k, user) users -> first_next song_id user <> None.

(** The tally as the specification words it: each candidate is given the
    number of users who chose it, and the two counts stay within the user
    count. *)
Definition tally_counts_both (w : world) (song_id a b : string) : Prop :=
  DataExtractor.get_mfc_users_data w song_id a b
    = Ok (DataExtractor.mkTally (a, votes (mrs_users w) song_id a)
                                (b, votes (mrs_users w) song_id b)) /\
  votes (mrs_users w) song_id a + votes (mrs_users w) song_id b
    <= length (mrs_users w).

(** Both files are as they were. *)
Definition same_files (w w' : world) : Prop :=
  mrs_users w' = mrs_users w /\ mrs_config w' = mrs_config w.

(** The recorded next-songs after [song_id], one per user that has one, in
    the order of the scan. *)
Definition recorded_next (users : dict entry) (song_id : string) : list string :=
  flat_map (fun user => match first_next song_id (snd user) with
                        | Some next => [next]
                        | None => []
                        end) users.

(** The distinct values of a list, by first occurrence. *)
Definition seen_add (seen : list string) (x : string) : list string :=
  if existsb (String.eqb x) seen then seen else seen ++ [x].

Definition first_seen (l : list string) : list string :=
  fold_left seen_add l [].

(** The count a [Counter] holds for [x]. *)
Definition count_in (x : string) (c : dict nat) : nat :=
  match dict_get x c with
  | Some n => n
  | None => 0
  end.

(** What one user's history adds to the scan for [song_id]. *)
Definition one_next (song_id : string) (history : dict (list string)) : list string :=
  match dict_get song_id history with
  | Some (next :: _) => [next]
  | _ => []
  end.

(** The candidate next-songs after [song_id], in first-seen order. *)
Definition candidates (users : dict entry) (song_id : string) : list string :=
  first_seen (recorded_next users song_id).

(** A users table: every object has [played_songs], a dict, and no recorded
    history is empty. *)
Definition users_table (users : dict entry) : Prop :=
  keys_unique users /\
  forall k user, In (k, user) users ->
    exists history, played_songs user = Some history /\
      keys_unique history /\
      forall song nexts, In (song, nexts) history -> nexts <> [].

(** A songs table: every object has a [BPM] and a [genre]. *)
Definition songs_table (songs : dict entry) : Prop :=
  keys_unique songs /\
  forall k song, In (k, song) songs ->
    exists b g, BPM song = Some b /\ genre song = Some g.

(** The other songs of genre [g], with their BPM, in table order. *)
Definition peers (songs : dict entry) (song_id g : string) : list (string * Z) :=
  flat_map
    (fun item : string * entry =>
       match genre (snd item), BPM (snd item) with
       | Some g', Some b =>
           if String.eqb g' g && negb (String.eqb song_id (fst item))
           then [(fst item, b)] else []
       | _, _ => []
       end)
    songs.

(** Distance in tempo from [bpm]. *)
Definition bpm_gap (bpm : Z) (item : string * Z) : Z := Z.abs (snd item - bpm).

(** A weight vector for [n] candidates: [n] weights, none negative, one
    positive. *)
Definition valid_weights (n : nat) (ws : list Q) : Prop :=
  length ws = n /\ Forall (fun x => (0 <= x)%Q) ws /\ Exists (fun x => (0 < x)%Q) ws.

Fixpoint contains (c : ascii) (s : string) : bool :=
  match s with
  | EmptyString => false
  | String c' rest => Ascii.eqb c' c || contains c rest
  end.

(** The generator after one draw, and what the next draw yields as
    [randint(1, 50)] and as [choice(range(10, 25))]. *)
Definition advance (g : rng) : rng := snd (random.next_raw g).

Definition id_at (g : rng) : nat := 1 + N.to_nat (tape g (cursor g) mod 50).

Definition count_at (g : rng) : nat := 10 + N.to_nat (tape g (cursor g) mod 15).

(** What the cohort under construction is: distinct ids of [1, 50]. *)
Definition cohort_set (s : list nat) : Prop :=
  NoDup s /\ Forall (fun user => 1 <= user <= 50) s.

(** One round of the [while] loop. *)
Definition fill_step (w : world) : world :=
  with_active_users (with_generator w (advance (generator w)))
    (set_add (id_at (generator w)) (active_users w)).

(** The next [n] results of [randint(1, 50)] from a generator state. *)
Definition upcoming_ids (g : rng) (n : nat) : list nat :=
  map (fun i => 1 + N.to_nat (tape g (cursor g + i) mod 50)) (seq 0 n).

Definition first_seen_nat (l : list nat) : list nat :=
  fold_left (fun s x => set_add x s) l [].

(** Sample data. *)
Module Sample.

Definition listener (history : dict (list string)) : entry :=
  mkEntry (Some history) None None.

Definition song (bpm : Z) (g : string) : entry :=
  mkEntry None (Some bpm) (Some g).

Definition users : dict entry :=
  [("user_id_1", listener [("song_id_1", ["song_id_2"]); ("song_id_9", ["song_id_3"])]);
   ("user_id_2", listener [("song_id_1", ["song_id_3"])]);
   ("user_id_3", listener [("song_id_1", ["song_id_4"])]);
   ("user_id_4", listener [("song_id_1", ["song_id_3"])]);
   ("user_id_5", listener [("song_id_1", ["song_id_5"])])].

Definition songs : dict entry :=
  [("song_id_1", song 120 "rock");
   ("song_id_2", song 121 "rock");
   ("song_id_3", song 200 "pop");
   ("song_id_4", song 119 "rock");
   ("song_id_5", song 100 "rock")].

Definition config : dict (list Q) :=
  [("songs_probabilities_set3", [5 # 10; 3 # 10; 2 # 10]%Q);
   ("songs_probabilities_set2", [6 # 10; 4 # 10]%Q);
   ("songs_probabilities_set1", [1%Q])].

Definition gen : rng := mkRng (fun i => N.of_nat (7 * i + 3)) 0.

Definition session : world := mkWorld users config gen [].

(** The sample generator draws the ids [drawn]; listed in the order of the
    interpreter the cohort is user 32 followed by [others]. *)
Definition drawn : list nat := [11; 18; 25; 32; 39; 46; 3; 10; 17; 24; 31; 38; 45].

Definition others : list nat := [3; 38; 39; 10; 11; 45; 46; 17; 18; 24; 25; 31].

Definition catalogue : world := mkWorld songs config gen [].

End Sample.

(* ================================================================== *)
(** ** Further vocabulary                                              *)
(* ================================================================== *)

(** The body of the counting loop of [get_mfc_users_data]. *)
Definition tally_body (song_id first_recomendation second_recomendation : string)
  (counts : nat * nat) (kv : string * entry) : result (nat * nat) :=
  let (song_1_count, song_2_count) := counts in
  let (k, v) := kv in
  history <~ member played_songs v ;;
  nexts <~ getitem history song_id ;;
  first <~ list_index nexts 0 ;;
  if String.eqb first first_recomendation then
    Ok (song_1_count + 1, song_2_count)
  else
    history' <~ member played_songs v ;;
    nexts' <~ getitem history' song_id ;;
    first' <~ list_index nexts' 0 ;;
    if String.eqb first' second_recomendation then
      Ok (song_1_count, song_2_count + 1)
    else Ok (song_1_count, song_2_count).

(** The body of the search loop of [original_recommendation]. *)
Definition original_body (song_id : string) (found : option (list string))
  (kv : string * entry) : result (option (list string)) :=
  let (k, v) := kv in
  if String.eqb k "user_id_1" then
    history <~ member played_songs v ;;
    nexts <~ getitem history song_id ;;
    Ok (Some nexts)
  else Ok found.

(** The object [write_json] leaves under [user_id]. *)
Definition written_object (data : dict entry) (user_id song_id : string)
  (value : list string) : entry :=
  let user := match dict_get user_id data with
              | Some e => e
              | None => empty_object
              end in
  mkEntry (Some (dict_set song_id value
                   (match played_songs user with
                    | Some ps => ps
                    | None => []
                    end)))
          (BPM user) (genre user).

(** What a user had recorded after [song_id] before a write. *)
Definition earlier_choice (users : dict entry) (user_id song_id : string)
  : option string :=
  match dict_get user_id users with
  | Some user => first_next song_id user
  | None => None
  end.

Definition bool_count (b : bool) : nat := if b then 1 else 0.

(** The generator after [n] draws. *)
Fixpoint advance_by (n : nat) (g : rng) : rng :=
  match n with
  | O => g
  | S n' => advance_by n' (advance g)
  end.

(** More sample data. *)
Module Sample2.

(** A users table without [user_id_1]. *)
Definition users : dict entry :=
  [("user_id_2", Sample.listener [("song_id_1", ["song_id_3"])]);
   ("user_id_3", Sample.listener [("song_id_1", ["song_id_4"])]);
   ("user_id_4", Sample.listener [("song_id_1", ["song_id_3"])]);
   ("user_id_5", Sample.listener [("song_id_1", ["song_id_5"])])].

Definition session : world := mkWorld users Sample.config Sample.gen [].

(** A Config table without weights. *)
Definition bare : world := mkWorld Sample.users [] Sample.gen [].

(** A catalogue whose one pop song has no peer. *)
Definition lonely : string := "song_id_3".

End Sample2.

(* ================================================================== *)
(** * Properties: generic facts                                        *)
(* ================================================================== *)

(** ** Lists and objects *)

Lemma slice_to_length {A : Type} (l : list A) : slice_to l (length l) = l.
Proof. unfold slice_to. apply firstn_all. Qed.

Lemma read_json_no_key {V : Type} (data : dict V) :
  as_table (read_json data None) = Ok data.
Proof. reflexivity. Qed.

Lemma list_last_app {A : Type} (l : list A) (x : A) : list_last (l ++ [x]) = Ok x.
Proof. unfold list_last. rewrite rev_app_distr. reflexivity. Qed.

Lemma list_last_cons {A : Type} (x y : A) (l : list A) :
  list_last (x :: y :: l) = list_last (y :: l).
Proof.
  unfold list_last. change (rev (x :: y :: l)) with (rev (y :: l) ++ [x]).
  destruct (rev (y :: l)) eqn:E; [|reflexivity].
  apply (f_equal (@length A)) in E. rewrite length_rev in E. discriminate E.
Qed.

Lemma list_index_In {A : Type} (l : list A) (i : nat) (x : A) :
  list_index l i = Ok x -> In x l.
Proof.
  unfold list_index. destruct (nth_error l i) eqn:E; [|discriminate].
  intros H. inversion H. subst. eapply nth_error_In. exact E.
Qed.

Lemma list_index_lt {A : Type} (l : list A) (i : nat) :
  i < length l -> exists x, list_index l i = Ok x.
Proof.
  intros H. unfold list_index. destruct (nth_error l i) eqn:E; [eauto|].
  apply nth_error_None in E. lia.
Qed.

Lemma member_some {X : Type} (field : entry -> option X) (obj : entry) (x : X) :
  field obj = Some x -> member field obj = Ok x.
Proof. intros H. unfold member. rewrite H. reflexivity. Qed.

Lemma getitem_some {V : Type} (d : dict V) (k : string) (v : V) :
  dict_get k d = Some v -> getitem d k = Ok v.
Proof. intros H. unfold getitem. rewrite H. reflexivity. Qed.

Lemma StronglySorted_impl {A : Type} (R R' : A -> A -> Prop) (l : list A) :
  (forall x y, R x y -> R' x y) -> StronglySorted R l -> StronglySorted R' l.
Proof.
  intros Himp Hs. induction Hs as [|x l Hs IH Hx]; constructor; [exact IH|].
  eapply Forall_impl; [|exact Hx]. intros y. apply Himp.
Qed.

(** ** Dictionaries *)

Lemma dict_get_set_same {V : Type} (k : string) (v : V) (d : dict V) :
  dict_get k (dict_set k v d) = Some v.
Proof.
  induction d as [|[k' v'] d IH]; simpl.
  - rewrite String.eqb_refl. reflexivity.
  - destruct (String.eqb k' k) eqn:E; simpl; rewrite E; [reflexivity | exact IH].
Qed.

Lemma dict_get_set_other {V : Type} (k k' : string) (v : V) (d : dict V) :
  k' <> k -> dict_get k' (dict_set k v d) = dict_get k' d.
Proof.
  intros Hne. induction d as [|[k0 v0] d IH]; simpl.
  - destruct (String.eqb k k') eqn:E; [|reflexivity].
    apply String.eqb_eq in E. congruence.
  - destruct (String.eqb k0 k) eqn:E; simpl.
    + apply String.eqb_eq in E. subst k0.
      destruct (String.eqb k k') eqn:E'; [|reflexivity].
      apply String.eqb_eq in E'. congruence.
    + rewrite IH. reflexivity.
Qed.

Lemma dict_get_not_in {V : Type} (k : string) (d : dict V) :
  ~ In k (keys d) -> dict_get k d = None.
Proof.
  induction d as [|[k' v] d IH]; simpl; intros H; [reflexivity|].
  destruct (String.eqb k' k) eqn:E.
  - apply String.eqb_eq in E. exfalso. apply H. left. exact E.
  - apply IH. intros Hin. apply H. right. exact Hin.
Qed.

Lemma dict_get_in {V : Type} (k : string) (v : V) (d : dict V) :
  keys_unique d -> In (k, v) d -> dict_get k d = Some v.
Proof.
  unfold keys_unique. induction d as [|[k' v'] d IH]; simpl; intros Hnd Hin; [contradiction|].
  inversion Hnd as [|? ? Hk Hd]; subst.
  destruct Hin as [E|Hin].
  - inversion E; subst. rewrite String.eqb_refl. reflexivity.
  - destruct (String.eqb k' k) eqn:E.
    + apply String.eqb_eq in E. subst k'. exfalso. apply Hk.
      change k with (fst (k, v)). apply in_map. exact Hin.
    + apply IH; assumption.
Qed.

Lemma dict_set_fresh {V : Type} (k : string) (v : V) (d : dict V) :
  ~ In k (keys d) -> dict_set k v d = d ++ [(k, v)].
Proof.
  induction d as [|[k' v'] d IH]; simpl; intros H; [reflexivity|].
  destruct (String.eqb k' k) eqn:E.
  - apply String.eqb_eq in E. exfalso. apply H. left. exact E.
  - rewrite IH; [reflexivity|]. intros Hin. apply H. right. exact Hin.
Qed.

Lemma dict_of_items_from {V : Type} (items : list (string * V)) :
  forall d, NoDup (keys (d ++ items)) ->
    fold_left (fun d kv => dict_set (fst kv) (snd kv) d) items d = d ++ items.
Proof.
  induction items as [|[k v] items IH]; intros d Hnd; simpl.
  - rewrite app_nil_r. reflexivity.
  - assert (Hfresh : ~ In k (keys d)).
    { unfold keys in *. rewrite map_app in Hnd. simpl in Hnd.
      apply NoDup_remove_2 in Hnd. intros Hin. apply Hnd.
      apply in_or_app. left. exact Hin. }
    rewrite (dict_set_fresh k v d Hfresh).
    rewrite IH; rewrite <- app_assoc; [reflexivity | exact Hnd].
Qed.

Lemma dict_of_items_unique {V : Type} (items : list (string * V)) :
  keys_unique items -> dict_of_items items = items.
Proof. intros H. unfold dict_of_items. rewrite dict_of_items_from; [reflexivity | exact H]. Qed.

(** ** The stable sort *)

Section SortedFacts.
Context {A : Type} (key : A -> Z) (reverse : bool).

Lemma goes_before_total (x y : A) :
  goes_before key reverse x y = false -> goes_before key reverse y x = true.
Proof. unfold goes_before. destruct reverse; intros H; lia. Qed.

Lemma goes_before_trans (x y z : A) :
  in_order key reverse x y -> in_order key reverse y z -> in_order key reverse x z.
Proof. unfold in_order, goes_before. destruct reverse; intros; lia. Qed.

Lemma goes_before_same_key (x y : A) : key x = key y -> in_order key reverse x y.
Proof. unfold in_order, goes_before. destruct reverse; intros; lia. Qed.

Lemma insert_stable_perm (x : A) (l : list A) :
  Permutation (insert_stable key reverse x l) (x :: l).
Proof.
  induction l as [|y l IH]; simpl; [apply Permutation_refl|].
  destruct (goes_before key reverse x y); [apply Permutation_refl|].
  eapply Permutation_trans; [apply perm_skip; exact IH | apply perm_swap].
Qed.

Lemma sorted_perm (l : list A) : Permutation (sorted key reverse l) l.
Proof.
  induction l as [|x l IH]; simpl; [apply Permutation_refl|].
  eapply Permutation_trans; [apply insert_stable_perm | apply perm_skip; exact IH].
Qed.

Lemma insert_stable_sorted (x : A) (l : list A) :
  StronglySorted (in_order key reverse) l ->
  StronglySorted (in_order key reverse) (insert_stable key reverse x l).
Proof.
  induction l as [|y l IH]; simpl; intros Hs.
  - constructor; constructor.
  - inversion Hs as [|? ? Hl Hy]; subst.
    destruct (goes_before key reverse x y) eqn:E.
    + constructor; [exact Hs|]. constructor; [exact E|].
      eapply Forall_impl; [|exact Hy]. intros z Hz.
      eapply goes_before_trans; [exact E | exact Hz].
    + constructor; [apply IH; exact Hl|].
      eapply Permutation_Forall;
        [apply Permutation_sym; apply insert_stable_perm|].
      constructor; [apply goes_before_total; exact E | exact Hy].
Qed.

Lemma sorted_sorted (l : list A) :
  StronglySorted (in_order key reverse) (sorted key reverse l).
Proof.
  induction l as [|x l IH]; simpl; [constructor | apply insert_stable_sorted; exact IH].
Qed.

(** Stability: the elements of any one key keep their order. *)
Lemma insert_stable_filter (d : Z) (x : A) (l : list A) :
  filter (fun y => (key y =? d)%Z) (insert_stable key reverse x l)
  = filter (fun y => (key y =? d)%Z) (x :: l).
Proof.
  induction l as [|y l IH]; [reflexivity|].
  cbn [insert_stable]. destruct (goes_before key reverse x y) eqn:E; [reflexivity|].
  cbn [filter] in *. rewrite IH.
  destruct (key x =? d)%Z eqn:Ex; destruct (key y =? d)%Z eqn:Ey; try reflexivity.
  apply Z.eqb_eq in Ex, Ey.
  assert (Hxy : in_order key reverse x y) by (apply goes_before_same_key; congruence).
  unfold in_order in Hxy. congruence.
Qed.

Lemma sorted_stable (d : Z) (l : list A) :
  filter (fun y => (key y =? d)%Z) (sorted key reverse l)
  = filter (fun y => (key y =? d)%Z) l.
Proof.
  induction l as [|x l IH]; [reflexivity|].
  cbn [sorted]. rewrite insert_stable_filter. cbn [filter]. rewrite IH. reflexivity.
Qed.

End SortedFacts.

(* ================================================================== *)
(** * Data accessor                                                    *)
(* ================================================================== *)

(** ** Similar-BPM ranking *)

Lemma peers_keys_subset (songs : dict entry) (song_id g : string) (k : string) :
  In k (keys (peers songs song_id g)) -> In k (keys songs).
Proof.
  unfold peers, keys. induction songs as [|[id e] songs IH]; simpl; [tauto|].
  rewrite map_app, in_app_iff. intros [H|H]; [|right; apply IH; exact H].
  left. destruct (genre e); [|contradiction]. destruct (BPM e); [|contradiction].
  destruct (_ && _); [|contradiction]. simpl in H. destruct H as [H|[]]. exact H.
Qed.

Lemma peers_keys_unique (songs : dict entry) (song_id g : string) :
  keys_unique songs -> keys_unique (peers songs song_id g).
Proof.
  unfold keys_unique. induction songs as [|[id e] songs IH]; intros Hnd.
  - constructor.
  - inversion Hnd as [|? ? Hid Hrest]; subst.
    change (peers ((id, e) :: songs) song_id g)
      with ((match genre e, BPM e with
             | Some g', Some b =>
                 if String.eqb g' g && negb (String.eqb song_id id)
                 then [(id, b)] else []
             | _, _ => []
             end) ++ peers songs song_id g).
    assert (Hfresh : ~ In id (keys (peers songs song_id g))).
    { intros Hin. apply Hid. eapply peers_keys_subset. exact Hin. }
    destruct (genre e); [|apply IH; exact Hrest].
    destruct (BPM e); [|apply IH; exact Hrest].
    destruct (_ && _); [|apply IH; exact Hrest].
    simpl. constructor; [exact Hfresh | apply IH; exact Hrest].
Qed.

Lemma peers_spec (songs : dict entry) (song_id g id : string) (b : Z) :
  In (id, b) (peers songs song_id g) <->
  exists e, In (id, e) songs /\ genre e = Some g /\ BPM e = Some b /\ id <> song_id.
Proof.
  unfold peers. rewrite in_flat_map. split.
  - intros [[id' e] [Hin H]]. simpl in H.
    destruct (genre e) as [g'|] eqn:Eg; [|contradiction].
    destruct (BPM e) as [b'|] eqn:Eb; [|contradiction].
    destruct (String.eqb g' g) eqn:E1; [|contradiction].
    destruct (String.eqb song_id id') eqn:E2; [contradiction|].
    simpl in H. destruct H as [H|[]]. inversion H; subst.
    apply String.eqb_eq in E1. apply String.eqb_neq in E2. subst.
    exists e. repeat split; try assumption. congruence.
  - intros [e [Hin [Eg [Eb Hne]]]]. exists (id, e). split; [exact Hin|].
    simpl. rewrite Eg, Eb, String.eqb_refl.
    assert (E2 : String.eqb song_id id = false) by (apply String.eqb_neq; congruence).
    rewrite E2. left. reflexivity.
Qed.

(** The filtering loop of [get_similar_bpm_songs] over a songs table. *)
Lemma similar_loop (song_id song_genre : string) (songs : dict entry) :
  forall song_list : dict Z,
    (forall k song, In (k, song) songs -> exists b g, BPM song = Some b /\ genre song = Some g) ->
    NoDup (keys song_list ++ keys songs) ->
    for_each
      (fun (song_list : dict Z) (item : string * entry) =>
         let (id, genre_bpm) := item in
         g <~ member genre genre_bpm ;;
         if String.eqb g song_genre && negb (String.eqb song_id id) then
           b <~ member BPM genre_bpm ;; Ok (dict_set id b song_list)
         else Ok song_list)
      songs song_list
    = Ok (song_list ++ peers songs song_id song_genre).
Proof.
  induction songs as [|[id e] songs IH]; intros song_list Hwf Hnd.
  - simpl. rewrite app_nil_r. reflexivity.
  - destruct (Hwf id e (or_introl eq_refl)) as [b [g [Eb Eg]]].
    assert (Hwf' : forall k song, In (k, song) songs ->
                     exists b g, BPM song = Some b /\ genre song = Some g).
    { intros k song Hin. apply (Hwf k song). right. exact Hin. }
    assert (Hfresh : ~ In id (keys song_list)).
    { simpl in Hnd. apply NoDup_remove_2 in Hnd. intros Hin. apply Hnd.
      apply in_or_app. left. exact Hin. }
    cbn [for_each]. rewrite (member_some genre e g Eg). cbn [rbind].
    unfold peers. cbn [flat_map snd fst]. fold (peers songs song_id song_genre).
    rewrite Eg, Eb.
    destruct (String.eqb g song_genre && negb (String.eqb song_id id)).
    + rewrite (member_some BPM e b Eb). cbn [rbind].
      rewrite (dict_set_fresh id b song_list Hfresh).
      assert (Hnd' : NoDup (keys (song_list ++ [(id, b)]) ++ keys songs)).
      { unfold keys in *. rewrite map_app. simpl. rewrite <- app_assoc. exact Hnd. }
      etransitivity; [exact (IH (song_list ++ [(id, b)]) Hwf' Hnd')|].
      rewrite <- app_assoc. reflexivity.
    + assert (Hnd' : NoDup (keys song_list ++ keys songs)).
      { simpl in Hnd. apply NoDup_remove_1 in Hnd. exact Hnd. }
      exact (IH song_list Hwf' Hnd').
Qed.

(** C3.  Over a songs table that holds [song_id], [get_similar_bpm_songs]
    returns the ids of exactly the other songs of the same genre, ranked by
    ascending absolute BPM difference, songs at the same difference staying in
    table order. *)
Theorem C3_similar_bpm_ranking (w : world) (song_id : string) (song : entry)
  (song_bpm : Z) (song_genre : string) :
  songs_table (mrs_users w) ->
  dict_get song_id (mrs_users w) = Some song ->
  BPM song = Some song_bpm -> genre song = Some song_genre ->
  let others := peers (mrs_users w) song_id song_genre in
  exists ranked : list (string * Z),
    DataExtractor.get_similar_bpm_songs w song_id = Ok (map fst ranked) /\
    Permutation ranked others /\
    StronglySorted (fun x y => (bpm_gap song_bpm x <= bpm_gap song_bpm y)%Z) ranked /\
    (forall gap, filter (fun x => (bpm_gap song_bpm x =? gap)%Z) ranked
                 = filter (fun x => (bpm_gap song_bpm x =? gap)%Z) others) /\
    NoDup (map fst ranked) /\
    ~ In song_id (map fst ranked) /\
    (forall id, In id (map fst ranked) <->
                id <> song_id /\
                exists e, In (id, e) (mrs_users w) /\ genre e = Some song_genre).
Proof.
  intros [Hnd Hwf] Hget Hb Hg others.
  exists (sorted (bpm_gap song_bpm) false others).
  assert (Hperm := sorted_perm (bpm_gap song_bpm) false others).
  assert (Hkeys : keys_unique (sorted (bpm_gap song_bpm) false others)).
  { unfold keys_unique, keys. eapply Permutation_NoDup.
    - apply Permutation_map, Permutation_sym, Hperm.
    - apply peers_keys_unique. exact Hnd. }
  assert (Hmem : forall id, In id (map fst (sorted (bpm_gap song_bpm) false others)) <->
                   id <> song_id /\
                   exists e, In (id, e) (mrs_users w) /\ genre e = Some song_genre).
  { intros id. rewrite in_map_iff. split.
    - intros [[id' b] [E Hin]]. simpl in E. subst id'.
      apply (Permutation_in _ Hperm) in Hin. apply peers_spec in Hin.
      destruct Hin as [e [Hin [Eg [_ Hne]]]]. split; [exact Hne|]. exists e. tauto.
    - intros [Hne [e [Hin Eg]]]. destruct (Hwf id e Hin) as [b [g [Eb _]]].
      exists (id, b). split; [reflexivity|].
      apply (Permutation_in _ (Permutation_sym Hperm)). apply peers_spec.
      exists e. tauto. }
  split; [|split; [exact Hperm|split; [|split; [|split; [exact Hkeys|split]]]]].
  - unfold DataExtractor.get_similar_bpm_songs, DataExtractor.get_songs_data.
    rewrite read_json_no_key. cbn [rbind].
    unfold getitem. rewrite Hget. cbn [rbind].
    rewrite (member_some BPM song song_bpm Hb), (member_some genre song song_genre Hg).
    cbn [rbind].
    rewrite (similar_loop song_id song_genre (mrs_users w) [] Hwf Hnd).
    cbn [rbind app]. fold others. fold (bpm_gap song_bpm).
    rewrite (dict_of_items_unique _ Hkeys). reflexivity.
  - pose proof (sorted_sorted (bpm_gap song_bpm) false others) as Hs.
    eapply StronglySorted_impl; [|exact Hs].
    intros x y H. unfold in_order, goes_before in H. apply Z.leb_le. exact H.
  - intros gap. apply sorted_stable.
  - intros Hin. apply Hmem in Hin. destruct Hin as [Hne _]. apply Hne. reflexivity.
  - exact Hmem.
Qed.

Ltac keys_distinct :=
  unfold keys_unique, keys; simpl;
  repeat (apply NoDup_cons; [simpl; intuition discriminate|]); apply NoDup_nil.

Lemma sample_songs_table : songs_table Sample.songs.
Proof.
  split; [keys_distinct|].
  intros k song Hin. simpl in Hin.
  repeat (destruct Hin as [E|Hin];
          [inversion E; subst; do 2 eexists; split; reflexivity|]).
  contradiction.
Qed.

Lemma C3_similar_bpm_ranking_witness :
  exists ranked : list (string * Z),
    DataExtractor.get_similar_bpm_songs Sample.catalogue "song_id_1"
      = Ok (map fst ranked) /\
    Permutation ranked (peers Sample.songs "song_id_1" "rock") /\
    StronglySorted (fun x y => (bpm_gap 120 x <= bpm_gap 120 y)%Z) ranked /\
    (forall gap, filter (fun x => (bpm_gap 120 x =? gap)%Z) ranked
                 = filter (fun x => (bpm_gap 120 x =? gap)%Z)
                          (peers Sample.songs "song_id_1" "rock")) /\
    NoDup (map fst ranked) /\
    ~ In "song_id_1" (map fst ranked) /\
    (forall id, In id (map fst ranked) <->
                id <> "song_id_1" /\
                exists e, In (id, e) Sample.songs /\ genre e = Some "rock").
Proof.
  apply (C3_similar_bpm_ranking Sample.catalogue "song_id_1" (Sample.song 120 "rock")
           120%Z "rock");
    [exact sample_songs_table | reflexivity | reflexivity | reflexivity].
Defined.

(** The scenario of the specification: C is dropped for its genre. *)
Example similar_bpm_scenario :
  DataExtractor.get_similar_bpm_songs
    (mkWorld [("A", Sample.song 120 "rock"); ("B", Sample.song 121 "rock");
              ("C", Sample.song 200 "pop")] [] Sample.gen [])
    "A"
  = Ok ["B"].
Proof. reflexivity. Qed.

(** Two peers at the same distance stay in table order. *)
Example similar_bpm_ties :
  DataExtractor.get_similar_bpm_songs Sample.catalogue "song_id_1"
  = Ok ["song_id_2"; "song_id_4"; "song_id_5"].
Proof. reflexivity. Qed.

(** ** Counting the recorded next-songs *)

Lemma existsb_string_In (x : string) (l : list string) :
  existsb (String.eqb x) l = true <-> In x l.
Proof.
  rewrite existsb_exists. split.
  - intros [y [Hy E]]. apply String.eqb_eq in E. subst. exact Hy.
  - intros Hx. exists x. split; [exact Hx | apply String.eqb_refl].
Qed.

Lemma counter_incr_keys (x : string) (c : dict nat) :
  keys (counter_incr x c) = seen_add (keys c) x.
Proof.
  unfold seen_add. induction c as [|[k n] c IH]; [reflexivity|].
  cbn [counter_incr keys map fst existsb]. rewrite (String.eqb_sym x k).
  destruct (String.eqb k x); [reflexivity|].
  cbn [orb keys map fst]. fold (keys c). fold (keys (counter_incr x c)).
  rewrite IH. destruct (existsb (String.eqb x) (keys c)); reflexivity.
Qed.

Lemma Counter_keys_from (l : list string) :
  forall c, keys (fold_left (fun c x => counter_incr x c) l c)
            = fold_left seen_add l (keys c).
Proof.
  induction l as [|x l IH]; intros c; [reflexivity|].
  cbn [fold_left]. rewrite IH, counter_incr_keys. reflexivity.
Qed.

Lemma Counter_keys (l : list string) : keys (Counter l) = first_seen l.
Proof. unfold Counter. rewrite Counter_keys_from. reflexivity. Qed.

Lemma counter_incr_count (x y : string) (c : dict nat) :
  count_in y (counter_incr x c)
  = count_in y c + (if string_dec x y then 1 else 0).
Proof.
  unfold count_in. induction c as [|[k n] c IH].
  - cbn [counter_incr dict_get]. destruct (string_dec x y) as [E|E].
    + subst. rewrite String.eqb_refl. reflexivity.
    + apply String.eqb_neq in E. rewrite E. reflexivity.
  - cbn [counter_incr]. destruct (String.eqb k x) eqn:Ekx.
    + apply String.eqb_eq in Ekx. subst k. cbn [dict_get].
      destruct (string_dec x y) as [E|E].
      * subst. rewrite String.eqb_refl. lia.
      * apply String.eqb_neq in E. rewrite E. lia.
    + cbn [dict_get]. destruct (String.eqb k y) eqn:Eky; [|exact IH].
      apply String.eqb_eq in Eky. subst k. apply String.eqb_neq in Ekx.
      destruct (string_dec x y) as [E|E]; [congruence | lia].
Qed.

Lemma Counter_count_from (y : string) (l : list string) :
  forall c, count_in y (fold_left (fun c x => counter_incr x c) l c)
            = count_in y c + count_occ string_dec l y.
Proof.
  induction l as [|x l IH]; intros c; cbn [fold_left count_occ]; [lia|].
  rewrite IH, counter_incr_count. destruct (string_dec x y); lia.
Qed.

Lemma Counter_count (y : string) (l : list string) :
  count_in y (Counter l) = count_occ string_dec l y.
Proof. unfold Counter. rewrite Counter_count_from. reflexivity. Qed.

Lemma seen_add_NoDup (seen : list string) (x : string) :
  NoDup seen -> NoDup (seen_add seen x).
Proof.
  intros H. unfold seen_add. destruct (existsb (String.eqb x) seen) eqn:E; [exact H|].
  apply NoDup_app; [exact H | apply NoDup_cons; [intros [] | apply NoDup_nil] |].
  intros y Hy [Hy'|[]]. subst y. apply existsb_string_In in Hy. congruence.
Qed.

Lemma seen_add_In (seen : list string) (x y : string) :
  In y (seen_add seen x) <-> In y seen \/ y = x.
Proof.
  unfold seen_add. destruct (existsb (String.eqb x) seen) eqn:E.
  - apply existsb_string_In in E. split; [tauto|]. intros [H|H]; [exact H | subst; exact E].
  - rewrite in_app_iff. simpl. split; intros [H|H]; try tauto.
    + destruct H as [H|[]]. right. congruence.
    + right. left. congruence.
Qed.

Lemma first_seen_from (l : list string) :
  forall seen, NoDup seen ->
    NoDup (fold_left seen_add l seen) /\
    forall y, In y (fold_left seen_add l seen) <-> In y seen \/ In y l.
Proof.
  induction l as [|x l IH]; intros seen Hnd; cbn [fold_left].
  - split; [exact Hnd|]. intros y. simpl. tauto.
  - destruct (IH (seen_add seen x) (seen_add_NoDup seen x Hnd)) as [H1 H2].
    split; [exact H1|]. intros y. rewrite H2, seen_add_In. simpl.
    split; intros H; intuition congruence.
Qed.

Lemma first_seen_NoDup (l : list string) : NoDup (first_seen l).
Proof. apply (first_seen_from l []). constructor. Qed.

Lemma first_seen_In (l : list string) (y : string) : In y (first_seen l) <-> In y l.
Proof.
  destruct (first_seen_from l [] (NoDup_nil _)) as [_ H].
  unfold first_seen. fold seen_add. rewrite H. simpl. tauto.
Qed.

Lemma items_by_key {V : Type} (F : string -> V) (c : dict V) :
  (forall k v, In (k, v) c -> v = F k) -> c = map (fun k => (k, F k)) (keys c).
Proof.
  induction c as [|[k v] c IH]; intros H; [reflexivity|].
  cbn [keys map fst]. fold (keys c). rewrite <- IH.
  - rewrite <- (H k v (or_introl eq_refl)). reflexivity.
  - intros k' v' Hin. apply H. right. exact Hin.
Qed.

(** [Counter(l)] lists the distinct values of [l] in first-seen order, each
    with its number of occurrences. *)
Lemma Counter_items (l : list string) :
  Counter l = map (fun x => (x, count_occ string_dec l x)) (first_seen l).
Proof.
  rewrite <- Counter_keys. apply items_by_key. intros k n Hin.
  assert (Hu : keys_unique (Counter l)).
  { unfold keys_unique. rewrite Counter_keys. apply first_seen_NoDup. }
  pose proof (dict_get_in k n (Counter l) Hu Hin) as Hget.
  pose proof (Counter_count k l) as Hc. unfold count_in in Hc. rewrite Hget in Hc.
  exact Hc.
Qed.

(** ** The scan of the users table *)

Lemma scan_history (song_id : string) (history : dict (list string)) :
  keys_unique history ->
  (forall song nexts, In (song, nexts) history -> nexts <> []) ->
  forall next_songs,
    for_each
      (fun (next_songs : list string) (item : string * list string) =>
         let (song, next_song) := item in
         if String.eqb song song_id then
           first <~ list_index next_song 0 ;; Ok (next_songs ++ [first])
         else Ok next_songs)
      history next_songs
    = Ok (next_songs ++ one_next song_id history).
Proof.
  unfold keys_unique, one_next.
  induction history as [|[song nexts] history IH]; intros Hnd Hne next_songs.
  - simpl. rewrite app_nil_r. reflexivity.
  - inversion Hnd as [|? ? Hfresh Hnd']; subst.
    assert (Hne' : forall s n, In (s, n) history -> n <> []).
    { intros s n Hin. apply (Hne s n). right. exact Hin. }
    cbn [for_each dict_get]. destruct (String.eqb song song_id) eqn:E.
    + apply String.eqb_eq in E. subst song.
      destruct nexts as [|next more];
        [exfalso; exact (Hne song_id [] (or_introl eq_refl) eq_refl)|].
      change (list_index (next :: more) 0) with (Ok next). cbn [rbind].
      etransitivity; [exact (IH Hnd' Hne' (next_songs ++ [next]))|].
      rewrite (dict_get_not_in song_id history Hfresh). rewrite app_nil_r.
      reflexivity.
    + cbn [rbind]. exact (IH Hnd' Hne' next_songs).
Qed.

Lemma one_next_first_next (song_id : string) (user : entry)
  (history : dict (list string)) :
  played_songs user = Some history ->
  one_next song_id history
  = match first_next song_id user with
    | Some next => [next]
    | None => []
    end.
Proof.
  intros H. unfold one_next, first_next. rewrite H.
  destruct (dict_get song_id history) as [[|n r]|]; reflexivity.
Qed.

Lemma scan_users (song_id : string) (users : dict entry) :
  (forall k user, In (k, user) users ->
     exists history, played_songs user = Some history /\
       keys_unique history /\
       forall song nexts, In (song, nexts) history -> nexts <> []) ->
  forall next_songs,
    for_each
      (fun (next_songs : list string) (kv : string * entry) =>
         let (k, v) := kv in
         history <~ member played_songs v ;;
         for_each
           (fun (next_songs : list string) (item : string * list string) =>
              let (song, next_song) := item in
              if String.eqb song song_id then
                first <~ list_index next_song 0 ;; Ok (next_songs ++ [first])
              else Ok next_songs)
           history next_songs)
      users next_songs
    = Ok (next_songs ++ recorded_next users song_id).
Proof.
  induction users as [|[k user] users IH]; intros Hwf next_songs.
  - simpl. rewrite app_nil_r. reflexivity.
  - destruct (Hwf k user (or_introl eq_refl)) as [history [Eh [Hu Hne]]].
    assert (Hwf' : forall k' u, In (k', u) users ->
                     exists history, played_songs u = Some history /\
                       keys_unique history /\
                       forall song nexts, In (song, nexts) history -> nexts <> []).
    { intros k' u Hin. apply (Hwf k' u). right. exact Hin. }
    cbn [for_each]. rewrite (member_some played_songs user history Eh).
    cbn [rbind]. rewrite (scan_history song_id history Hu Hne next_songs).
    cbn [rbind].
    etransitivity; [exact (IH Hwf' (next_songs ++ one_next song_id history))|].
    unfold recorded_next. cbn [flat_map snd].
    rewrite <- (one_next_first_next song_id user history Eh), app_assoc.
    reflexivity.
Qed.

Lemma votes_count_occ (users : dict entry) (song_id x : string) :
  votes users song_id x = count_occ string_dec (recorded_next users song_id) x.
Proof.
  unfold votes, recorded_next. induction users as [|[k user] users IH]; [reflexivity|].
  cbn [filter flat_map]. rewrite count_occ_app, <- IH. unfold chose. cbn [snd].
  destruct (first_next song_id user) as [next|]; [|reflexivity].
  cbn [count_occ]. destruct (string_dec next x) as [E|E].
  - subst. rewrite String.eqb_refl. reflexivity.
  - apply String.eqb_neq in E. rewrite E. reflexivity.
Qed.

Lemma candidates_voted (users : dict entry) (song_id x : string) :
  In x (candidates users song_id) <-> 0 < votes users song_id x.
Proof.
  unfold candidates. rewrite first_seen_In, votes_count_occ.
  apply count_occ_In.
Qed.

(** ** The three most played next-songs *)

Lemma StronglySorted_map {A B : Type} (R : B -> B -> Prop) (g : A -> B) (l : list A) :
  StronglySorted R (map g l) -> StronglySorted (fun x y => R (g x) (g y)) l.
Proof.
  induction l as [|x l IH]; intros H; [constructor|].
  inversion H as [|? ? Hs Hx]; subst. constructor; [apply IH; exact Hs|].
  rewrite Forall_map in Hx. exact Hx.
Qed.

Lemma filter_keys {V : Type} (p : string * V -> bool) (q : string -> bool)
  (c : dict V) :
  (forall k v, In (k, v) c -> p (k, v) = q k) ->
  map fst (filter p c) = filter q (map fst c).
Proof.
  induction c as [|[k v] c IH]; intros H; [reflexivity|].
  cbn [filter map fst]. rewrite <- (H k v (or_introl eq_refl)).
  destruct (p (k, v)); cbn [map fst]; rewrite IH; try reflexivity;
    intros k' v' Hin; apply H; right; exact Hin.
Qed.

(** What [Counter(next_songs).most_common()] ranks: the candidates by
    descending number of occurrences, ties in first-seen order. *)
Lemma ranking_spec (l : list string) :
  let F := fun x => count_occ string_dec l x in
  let ranked := sorted (fun item : string * nat => Z.of_nat (snd item)) true (Counter l) in
  ranked = map (fun x => (x, F x)) (map fst ranked) /\
  Permutation (map fst ranked) (first_seen l) /\
  StronglySorted (fun x y => F y <= F x) (map fst ranked) /\
  (forall n, filter (fun x => F x =? n) (map fst ranked)
             = filter (fun x => F x =? n) (first_seen l)).
Proof.
  intros F ranked.
  pose proof (sorted_perm (fun item : string * nat => Z.of_nat (snd item)) true
                (Counter l)) as Hperm. fold ranked in Hperm.
  assert (Hshape : ranked = map (fun x => (x, F x)) (map fst ranked)).
  { apply (items_by_key F ranked). intros k n Hin.
    apply (Permutation_in _ Hperm) in Hin. rewrite Counter_items in Hin.
    apply in_map_iff in Hin. destruct Hin as [x [E _]]. inversion E; subst.
    reflexivity. }
  split; [exact Hshape|]. split; [|split].
  - rewrite <- Counter_keys. apply Permutation_map. exact Hperm.
  - pose proof (sorted_sorted (fun item : string * nat => Z.of_nat (snd item)) true
                  (Counter l)) as Hs. fold ranked in Hs. rewrite Hshape in Hs.
    apply StronglySorted_map in Hs.
    eapply StronglySorted_impl; [|exact Hs].
    intros x y H. unfold in_order, goes_before in H. cbn [snd] in H. lia.
  - intros n.
    pose proof (sorted_stable (fun item : string * nat => Z.of_nat (snd item)) true
                  (Z.of_nat n) (Counter l)) as Hst. fold ranked in Hst.
    assert (Hq : forall c : dict nat,
               (forall k v, In (k, v) c -> v = F k) ->
               map fst (filter (fun y => (Z.of_nat (snd y) =? Z.of_nat n)%Z) c)
               = filter (fun x => F x =? n) (map fst c)).
    { intros c Hc. apply filter_keys. intros k v Hin. cbn [snd].
      rewrite (Hc k v Hin).
      destruct (Nat.eqb_spec (F k) n);
        destruct (Z.eqb_spec (Z.of_nat (F k)) (Z.of_nat n)); try reflexivity; lia. }
    rewrite <- (Hq ranked), Hst, (Hq (Counter l)).
    + rewrite <- Counter_keys. reflexivity.
    + intros k v Hin. rewrite Counter_items in Hin. apply in_map_iff in Hin.
      destruct Hin as [x [E _]]. inversion E; subst. reflexivity.
    + intros k v Hin. rewrite Hshape in Hin. apply in_map_iff in Hin.
      destruct Hin as [x [E _]]. inversion E; subst. reflexivity.
Qed.

Lemma NoDup_prefix3 {A : Type} (a b c : A) (rest : list A) :
  NoDup (a :: b :: c :: rest) -> NoDup [a; b; c].
Proof.
  intros H. change (a :: b :: c :: rest) with ([a; b; c] ++ rest) in H.
  apply NoDup_app_remove_r in H. exact H.
Qed.

(** C1.  Over a users table, let the candidates be the distinct first
    recorded next-songs after [song_id], in first-seen order.  With three
    candidates or more, [get_most_played_songs] returns three distinct ids:
    the head of the ranking of the candidates by descending number of users
    whose first recorded next-song is that candidate, candidates with equal
    counts in first-seen order.  With fewer than three candidates it raises
    [IndexError] and returns no list. *)
Theorem C1_most_played_next (w : world) (song_id : string) :
  users_table (mrs_users w) ->
  let users := mrs_users w in
  let cands := candidates users song_id in
  (forall x, In x cands <-> 0 < votes users song_id x) /\
  (3 <= length cands ->
   exists a b c rest,
     DataExtractor.get_most_played_songs w song_id = Ok [a; b; c] /\
     NoDup [a; b; c] /\
     Permutation (a :: b :: c :: rest) cands /\
     StronglySorted (fun x y => votes users song_id y <= votes users song_id x)
                    (a :: b :: c :: rest) /\
     (forall n,
        filter (fun x => votes users song_id x =? n) (a :: b :: c :: rest)
        = filter (fun x => votes users song_id x =? n) cands)) /\
  (length cands < 3 ->
   DataExtractor.get_most_played_songs w song_id = Raise IndexError).
Proof.
  intros [Hu Hwf] users cands.
  split; [intros x; apply candidates_voted|].
  assert (Hrun : DataExtractor.get_most_played_songs w song_id
                 = (let most_common := most_common 3 (Counter (recorded_next users song_id)) in
                    m0 <~ list_index most_common 0 ;;
                    m1 <~ list_index most_common 1 ;;
                    m2 <~ list_index most_common 2 ;;
                    Ok [fst m0; fst m1; fst m2])).
  { unfold DataExtractor.get_most_played_songs, DataExtractor.get_users_data.
    rewrite read_json_no_key. cbn [rbind].
    rewrite (scan_users song_id (mrs_users w) Hwf []). reflexivity. }
  destruct (ranking_spec (recorded_next users song_id)) as [Hshape [Hperm [Hsort Hstab]]].
  set (ranked := sorted (fun item : string * nat => Z.of_nat (snd item)) true
                        (Counter (recorded_next users song_id))) in *.
  assert (Hvotes : forall x, count_occ string_dec (recorded_next users song_id) x
                             = votes users song_id x).
  { intros x. symmetry. apply votes_count_occ. }
  assert (Hlen : length ranked = length cands).
  { rewrite <- (length_map fst ranked). apply Permutation_length. exact Hperm. }
  unfold most_common, slice_to in Hrun. fold ranked in Hrun. cbv zeta in Hrun.
  split.
  - intros H3. destruct ranked as [|m0 [|m1 [|m2 rest]]] eqn:Er;
      try (simpl in Hlen; lia).
    exists (fst m0), (fst m1), (fst m2), (map fst rest).
    change (map fst (m0 :: m1 :: m2 :: rest))
      with (fst m0 :: fst m1 :: fst m2 :: map fst rest) in *.
    split; [exact Hrun|]. split; [|split; [exact Hperm|split]].
    + eapply NoDup_prefix3. eapply Permutation_NoDup;
        [apply Permutation_sym; exact Hperm | apply first_seen_NoDup].
    + eapply StronglySorted_impl; [|exact Hsort].
      intros x y Hxy. cbv beta in Hxy. rewrite !Hvotes in Hxy. exact Hxy.
    + intros n. specialize (Hstab n). cbv beta in Hstab.
      rewrite (filter_ext (fun x => votes users song_id x =? n)
                 (fun x => count_occ string_dec (recorded_next users song_id) x =? n))
        by (intros x; rewrite Hvotes; reflexivity).
      rewrite (filter_ext (fun x => votes users song_id x =? n)
                 (fun x => count_occ string_dec (recorded_next users song_id) x =? n))
        by (intros x; rewrite Hvotes; reflexivity).
      exact Hstab.
  - intros H3. rewrite Hrun.
    destruct ranked as [|m0 [|m1 [|m2 rest]]]; try reflexivity.
    simpl in Hlen. lia.
Qed.

Lemma sample_users_table : users_table Sample.users.
Proof.
  split; [keys_distinct|].
  intros k user Hin. simpl in Hin.
  repeat (destruct Hin as [E|Hin];
          [inversion E; subst; eexists; split; [reflexivity|];
           split; [keys_distinct|];
           intros song nexts Hh; simpl in Hh;
           repeat (destruct Hh as [Eh|Hh]; [inversion Eh; subst; discriminate|]);
           contradiction|]).
  contradiction.
Qed.

Lemma C1_most_played_next_witness :
  (exists a b c rest,
     DataExtractor.get_most_played_songs Sample.session "song_id_1" = Ok [a; b; c] /\
     NoDup [a; b; c] /\
     Permutation (a :: b :: c :: rest) (candidates Sample.users "song_id_1") /\
     StronglySorted
       (fun x y => votes Sample.users "song_id_1" y <= votes Sample.users "song_id_1" x)
       (a :: b :: c :: rest) /\
     (forall n,
        filter (fun x => votes Sample.users "song_id_1" x =? n) (a :: b :: c :: rest)
        = filter (fun x => votes Sample.users "song_id_1" x =? n)
                 (candidates Sample.users "song_id_1"))) /\
  DataExtractor.get_most_played_songs Sample.session "song_id_9" = Raise IndexError.
Proof.
  split.
  - apply (C1_most_played_next Sample.session "song_id_1" sample_users_table).
    vm_compute. lia.
  - apply (C1_most_played_next Sample.session "song_id_9" sample_users_table).
    vm_compute. lia.
Defined.

(** The sample ranking: [song_id_3] has two votes, the three others one each
    and keep their first-seen order. *)
Example most_played_sample :
  DataExtractor.get_most_played_songs Sample.session "song_id_1"
  = Ok ["song_id_3"; "song_id_2"; "song_id_4"].
Proof. reflexivity. Qed.

(** Three users who all went on to the same song leave one candidate, and
    the call raises. *)
Example most_played_single_candidate :
  DataExtractor.get_most_played_songs
    (mkWorld [("user_id_1", Sample.listener [("song_id_1", ["song_id_2"])]);
              ("user_id_2", Sample.listener [("song_id_1", ["song_id_2"])]);
              ("user_id_3", Sample.listener [("song_id_1", ["song_id_2"])])]
             Sample.config Sample.gen [])
    "song_id_1"
  = Raise IndexError.
Proof. reflexivity. Qed.

(** ** Vote tally *)

Lemma first_next_some (song_id : string) (user : entry) (next : string) :
  first_next song_id user = Some next ->
  exists history rest,
    played_songs user = Some history /\ dict_get song_id history = Some (next :: rest).
Proof.
  unfold first_next. destruct (played_songs user) as [history|]; [|discriminate].
  destruct (dict_get song_id history) as [[|n rest]|] eqn:Eg; try discriminate.
  intros H. inversion H; subst. exists history, rest. split; [reflexivity | exact Eg].
Qed.

Lemma chose_next (song_id candidate k : string) (user : entry) (next : string) :
  first_next song_id user = Some next ->
  chose song_id candidate (k, user) = String.eqb next candidate.
Proof. intros H. unfold chose. cbn [snd]. rewrite H. reflexivity. Qed.

(** The counting loop of [get_mfc_users_data]. *)
Lemma tally_loop (song_id first second : string) (users : dict entry) :
  all_played users song_id ->
  forall c1 c2,
    for_each
      (fun (counts : nat * nat) (kv : string * entry) =>
         let (song_1_count, song_2_count) := counts in
         let (k, v) := kv in
         history <~ member played_songs v ;;
         nexts <~ getitem history song_id ;;
         first' <~ list_index nexts 0 ;;
         if String.eqb first' first then Ok (song_1_count + 1, song_2_count)
         else
           history' <~ member played_songs v ;;
           nexts' <~ getitem history' song_id ;;
           first'' <~ list_index nexts' 0 ;;
           if String.eqb first'' second then Ok (song_1_count, song_2_count + 1)
           else Ok (song_1_count, song_2_count))
      users (c1, c2)
    = Ok (c1 + votes users song_id first, c2 + votes_but users song_id second first).
Proof.
  induction users as [|[k v] users IH]; intros Hall c1 c2.
  - simpl. rewrite !Nat.add_0_r. reflexivity.
  - assert (Hall' : all_played users song_id).
    { intros k' u Hin. apply (Hall k' u). right. exact Hin. }
    destruct (first_next song_id v) as [next|] eqn:En;
      [|exfalso; exact (Hall k v (or_introl eq_refl) En)].
    destruct (first_next_some song_id v next En) as [history [rest [Eh Eg]]].
    cbn [for_each]. rewrite (member_some played_songs v history Eh). cbn [rbind].
    rewrite (getitem_some history song_id _ Eg). cbn [rbind].
    change (list_index (next :: rest) 0) with (Ok next). cbn [rbind].
    unfold votes, votes_but. cbn [filter].
    rewrite !(chose_next song_id _ k v next En).
    destruct (String.eqb next first) eqn:E1.
    + rewrite Bool.andb_false_r.
      etransitivity; [exact (IH Hall' (c1 + 1) c2)|].
      unfold votes, votes_but. cbn [length]. f_equal. f_equal. lia.
    + cbn [negb]. rewrite Bool.andb_true_r.
      destruct (String.eqb next second) eqn:E2.
      * etransitivity; [exact (IH Hall' c1 (c2 + 1))|].
        unfold votes, votes_but. cbn [length]. f_equal. f_equal. lia.
      * exact (IH Hall' c1 c2).
Qed.

Lemma votes_but_distinct (users : dict entry) (song_id a b : string) :
  a <> b -> votes_but users song_id b a = votes users song_id b.
Proof.
  intros Hne. unfold votes_but, votes. f_equal. apply filter_ext.
  intros user. unfold chose. destruct (first_next song_id (snd user)) as [next|];
    [|reflexivity].
  destruct (String.eqb next b) eqn:Eb; [|reflexivity].
  destruct (String.eqb next a) eqn:Ea; [|reflexivity].
  apply String.eqb_eq in Ea, Eb. congruence.
Qed.

Lemma votes_sum_le (users : dict entry) (song_id a b : string) :
  votes users song_id a + votes_but users song_id b a <= length users.
Proof.
  unfold votes, votes_but. induction users as [|u users IH]; simpl; [lia|].
  destruct (chose song_id a u); destruct (chose song_id b u); simpl; lia.
Qed.

(** C6 (as the code has it).  Over a Users table in which every user has a
    recorded history for [song_id], the tally gives candidate A the number of
    users whose first recorded next-song is A, and candidate B the number of
    those whose first recorded next-song is B and not A, which for distinct
    candidates is the number of users who chose B; every other user is
    ignored and the two counts add up to no more than the user count. *)
Theorem C6_vote_tally (w : world) (song_id a b : string) :
  all_played (mrs_users w) song_id ->
  let users := mrs_users w in
  DataExtractor.get_mfc_users_data w song_id a b
    = Ok (DataExtractor.mkTally (a, votes users song_id a)
                                (b, votes_but users song_id b a)) /\
  (a <> b -> votes_but users song_id b a = votes users song_id b) /\
  votes users song_id a + votes_but users song_id b a <= length users /\
  DataExtractor.get_user_count w = Ok (length users).
Proof.
  intros Hall users. split; [|split; [|split]].
  - unfold DataExtractor.get_mfc_users_data. rewrite read_json_no_key. cbn [rbind].
    rewrite (tally_loop song_id a b (mrs_users w) Hall 0 0). reflexivity.
  - apply votes_but_distinct.
  - apply votes_sum_le.
  - reflexivity.
Qed.

Lemma sample_all_played : all_played Sample.users "song_id_1".
Proof.
  intros k user Hin. simpl in Hin.
  repeat (destruct Hin as [E|Hin]; [inversion E; subst; discriminate|]).
  contradiction.
Qed.

Lemma C6_vote_tally_witness :
  DataExtractor.get_mfc_users_data Sample.session "song_id_1" "song_id_3" "song_id_2"
    = Ok (DataExtractor.mkTally
            ("song_id_3", votes Sample.users "song_id_1" "song_id_3")
            ("song_id_2", votes_but Sample.users "song_id_1" "song_id_2" "song_id_3")) /\
  ("song_id_3" <> "song_id_2" ->
   votes_but Sample.users "song_id_1" "song_id_2" "song_id_3"
   = votes Sample.users "song_id_1" "song_id_2") /\
  votes Sample.users "song_id_1" "song_id_3"
  + votes_but Sample.users "song_id_1" "song_id_2" "song_id_3" <= length Sample.users /\
  DataExtractor.get_user_count Sample.session = Ok (length Sample.users).
Proof.
  exact (C6_vote_tally Sample.session "song_id_1" "song_id_3" "song_id_2"
           sample_all_played).
Defined.

(** C6, as stated, fails twice over.  A user without a history for the song
    (only [user_id_1] has played [song_id_9]) makes the call raise [KeyError]
    instead of being ignored; and with the same candidate named twice the
    second count is 0, not the 2 users who chose it. *)
Lemma C6_tally_not_for_every_table :
  DataExtractor.get_mfc_users_data Sample.session "song_id_9" "song_id_3" "song_id_2"
    = Raise KeyError /\
  votes Sample.users "song_id_9" "song_id_3" = 1 /\
  ~ tally_counts_both Sample.session "song_id_9" "song_id_3" "song_id_2" /\
  DataExtractor.get_mfc_users_data Sample.session "song_id_1" "song_id_3" "song_id_3"
    = Ok (DataExtractor.mkTally ("song_id_3", 2) ("song_id_3", 0)) /\
  votes Sample.users "song_id_1" "song_id_3" = 2 /\
  ~ tally_counts_both Sample.session "song_id_1" "song_id_3" "song_id_3".
Proof.
  repeat split; try reflexivity.
  - intros [E _]. vm_compute in E. discriminate E.
  - intros [E _]. vm_compute in E. discriminate E.
Qed.

(** ** C4: probability weights *)

(** C4 (as the code has it).  When the Config table has the key
    [songs_probabilities_set<n>] the call returns the configured weights; when
    it has not, the call does not fail: it returns the whole Config table. *)
Theorem C4_probability_lookup (w : world) (n : nat) :
  match dict_get (String.append "songs_probabilities_set" (str n)) (mrs_config w) with
  | Some weights =>
      DataExtractor.get_songs_probabilities_data w n = Ok (Entry weights)
  | None =>
      DataExtractor.get_songs_probabilities_data w n = Ok (Whole (mrs_config w))
  end.
Proof.
  unfold DataExtractor.get_songs_probabilities_data, read_json.
  destruct (dict_get _ (mrs_config w)); reflexivity.
Qed.

(** C4, as stated, fails: the sample Config has no weights for 7 candidates,
    and the call returns (the whole table) instead of raising. *)
Lemma C4_missing_key_does_not_fail :
  dict_get "songs_probabilities_set7" (mrs_config Sample.session) = None /\
  DataExtractor.get_songs_probabilities_data Sample.session 7
    = Ok (Whole Sample.config) /\
  forall e, DataExtractor.get_songs_probabilities_data Sample.session 7 <> Raise e.
Proof.
  split; [reflexivity|]. split; [reflexivity|]. intros e H. discriminate H.
Qed.

(* ================================================================== *)
(** * Recommenders                                                     *)
(* ================================================================== *)

(** ** C10: the length guards change nothing *)

Lemma guard_is_identity (songs : list string) :
  (if 2 <? length songs then slice_to songs (length songs) else songs) = songs.
Proof. destruct (2 <? length songs); [apply slice_to_length | reflexivity]. Qed.

(** C10.  The list handed to [random.choices] is the whole list the accessor
    returned, and [MFC.get_next_song] / [BPM.get_next_song] are the same
    functions as their variants without the [if songs_len > 2] guard. *)
Theorem C10_guards_are_noops :
  (forall songs : list string,
      (if 2 <? length songs then slice_to songs (length songs) else songs) = songs) /\
  (forall song_id w, MFC.get_next_song song_id w = Unguarded.MFC_get_next_song song_id w) /\
  (forall song_id w, BPM.get_next_song song_id w = Unguarded.BPM_get_next_song song_id w).
Proof.
  split; [exact guard_is_identity|]. split.
  - intros song_id w. unfold MFC.get_next_song, Unguarded.MFC_get_next_song, bind.
    destruct (MFC.get_next_songs song_id w) as [[a|e|] w1]; try reflexivity.
    destruct (query _ w1) as [[songs|e|] w2]; try reflexivity.
    cbv zeta. rewrite guard_is_identity. reflexivity.
  - intros song_id w. reflexivity.
Qed.

(** ** Weighted random selection *)

Lemma accumulate_from_length (l : list Q) (total : Q) :
  length (random.accumulate_from total l) = length l.
Proof. revert total. induction l; intros; simpl; [reflexivity | now rewrite IHl]. Qed.

Lemma accumulate_length (l : list Q) : length (random.accumulate l) = length l.
Proof. destruct l; simpl; [reflexivity | now rewrite accumulate_from_length]. Qed.

Lemma accumulate_from_last_pos (l : list Q) :
  forall total,
    (0 <= total)%Q -> Forall (fun x => (0 <= x)%Q) l ->
    (0 < total)%Q \/ Exists (fun x => (0 < x)%Q) l ->
    l <> [] ->
    exists t, list_last (random.accumulate_from total l) = Ok t /\ (0 < t)%Q.
Proof.
  induction l as [|x l IH]; intros total Ht Hl Hpos Hne; [congruence|].
  inversion Hl as [|? ? Hx Hl']; subst.
  assert (Hsum : (0 <= total + x)%Q) by lra.
  assert (Hpos' : (0 < total + x)%Q \/ Exists (fun x => (0 < x)%Q) l).
  { destruct Hpos as [Hp|Hp]; [left; lra|].
    inversion Hp; subst; [left; lra | right; assumption]. }
  destruct l as [|y l].
  - exists (total + x)%Q. split; [reflexivity|].
    destruct Hpos' as [Hp|Hp]; [exact Hp | inversion Hp].
  - simpl random.accumulate_from.
    destruct (IH (total + x)%Q Hsum Hl' Hpos' ltac:(discriminate)) as [t [E Ht']].
    exists t. split; [|exact Ht']. simpl in E. rewrite list_last_cons. exact E.
Qed.

Lemma accumulate_last_pos (ws : list Q) :
  Forall (fun x => (0 <= x)%Q) ws -> Exists (fun x => (0 < x)%Q) ws ->
  exists t, list_last (random.accumulate ws) = Ok t /\ (0 < t)%Q.
Proof.
  intros Hnn Hpos. destruct ws as [|x ws]; [inversion Hpos|].
  inversion Hnn as [|? ? Hx Hws]; subst.
  destruct ws as [|y ws].
  - exists x. split; [reflexivity|]. inversion Hpos as [? ? Hp|? ? Hp]; subst;
      [exact Hp | inversion Hp].
  - assert (Hp : (0 < x)%Q \/ Exists (fun x => (0 < x)%Q) (y :: ws)).
    { inversion Hpos; subst; [left | right]; assumption. }
    destruct (accumulate_from_last_pos (y :: ws) x Hx Hws Hp ltac:(discriminate))
      as [t [E Ht]].
    exists t. split; [|exact Ht].
    change (random.accumulate (x :: y :: ws))
      with (x :: random.accumulate_from x (y :: ws)).
    simpl in E |- *. rewrite list_last_cons. exact E.
Qed.

Lemma half_between (lo hi : nat) :
  lo < hi -> lo <= (lo + hi) / 2 /\ (lo + hi) / 2 < hi.
Proof.
  intros H. pose proof (Nat.div_mod_eq (lo + hi) 2) as E.
  pose proof (Nat.mod_upper_bound (lo + hi) 2 ltac:(lia)). lia.
Qed.

(** The loop of [bisect] ends within [hi - lo] rounds, between its bounds. *)
Lemma bisect_loop_bounds (a : list Q) (x : Q) :
  forall fuel lo hi,
    hi - lo <= fuel -> lo <= hi -> hi <= length a ->
    exists i, random.bisect_loop fuel a x lo hi = Ok i /\ lo <= i <= hi.
Proof.
  induction fuel as [|fuel IH]; intros lo hi Hf Hle Hhi.
  - assert (lo = hi) by lia. subst. exists hi. cbn [random.bisect_loop].
    rewrite Nat.ltb_irrefl. split; [reflexivity | lia].
  - cbn [random.bisect_loop]. destruct (lo <? hi) eqn:E.
    + apply Nat.ltb_lt in E. destruct (half_between lo hi E) as [H1 H2].
      destruct (list_index_lt a ((lo + hi) / 2) ltac:(lia)) as [am Eam].
      rewrite Eam. cbn [rbind].
      destruct (Qltb x am).
      * destruct (IH lo ((lo + hi) / 2) ltac:(lia) ltac:(lia) ltac:(lia)) as [i [Ei Hi]].
        exists i. split; [exact Ei | lia].
      * destruct (IH ((lo + hi) / 2 + 1) hi ltac:(lia) ltac:(lia) ltac:(lia))
          as [i [Ei Hi]].
        exists i. split; [exact Ei | lia].
    + apply Nat.ltb_ge in E. exists lo. split; [reflexivity | lia].
Qed.

Lemma bisect_bounds (a : list Q) (x : Q) (hi : nat) :
  hi <= length a ->
  exists i, random.bisect a x 0 hi = Ok i /\ i <= hi.
Proof.
  intros H. unfold random.bisect.
  destruct (bisect_loop_bounds a x (hi - 0) 0 hi ltac:(lia) ltac:(lia) H) as [i [E Hi]].
  exists i. split; [exact E | lia].
Qed.

(** Whatever the weights, a value that [random.choices] returns is one
    element of the population. *)
Lemma choices_member {A : Type} (population : list A)
  (weights : json_read (list Q)) (w w' : world) (picked : list A) :
  random.choices population weights w = (Ok picked, w') ->
  exists x, picked = [x] /\ In x population.
Proof.
  unfold random.choices. destruct weights as [ws|data].
  - destruct (negb _); [discriminate|].
    unfold bind, lift, raise, ret.
    destruct (list_last (random.accumulate ws)) as [t| |]; try discriminate.
    destruct (Qle_bool _ _); [discriminate|].
    destruct (random.random w) as [[r| |] w1]; try discriminate.
    destruct (random.bisect _ _ _ _) as [i| |]; try discriminate.
    destruct (list_index population i) as [x| |] eqn:E; try discriminate.
    intros H. inversion H; subst. exists x. split; [reflexivity|].
    eapply list_index_In. exact E.
  - destruct (negb _); [discriminate|].
    unfold bind, lift, raise.
    destruct (list_last _); discriminate.
Qed.

(** With a valid weight vector [random.choices] does return. *)
Lemma choices_returns {A : Type} (population : list A) (ws : list Q) (w : world) :
  valid_weights (length population) ws ->
  exists x w',
    random.choices population (Entry ws) w = (Ok [x], w') /\ In x population.
Proof.
  intros [Hlen [Hnn Hpos]]. unfold random.choices.
  rewrite accumulate_length, Hlen, Nat.eqb_refl. cbn [negb].
  destruct (accumulate_last_pos ws Hnn Hpos) as [t [Et Ht]].
  unfold bind, lift, raise, ret. rewrite Et.
  destruct (Qle_bool (t + 0) 0) eqn:Eq.
  { apply Qle_bool_iff in Eq. lra. }
  cbv beta iota.
  destruct (random.random w) as [r w1] eqn:Er.
  assert (exists q, r = Ok q) as [q ->].
  { unfold random.random in Er. destruct (random.next_raw _). inversion Er. eauto. }
  assert (Hne : 1 <= length population).
  { rewrite <- Hlen. destruct ws; [inversion Hpos | simpl; lia]. }
  destruct (bisect_bounds (random.accumulate ws) (q * (t + 0))%Q (length population - 1))
    as [i [Ei Hi]].
  { rewrite accumulate_length. lia. }
  rewrite Ei.
  destruct (list_index_lt population i ltac:(lia)) as [x Ex]. rewrite Ex.
  exists x, w1. split; [reflexivity|]. eapply list_index_In. exact Ex.
Qed.

(** [MFC.get_next_song] is the selection step over the list of the accessor. *)
Lemma MFC_get_next_song_run (song_id : string) (w w' : world)
  (songs : list string) (ws : list Q) (x : string) :
  DataExtractor.get_most_played_songs w song_id = Ok songs ->
  DataExtractor.get_songs_probabilities_data w (length songs) = Ok (Entry ws) ->
  random.choices songs (Entry ws) w = (Ok [x], w') ->
  MFC.get_next_song song_id w = (Ok x, w').
Proof.
  intros Hs Hp Hc. unfold MFC.get_next_song, MFC.get_next_songs, bind, query.
  rewrite Hs. cbv zeta. rewrite guard_is_identity, Hp, Hc. reflexivity.
Qed.

(** [BPM.get_next_song] is the selection step followed by [split("_")[-1]]. *)
Lemma BPM_get_next_song_run (song_id : string) (w w' : world)
  (songs : list string) (ws : list Q) (x : string) :
  DataExtractor.get_similar_bpm_songs w song_id = Ok songs ->
  DataExtractor.get_songs_probabilities_data w (length songs) = Ok (Entry ws) ->
  random.choices songs (Entry ws) w = (Ok [x], w') ->
  BPM.get_next_song song_id w = (list_last (split "_" x), w').
Proof.
  intros Hs Hp Hc. unfold BPM.get_next_song, bind, query.
  rewrite Hs. cbv zeta. rewrite Hp, Hc. reflexivity.
Qed.

(** C7.  Whatever the weights, a value the weighted-random selection returns
    is an element of the candidate list.  For a candidate list of length
    N >= 1 and a weight vector of length N, no weight negative and one
    positive, the selection does return; this is the selection step of
    [MFC.get_next_song] and of [BPM.get_next_song], run on the lists of
    [get_most_played_songs] and [get_similar_bpm_songs]. *)
Theorem C7_selection_in_candidates :
  (forall (songs : list string) (weights : json_read (list Q)) (w w' : world)
          (picked : list string),
      random.choices songs weights w = (Ok picked, w') ->
      exists x, picked = [x] /\ In x songs) /\
  (forall (songs : list string) (ws : list Q) (w : world),
      1 <= length songs -> valid_weights (length songs) ws ->
      exists x w', random.choices songs (Entry ws) w = (Ok [x], w') /\ In x songs) /\
  (forall song_id w songs ws,
      DataExtractor.get_most_played_songs w song_id = Ok songs ->
      DataExtractor.get_songs_probabilities_data w (length songs) = Ok (Entry ws) ->
      valid_weights (length songs) ws ->
      exists x w',
        random.choices songs (Entry ws) w = (Ok [x], w') /\ In x songs /\
        MFC.get_next_song song_id w = (Ok x, w')) /\
  (forall song_id w songs ws,
      DataExtractor.get_similar_bpm_songs w song_id = Ok songs ->
      DataExtractor.get_songs_probabilities_data w (length songs) = Ok (Entry ws) ->
      valid_weights (length songs) ws ->
      exists x w',
        random.choices songs (Entry ws) w = (Ok [x], w') /\ In x songs /\
        BPM.get_next_song song_id w = (list_last (split "_" x), w')).
Proof.
  split; [|split; [|split]].
  - intros songs weights w w' picked. apply choices_member.
  - intros songs ws w _ Hv. apply choices_returns. exact Hv.
  - intros song_id w songs ws Hs Hp Hv.
    destruct (choices_returns songs ws w Hv) as [x [w' [Hc Hin]]].
    exists x, w'. split; [exact Hc|]. split; [exact Hin|].
    eapply MFC_get_next_song_run; eassumption.
  - intros song_id w songs ws Hs Hp Hv.
    destruct (choices_returns songs ws w Hv) as [x [w' [Hc Hin]]].
    exists x, w'. split; [exact Hc|]. split; [exact Hin|].
    eapply BPM_get_next_song_run; eassumption.
Qed.

Ltac weights_ok :=
  repeat split;
  repeat first
    [ reflexivity
    | apply Forall_nil
    | apply Forall_cons; [unfold Qle; simpl; lia|]
    | apply Exists_cons_hd; unfold Qlt; simpl; lia ].

Lemma C7_selection_in_candidates_witness :
  (exists x, ["a"] = [x] /\ In x ["a"; "b"]) /\
  (exists x w',
      random.choices ["a"; "b"] (Entry [1 # 4; 3 # 4]%Q) Sample.session = (Ok [x], w') /\
      In x ["a"; "b"]) /\
  (exists x w',
      random.choices ["song_id_3"; "song_id_2"; "song_id_4"]
        (Entry [5 # 10; 3 # 10; 2 # 10]%Q) Sample.session = (Ok [x], w') /\
      In x ["song_id_3"; "song_id_2"; "song_id_4"] /\
      MFC.get_next_song "song_id_1" Sample.session = (Ok x, w')) /\
  (exists x w',
      random.choices ["song_id_2"; "song_id_4"; "song_id_5"]
        (Entry [5 # 10; 3 # 10; 2 # 10]%Q) Sample.catalogue = (Ok [x], w') /\
      In x ["song_id_2"; "song_id_4"; "song_id_5"] /\
      BPM.get_next_song "song_id_1" Sample.catalogue
        = (list_last (split "_" x), w')).
Proof.
  destruct C7_selection_in_candidates as [H0 [H1 [H2 H3]]].
  split; [|split; [|split]].
  - apply (H0 ["a"; "b"] (Entry [1 # 4; 3 # 4]%Q) Sample.session
              (with_generator Sample.session (advance Sample.gen)) ["a"]).
    vm_compute. reflexivity.
  - apply (H1 ["a"; "b"] [1 # 4; 3 # 4]%Q Sample.session); [simpl; lia | weights_ok].
  - apply (H2 "song_id_1" Sample.session); [reflexivity | reflexivity | weights_ok].
  - apply (H3 "song_id_1" Sample.catalogue); [reflexivity | reflexivity | weights_ok].
Defined.

(** ** Selection without configured weights *)

Lemma rbind_ok {A B : Type} (r : result A) (k : A -> result B) (b : B) :
  rbind r k = Ok b -> exists a, r = Ok a /\ k a = Ok b.
Proof. destruct r as [a|e|]; simpl; intros H; [eauto | discriminate | discriminate]. Qed.

(** A list [get_most_played_songs] returns has three songs. *)
Lemma get_most_played_songs_three (w : world) (song_id : string) (songs : list string) :
  DataExtractor.get_most_played_songs w song_id = Ok songs -> length songs = 3.
Proof.
  unfold DataExtractor.get_most_played_songs. intros H.
  apply rbind_ok in H. destruct H as [users [_ H]].
  apply rbind_ok in H. destruct H as [next_songs [_ H]]. cbv zeta in H.
  apply rbind_ok in H. destruct H as [m0 [_ H]].
  apply rbind_ok in H. destruct H as [m1 [_ H]].
  apply rbind_ok in H. destruct H as [m2 [_ H]].
  inversion H. reflexivity.
Qed.

Lemma accumulate_str_from_length (l : list string) (total : string) :
  length (random.accumulate_str_from total l) = length l.
Proof. revert total. induction l; intros; simpl; [reflexivity | now rewrite IHl]. Qed.

Lemma accumulate_str_length (l : list string) :
  length (random.accumulate_str l) = length l.
Proof. destruct l; simpl; [reflexivity | now rewrite accumulate_str_from_length]. Qed.

(** When the Config table has no weights for three candidates, it is
    [random.choices] that fails, on the dict it was handed: with
    [ValueError] when the table does not have three keys, with [TypeError]
    when it has. *)
Lemma MFC_get_next_song_without_weights (song_id : string) (w : world)
  (songs : list string) :
  DataExtractor.get_most_played_songs w song_id = Ok songs ->
  dict_get "songs_probabilities_set3" (mrs_config w) = None ->
  MFC.get_next_song song_id w
  = (Raise (if length (mrs_config w) =? 3 then TypeError else ValueError), w).
Proof.
  intros Hs Hcfg. pose proof (get_most_played_songs_three w song_id songs Hs) as H3.
  unfold MFC.get_next_song, MFC.get_next_songs, bind, query. rewrite Hs. cbv zeta.
  rewrite guard_is_identity, H3.
  unfold DataExtractor.get_songs_probabilities_data, read_json.
  change (String.append "songs_probabilities_set" (str 3))
    with "songs_probabilities_set3".
  rewrite Hcfg. unfold random.choices.
  rewrite accumulate_str_length, H3. unfold keys. rewrite length_map.
  destruct (length (mrs_config w) =? 3) eqn:E; [|reflexivity].
  cbn [negb]. unfold bind, lift, raise.
  destruct (list_last _) as [last| |] eqn:El; try reflexivity.
  - exfalso. unfold list_last in El.
    destruct (rev _) eqn:Er; [|discriminate El].
    apply (f_equal (@length string)) in Er.
    rewrite length_rev, accumulate_str_length, length_map in Er.
    apply Nat.eqb_eq in E. simpl in Er. lia.
  - unfold list_last in El. destruct (rev _); discriminate El.
Qed.

(** ** [split] and the last piece *)

Lemma split_not_nil (sep : ascii) (s : string) : split sep s <> [].
Proof.
  destruct s as [|c s]; simpl; [discriminate|].
  destruct (Ascii.eqb c sep); [discriminate|].
  destruct (split sep s); discriminate.
Qed.

Lemma split_no_sep (sep : ascii) (s : string) :
  contains sep s = false -> split sep s = [s].
Proof.
  induction s as [|c s IH]; simpl; [reflexivity|].
  intros H. apply orb_false_iff in H. destruct H as [Hc Hs].
  rewrite Hc, (IH Hs). reflexivity.
Qed.

Lemma split_app_sep (sep : ascii) (a b : string) :
  split sep (String.append a (String sep b)) = split sep a ++ split sep b.
Proof.
  induction a as [|c a IH]; simpl.
  - rewrite Ascii.eqb_refl. reflexivity.
  - destruct (Ascii.eqb c sep); rewrite IH; [reflexivity|].
    destruct (split sep a) as [|piece pieces] eqn:E; [|reflexivity].
    exfalso. exact (split_not_nil sep a E).
Qed.

(** Every string either has no separator, or ends in a separator followed by
    a separator-free suffix. *)
Lemma last_sep_decompose (sep : ascii) (s : string) :
  contains sep s = false \/
  exists prefix suffix,
    s = String.append prefix (String sep suffix) /\ contains sep suffix = false.
Proof.
  induction s as [|c s IH]; [left; reflexivity|].
  destruct IH as [Hno | [prefix [suffix [E Hs]]]].
  - simpl. destruct (Ascii.eqb c sep) eqn:Ec.
    + right. exists EmptyString, s. apply Ascii.eqb_eq in Ec. subst.
      split; [reflexivity | exact Hno].
    + left. exact Hno.
  - right. exists (String c prefix), suffix. subst. split; [reflexivity | exact Hs].
Qed.

Lemma last_piece_after_sep (sep : ascii) (prefix suffix : string) :
  contains sep suffix = false ->
  list_last (split sep (String.append prefix (String sep suffix))) = Ok suffix.
Proof.
  intros H. rewrite split_app_sep, (split_no_sep sep suffix H).
  apply list_last_app.
Qed.

Lemma last_piece_no_sep (sep : ascii) (s : string) :
  contains sep s = false -> list_last (split sep s) = Ok s.
Proof. intros H. rewrite (split_no_sep sep s H). reflexivity. Qed.

Lemma digits_no_underscore (d : Decimal.uint) :
  contains "_" (NilEmpty.string_of_uint d) = false.
Proof. induction d; simpl; try assumption; reflexivity. Qed.

Lemma str_no_underscore (n : nat) : contains "_" (str n) = false.
Proof. apply digits_no_underscore. Qed.

Lemma strip_song_id (n : nat) :
  list_last (split "_" (DataSaver.format_song_id n)) = Ok (str n).
Proof.
  unfold DataSaver.format_song_id.
  change (String.append "song_id_" (str n))
    with (String.append "song_id" (String "_" (str n))).
  apply last_piece_after_sep, str_no_underscore.
Qed.

(** C9.  When the same-genre candidate list is not empty (and the Config
    table holds a weight vector for its length), [BPM.get_next_song] returns
    the part of the selected candidate's key that follows its last
    underscore; for a stored key [song_id_<n>] that is [<n>], the raw id. *)
Theorem C9_bpm_returns_stripped_key (song_id : string) (w : world)
  (songs : list string) (ws : list Q) :
  DataExtractor.get_similar_bpm_songs w song_id = Ok songs ->
  songs <> [] ->
  DataExtractor.get_songs_probabilities_data w (length songs) = Ok (Entry ws) ->
  valid_weights (length songs) ws ->
  exists selected returned w',
    random.choices songs (Entry ws) w = (Ok [selected], w') /\
    In selected songs /\
    BPM.get_next_song song_id w = (Ok returned, w') /\
    contains "_" returned = false /\
    ((exists prefix, selected = String.append prefix (String "_" returned)) \/
     (contains "_" selected = false /\ returned = selected)) /\
    (forall n, selected = DataSaver.format_song_id n -> returned = str n).
Proof.
  intros Hs _ Hp Hv.
  destruct (choices_returns songs ws w Hv) as [x [w' [Hc Hin]]].
  pose proof (BPM_get_next_song_run song_id w w' songs ws x Hs Hp Hc) as Hrun.
  destruct (last_sep_decompose "_" x) as [Hno | [prefix [suffix [E Hsuf]]]].
  - exists x, x, w'. rewrite (last_piece_no_sep "_" x Hno) in Hrun.
    repeat split; try assumption.
    + right. split; [exact Hno | reflexivity].
    + intros n En. subst x. unfold DataSaver.format_song_id in Hno.
      simpl in Hno. discriminate Hno.
  - exists x, suffix, w'. subst x.
    rewrite (last_piece_after_sep "_" prefix suffix Hsuf) in Hrun.
    repeat split; try assumption.
    + left. exists prefix. reflexivity.
    + intros n En. pose proof (strip_song_id n) as Hn. rewrite <- En in Hn.
      rewrite (last_piece_after_sep "_" prefix suffix Hsuf) in Hn.
      inversion Hn. reflexivity.
Qed.

Lemma C9_bpm_returns_stripped_key_witness :
  exists selected returned w',
    random.choices ["song_id_2"; "song_id_4"; "song_id_5"]
      (Entry [5 # 10; 3 # 10; 2 # 10]%Q) Sample.catalogue = (Ok [selected], w') /\
    In selected ["song_id_2"; "song_id_4"; "song_id_5"] /\
    BPM.get_next_song "song_id_1" Sample.catalogue = (Ok returned, w') /\
    contains "_" returned = false /\
    ((exists prefix, selected = String.append prefix (String "_" returned)) \/
     (contains "_" selected = false /\ returned = selected)) /\
    (forall n, selected = DataSaver.format_song_id n -> returned = str n).
Proof.
  apply (C9_bpm_returns_stripped_key "song_id_1" Sample.catalogue);
    [reflexivity | discriminate | reflexivity | weights_ok].
Defined.

(* ================================================================== *)
(** * Activity simulator                                               *)
(* ================================================================== *)

(** ** The active cohort *)

Lemma id_at_range (g : rng) : 1 <= id_at g <= 50.
Proof.
  unfold id_at.
  pose proof (N.mod_upper_bound (tape g (cursor g)) 50 ltac:(discriminate)) as Hlt.
  set (r := (tape g (cursor g) mod 50)%N) in *. clearbody r. lia.
Qed.

Lemma count_at_range (g : rng) : 10 <= count_at g <= 24.
Proof.
  unfold count_at.
  pose proof (N.mod_upper_bound (tape g (cursor g)) 15 ltac:(discriminate)) as Hlt.
  set (r := (tape g (cursor g) mod 15)%N) in *. clearbody r. lia.
Qed.

Lemma choice_cons {A : Type} (x : A) (l : list A) (w : world) :
  random.choice (x :: l) w
  = (list_index (x :: l)
       (N.to_nat (tape (generator w) (cursor (generator w))
                  mod N.of_nat (length (x :: l)))),
     with_generator w (advance (generator w))).
Proof.
  unfold random.choice, bind, random.randbelow, lift, advance.
  cbn [random.next_raw snd fst generator].
  destruct (list_index _ _); reflexivity.
Qed.

Lemma choice_10_24 (w : world) :
  random.choice (seq 10 15) w
  = (Ok (count_at (generator w)), with_generator w (advance (generator w))).
Proof.
  change (seq 10 15) with (10 :: seq 11 14) at 1. rewrite choice_cons.
  change (10 :: seq 11 14) with (seq 10 15).
  change (N.of_nat (length (seq 10 15))) with 15%N.
  pose proof (N.mod_upper_bound (tape (generator w) (cursor (generator w))) 15
                ltac:(discriminate)) as Hlt.
  unfold count_at.
  set (r := (tape (generator w) (cursor (generator w)) mod 15)%N) in *.
  assert (Hi : N.to_nat r < 15) by (clearbody r; lia).
  set (i := N.to_nat r) in *.
  unfold list_index.
  rewrite (nth_error_nth' (seq 10 15) 0) by (rewrite length_seq; exact Hi).
  rewrite seq_nth by exact Hi. reflexivity.
Qed.

Lemma existsb_eqb_In (x : nat) (s : list nat) :
  existsb (Nat.eqb x) s = true <-> In x s.
Proof.
  rewrite existsb_exists. split.
  - intros [y [Hy E]]. apply Nat.eqb_eq in E. subst. exact Hy.
  - intros Hx. exists x. split; [exact Hx | apply Nat.eqb_refl].
Qed.

Lemma set_add_cohort (x : nat) (s : list nat) :
  1 <= x <= 50 -> cohort_set s -> cohort_set (set_add x s).
Proof.
  intros Hx [Hnd Hr]. unfold set_add.
  destruct (existsb (Nat.eqb x) s) eqn:E; [split; assumption|].
  split.
  - apply NoDup_app; [exact Hnd | apply NoDup_cons; [intros [] | apply NoDup_nil] | ].
    intros y Hy [Hy'|[]]. subst y.
    apply existsb_eqb_In in Hy. congruence.
  - apply Forall_app. split; [exact Hr | apply Forall_cons; [lia | apply Forall_nil]].
Qed.

Lemma set_add_length (x : nat) (s : list nat) :
  length s <= length (set_add x s) <= S (length s).
Proof.
  unfold set_add. destruct (existsb _ s); [lia|]. rewrite length_app. simpl. lia.
Qed.

Lemma upcoming_ids_S (g : rng) (n : nat) :
  upcoming_ids g (S n) = id_at g :: upcoming_ids (advance g) n.
Proof.
  unfold upcoming_ids. rewrite <- cons_seq, <- seq_shift. simpl map.
  rewrite Nat.add_0_r. f_equal. rewrite map_map. apply map_ext.
  intros i. simpl. rewrite Nat.add_succ_r. reflexivity.
Qed.

Lemma fill_active_users_S (fuel count : nat) (w : world) :
  length (active_users w) < count ->
  UAS.fill_active_users (S fuel) count w = UAS.fill_active_users fuel count (fill_step w).
Proof.
  intros H. apply Nat.ltb_lt in H. cbn [UAS.fill_active_users]. rewrite H.
  reflexivity.
Qed.

Lemma fill_active_users_done (fuel count : nat) (w : world) :
  count <= length (active_users w) ->
  UAS.fill_active_users fuel count w = (Ok tt, w).
Proof.
  intros H. apply Nat.ltb_ge in H. destruct fuel; cbn [UAS.fill_active_users];
    rewrite H; reflexivity.
Qed.

(** The [while] loop: it leaves a set of exactly [count] ids of [1, 50] and
    touches neither file; the fuel runs out only when the ids drawn so far
    hold fewer than [count] distinct values. *)
Lemma fill_active_users_spec (count : nat) :
  forall fuel w,
    cohort_set (active_users w) -> length (active_users w) <= count ->
    match UAS.fill_active_users fuel count w with
    | (Ok _, w') =>
        cohort_set (active_users w') /\ length (active_users w') = count /\
        mrs_users w' = mrs_users w /\ mrs_config w' = mrs_config w
    | (Raise _, _) => False
    | (OutOfFuel, _) =>
        length (fold_left (fun s x => set_add x s)
                          (upcoming_ids (generator w) fuel) (active_users w)) < count
    end.
Proof.
  induction fuel as [|fuel IH]; intros w Hc Hlen.
  - cbn [UAS.fill_active_users]. destruct (length (active_users w) <? count) eqn:E.
    + apply Nat.ltb_lt in E. exact E.
    + apply Nat.ltb_ge in E. repeat split; try apply Hc. lia.
  - destruct (Nat.lt_ge_cases (length (active_users w)) count) as [Hlt|Hge].
    + rewrite (fill_active_users_S fuel count w Hlt).
      assert (Hc' : cohort_set (active_users (fill_step w))).
      { apply set_add_cohort; [apply id_at_range | exact Hc]. }
      assert (Hlen' : length (active_users (fill_step w)) <= count).
      { pose proof (set_add_length (id_at (generator w)) (active_users w)).
        simpl. lia. }
      specialize (IH (fill_step w) Hc' Hlen').
      destruct (UAS.fill_active_users fuel count (fill_step w)) as [[u|e|] w'].
      * exact IH.
      * exact IH.
      * rewrite upcoming_ids_S. exact IH.
    + rewrite (fill_active_users_done (S fuel) count w Hge).
      repeat split; try apply Hc. lia.
Qed.

Section Cohorts.
Context `{SetOrder}.

Lemma cohort_set_listed (s : list nat) :
  cohort_set s -> cohort_set (list_of_set s).
Proof.
  intros [Hnd Hr]. pose proof (list_of_set_perm s) as P. split.
  - eapply Permutation_NoDup; [apply Permutation_sym; exact P | exact Hnd].
  - eapply Permutation_Forall; [apply Permutation_sym; exact P | exact Hr].
Qed.

(** [generate_active_users], step by step. *)
Lemma generate_active_users_run (fuel : nat) (w : world) :
  let w0 := with_active_users (with_generator w (advance (generator w))) [] in
  UAS.generate_active_users fuel w
  = match UAS.fill_active_users fuel (count_at (generator w)) w0 with
    | (Ok _, w') => (Ok (list_of_set (active_users w')), w')
    | (Raise e, w') => (Raise e, w')
    | (OutOfFuel, w') => (OutOfFuel, w')
    end.
Proof.
  unfold UAS.generate_active_users, bind, query. rewrite choice_10_24.
  cbv beta iota zeta.
  destruct (UAS.fill_active_users _ _ _) as [[u|e|] w']; reflexivity.
Qed.

Lemma generate_active_users_spec (fuel : nat) (w : world) :
  match UAS.generate_active_users fuel w with
  | (Ok cohort, w') =>
      cohort_set cohort /\ length cohort = count_at (generator w) /\
      Permutation cohort (active_users w') /\
      mrs_users w' = mrs_users w /\ mrs_config w' = mrs_config w
  | (Raise _, _) => False
  | (OutOfFuel, _) =>
      length (first_seen_nat (upcoming_ids (advance (generator w)) fuel))
      < count_at (generator w)
  end.
Proof.
  rewrite generate_active_users_run. cbv zeta.
  set (w0 := with_active_users _ []).
  pose proof (fill_active_users_spec (count_at (generator w)) fuel w0) as S.
  assert (Hc : cohort_set (active_users w0)) by (split; constructor).
  specialize (S Hc (Nat.le_0_l _)).
  destruct (UAS.fill_active_users fuel _ w0) as [[u|e|] w'].
  - destruct S as [Hs [Hl [Hu Hcfg]]]. split; [apply cohort_set_listed; exact Hs|].
    split; [rewrite (Permutation_length (list_of_set_perm _)); exact Hl|].
    split; [apply list_of_set_perm|]. split; assumption.
  - exact S.
  - exact S.
Qed.

(** The call returns as soon as the ids to come hold enough distinct
    values. *)
Lemma generate_active_users_returns (fuel : nat) (w : world) :
  count_at (generator w)
  <= length (first_seen_nat (upcoming_ids (advance (generator w)) fuel)) ->
  exists cohort w', UAS.generate_active_users fuel w = (Ok cohort, w').
Proof.
  intros Hdistinct. pose proof (generate_active_users_spec fuel w) as S.
  destruct (UAS.generate_active_users fuel w) as [[cohort|e|] w'].
  - exists cohort, w'. reflexivity.
  - contradiction.
  - lia.
Qed.

End Cohorts.


(** Two lists with the same number of occurrences of every element are
    permutations of each other. *)
Lemma same_elements_perm (l s : list nat) :
  same_elements l s = true -> Permutation l s.
Proof.
  intros E. apply (Permutation_count_occ Nat.eq_dec). intros x.
  unfold same_elements in E. rewrite forallb_forall in E.
  destruct (in_dec Nat.eq_dec x (l ++ s)) as [Hin|Hout].
  - apply Nat.eqb_eq. exact (E x Hin).
  - rewrite in_app_iff in Hout.
    rewrite (proj1 (count_occ_not_In Nat.eq_dec _ x)) by tauto.
    rewrite (proj1 (count_occ_not_In Nat.eq_dec _ x)) by tauto.
    reflexivity.
Qed.

(** A run that ends: the sample generator asks for 13 users and its first 13
    ids are distinct, so the set holds [Sample.drawn] and the cohort is a
    listing of it, in whatever order sets are listed. *)
Lemma generate_active_users_sample_set `{SetOrder} :
  exists cohort w',
    UAS.generate_active_users 13 Sample.session = (Ok cohort, w') /\
    active_users w' = Sample.drawn /\
    cohort = list_of_set Sample.drawn /\
    Permutation cohort Sample.drawn.
Proof.
  exists (list_of_set Sample.drawn).
  eexists. split; [|split; [|split]].
  - rewrite generate_active_users_run. cbv zeta.
    change (count_at (generator Sample.session)) with 13.
    set (r := UAS.fill_active_users 13 13 _).
    vm_compute in r. subst r. cbv beta iota. reflexivity.
  - reflexivity.
  - reflexivity.
  - apply list_of_set_perm.
Qed.

(** Where the table holds the elements of the list, the listing is the
    slot order of the table. *)
Lemma hash_order_listing (s : list nat) :
  same_elements (PySet.listing s) s = true -> list_of_set s = PySet.listing s.
Proof.
  intros E. cbn [list_of_set hash_order]. unfold hash_listing. rewrite E. reflexivity.
Qed.

(** The table of the interpreter after the thirteen insertions: 32 slots (the
    table of 8 is rebuilt at the fifth element), each id at the slot of its
    value but 32, 38, 39, 45 and 46, which are at slots 0, 6, 7, 13 and 14. *)
Example table_sample :
  PySet.table (fold_left PySet.set_add_entry Sample.drawn PySet.empty_set)
  = [Some 32; None; None; Some 3; None; None; Some 38; Some 39;
     None; None; Some 10; Some 11; None; Some 45; Some 46; None;
     None; Some 17; Some 18; None; None; None; None; None;
     Some 24; Some 25; None; None; None; None; None; Some 31].
Proof. reflexivity. Qed.

Example listing_sample : PySet.listing Sample.drawn = 32 :: Sample.others.
Proof. reflexivity. Qed.

(** The sets [{1, ..., n}], [n <= 50], built in increasing order: the table
    holds their elements, through its two rebuilds. *)
Example listing_holds_the_ids :
  forallb (fun n => same_elements (PySet.listing (seq 1 n)) (seq 1 n)) (seq 0 51) = true.
Proof. vm_compute. reflexivity. Qed.

(** In the order of the interpreter the sample cohort starts with user 32. *)
Example generate_active_users_sample :
  fst (UAS.generate_active_users 13 Sample.session) = Ok (32 :: Sample.others).
Proof. reflexivity. Qed.

(** ** The simulator writes one history entry *)

Lemma choices_same_files {A : Type} (population : list A)
  (weights : json_read (list Q)) (w w' : world) (r : result (list A)) :
  random.choices population weights w = (r, w') -> same_files w w'.
Proof.
  unfold random.choices, bind, lift, raise, ret, random.random.
  destruct weights as [ws|data].
  - destruct (negb _); [intros E; inversion E; split; reflexivity|].
    destruct (list_last _); try (intros E; inversion E; split; reflexivity).
    destruct (Qle_bool _ _); [intros E; inversion E; split; reflexivity|].
    cbn [random.next_raw]. destruct (random.bisect _ _ _ _);
      try (intros E; inversion E; split; reflexivity).
    destruct (list_index _ _); intros E; inversion E; split; reflexivity.
  - destruct (negb _); [intros E; inversion E; split; reflexivity|].
    destruct (list_last _); intros E; inversion E; split; reflexivity.
Qed.

Lemma MFC_get_next_song_same_files (song_id : string) (w w' : world)
  (r : result string) :
  MFC.get_next_song song_id w = (r, w') -> same_files w w'.
Proof.
  unfold MFC.get_next_song, MFC.get_next_songs, bind, query, lift.
  destruct (DataExtractor.get_most_played_songs w song_id) as [songs|e|];
    try (intros E; inversion E; split; reflexivity).
  cbv zeta.
  destruct (DataExtractor.get_songs_probabilities_data w _) as [probabilities|e|];
    try (intros E; inversion E; split; reflexivity).
  destruct (random.choices _ probabilities w) as [[picked|e|] w1] eqn:Ec;
    apply choices_same_files in Ec.
  - destruct (list_index picked 0); intros E; inversion E; subst; exact Ec.
  - intros E; inversion E; subst; exact Ec.
  - intros E; inversion E; subst; exact Ec.
Qed.

Lemma str_injective (n m : nat) : str n = str m -> n = m.
Proof.
  unfold str. intros E.
  apply (f_equal NilEmpty.uint_of_string) in E. rewrite !NilEmpty.usu in E.
  inversion E as [E']. apply (f_equal Nat.of_uint) in E'.
  rewrite !DecimalNat.Unsigned.of_to in E'. exact E'.
Qed.

Lemma format_user_id_injective (n m : nat) :
  DataSaver.format_user_id n = DataSaver.format_user_id m -> n = m.
Proof.
  unfold DataSaver.format_user_id. simpl. intros E. inversion E.
  apply str_injective. assumption.
Qed.

Lemma write_json_other (data : dict entry) (user_id song_id k : string)
  (value : list string) :
  k <> user_id ->
  dict_get k (write_json data user_id song_id value) = dict_get k data.
Proof. intros H. unfold write_json. apply dict_get_set_other. exact H. Qed.

Lemma write_json_written (data : dict entry) (user_id song_id : string)
  (value : list string) :
  exists user history,
    dict_get user_id (write_json data user_id song_id value) = Some user /\
    played_songs user = Some history /\
    dict_get song_id history = Some value /\
    forall song, song <> song_id ->
      dict_get song history
      = match dict_get user_id data with
        | Some old => match played_songs old with
                      | Some h => dict_get song h
                      | None => None
                      end
        | None => None
        end.
Proof.
  unfold write_json. eexists. eexists.
  split; [apply dict_get_set_same|]. split; [reflexivity|].
  split; [apply dict_get_set_same|].
  intros song Hne. rewrite (dict_get_set_other song_id song); [|exact Hne].
  destruct (dict_get user_id data) as [old|]; [|reflexivity].
  destruct (played_songs old); reflexivity.
Qed.

(** C2.  When the cohort drawn is [user :: rest] and the MFC pick returns
    [next], one call of [active_users_behaviour] writes [[next]] as the history
    of [song_id] for [user] alone, the first of the cohort; the record of
    every other user, each other member of the cohort included, is what it
    was; and the value returned is the size of the whole cohort. *)
Theorem C2_first_user_only `{SetOrder} (song_id : string) (fuel : nat)
  (w w1 w2 : world) (user : nat) (rest : list nat) (next : string) :
  UAS.generate_active_users fuel w = (Ok (user :: rest), w1) ->
  MFC.get_next_song song_id w1 = (Ok next, w2) ->
  exists w3,
    UAS.active_users_behaviour song_id fuel w
      = (Ok (Some (length (user :: rest))), w3) /\
    10 <= length (user :: rest) <= 24 /\
    mrs_users w3
      = write_json (mrs_users w) (DataSaver.format_user_id user) song_id [next] /\
    (exists record history,
        dict_get (DataSaver.format_user_id user) (mrs_users w3) = Some record /\
        played_songs record = Some history /\
        dict_get song_id history = Some [next]) /\
    (forall k, k <> DataSaver.format_user_id user ->
               dict_get k (mrs_users w3) = dict_get k (mrs_users w)) /\
    (forall other, In other rest ->
               dict_get (DataSaver.format_user_id other) (mrs_users w3)
               = dict_get (DataSaver.format_user_id other) (mrs_users w)).
Proof.
  intros Hgen Hpick.
  pose proof (generate_active_users_spec fuel w) as S. rewrite Hgen in S.
  destruct S as [[Hnd _] [Hlen [_ [Hu _]]]].
  pose proof (count_at_range (generator w)) as Hcount.
  destruct (MFC_get_next_song_same_files song_id w1 w2 _ Hpick) as [Hu2 _].
  set (uid := DataSaver.format_user_id user).
  exists (with_users w2 (write_json (mrs_users w2) uid song_id [next])).
  assert (Husers : mrs_users w2 = mrs_users w) by congruence.
  split; [|split; [lia|split; [|split; [|split]]]].
  - unfold UAS.active_users_behaviour, bind. rewrite Hgen. cbv beta iota.
    rewrite Hpick. reflexivity.
  - simpl. rewrite Husers. reflexivity.
  - simpl. rewrite Husers.
    destruct (write_json_written (mrs_users w) uid song_id [next])
      as [record [history [E1 [E2 [E3 _]]]]].
    exists record, history. tauto.
  - intros k Hk. simpl. rewrite Husers. apply write_json_other. exact Hk.
  - intros other Hin. simpl. rewrite Husers. apply write_json_other.
    intros E. apply format_user_id_injective in E. subst other.
    inversion Hnd. contradiction.
Qed.

Lemma C2_first_user_only_witness :
  exists user rest w3,
    Permutation (user :: rest) Sample.drawn /\
    UAS.active_users_behaviour "song_id_1" 13 Sample.session
      = (Ok (Some (length (user :: rest))), w3) /\
    10 <= length (user :: rest) <= 24 /\
    mrs_users w3
      = write_json Sample.users (DataSaver.format_user_id user) "song_id_1" ["song_id_3"] /\
    (exists record history,
        dict_get (DataSaver.format_user_id user) (mrs_users w3) = Some record /\
        played_songs record = Some history /\
        dict_get "song_id_1" history = Some ["song_id_3"]) /\
    (forall k, k <> DataSaver.format_user_id user ->
               dict_get k (mrs_users w3) = dict_get k Sample.users) /\
    (forall other, In other rest ->
               dict_get (DataSaver.format_user_id other) (mrs_users w3)
               = dict_get (DataSaver.format_user_id other) Sample.users).
Proof.
  exists 32, Sample.others.
  destruct (C2_first_user_only "song_id_1" 13 Sample.session
              (snd (UAS.generate_active_users 13 Sample.session))
              (snd (MFC.get_next_song "song_id_1"
                      (snd (UAS.generate_active_users 13 Sample.session))))
              32 Sample.others "song_id_3")
    as [w3 W].
  - vm_compute. reflexivity.
  - vm_compute. reflexivity.
  - exists w3. split; [|exact W].
    apply same_elements_perm. reflexivity.
Defined.

(* ================================================================== *)
(** * Session aggregator                                               *)
(* ================================================================== *)

(** ** C8: the [user_count] field *)

(** C8 (as the code has it).  Whenever [stats] returns, its [user_count] is
    the constant 50, whatever the Users table holds. *)
Theorem C8_user_count_is_50 `{SetOrder} (song_id : string) (fuel : nat)
  (w w' : world) (s : MFCInterface.Stats) :
  MFCInterface.stats song_id fuel w = (Ok s, w') ->
  MFCInterface.user_count s = 50.
Proof.
  unfold MFCInterface.stats, bind, ret. intros E.
  repeat match type of E with
         | context [match ?m with pair _ _ => _ end] =>
             let r := fresh "r" in let w := fresh "w" in
             destruct m as [r w]; destruct r; try discriminate E
         end.
  inversion E. reflexivity.
Qed.

Lemma C8_user_count_is_50_witness :
  exists s w',
    MFCInterface.stats "song_id_1" 100 Sample.session = (Ok s, w') /\
    MFCInterface.user_count s = 50.
Proof.
  destruct (MFCInterface.stats "song_id_1" 100 Sample.session) as [r w'] eqn:E.
  destruct r as [s|e|]; [| vm_compute in E; discriminate E | vm_compute in E; discriminate E].
  exists s, w'. split; [reflexivity|].
  exact (C8_user_count_is_50 "song_id_1" 100 Sample.session w' s E).
Defined.

(** C8, as stated, fails: the sample Users table has 5 users (6 once the
    simulator has written), and [stats] reports 50. *)
Lemma C8_user_count_differs :
  exists s w',
    MFCInterface.stats "song_id_1" 100 Sample.session = (Ok s, w') /\
    DataExtractor.get_user_count Sample.session = Ok 5 /\
    DataExtractor.get_user_count w' = Ok 6 /\
    Ok (MFCInterface.user_count s) <> DataExtractor.get_user_count Sample.session /\
    Ok (MFCInterface.user_count s) <> DataExtractor.get_user_count w'.
Proof.
  eexists. eexists. split; [vm_compute; reflexivity|].
  split; [reflexivity|]. split; [reflexivity|].
  split; intro E; vm_compute in E; discriminate E.
Qed.

(* ================================================================== *)
(** * History writer                                                   *)
(* ================================================================== *)

(** ** Assignment into a dictionary *)

Lemma dict_get_some_in {V : Type} (k : string) (v : V) (d : dict V) :
  dict_get k d = Some v -> In (k, v) d.
Proof.
  induction d as [|[k' v'] d IH]; simpl; [discriminate|].
  destruct (String.eqb k' k) eqn:E.
  - apply String.eqb_eq in E. intros H. inversion H; subst. left. reflexivity.
  - intros H. right. apply IH. exact H.
Qed.

Lemma dict_get_none_not_in {V : Type} (k : string) (d : dict V) :
  dict_get k d = None -> ~ In k (keys d).
Proof.
  induction d as [|[k' v'] d IH]; simpl; intros H; [tauto|].
  destruct (String.eqb k' k) eqn:E; [discriminate|].
  apply String.eqb_neq in E. intros [F|F]; [congruence | exact (IH H F)].
Qed.

Lemma dict_set_keys_present {V : Type} (k : string) (v old : V) (d : dict V) :
  dict_get k d = Some old -> keys (dict_set k v d) = keys d.
Proof.
  unfold keys. induction d as [|[k' v'] d IH]; simpl; [discriminate|].
  destruct (String.eqb k' k) eqn:E; intros H; simpl; [reflexivity|].
  rewrite (IH H). reflexivity.
Qed.

Lemma dict_set_keys_absent {V : Type} (k : string) (v : V) (d : dict V) :
  dict_get k d = None -> keys (dict_set k v d) = keys d ++ [k].
Proof.
  intros H. rewrite (dict_set_fresh k v d (dict_get_none_not_in k d H)).
  unfold keys. rewrite map_app. reflexivity.
Qed.

Lemma dict_set_keys_unique {V : Type} (k : string) (v : V) (d : dict V) :
  keys_unique d -> keys_unique (dict_set k v d).
Proof.
  unfold keys_unique. intros H. destruct (dict_get k d) as [old|] eqn:E.
  - rewrite (dict_set_keys_present k v old d E). exact H.
  - rewrite (dict_set_keys_absent k v d E).
    apply NoDup_app; [exact H | apply NoDup_cons; [intros [] | apply NoDup_nil] |].
    intros x Hx [Hx'|[]]. subst x. exact (dict_get_none_not_in k d E Hx).
Qed.

Lemma dict_set_in {V : Type} (k k' : string) (v v' : V) (d : dict V) :
  In (k', v') (dict_set k v d) -> (k' = k /\ v' = v) \/ In (k', v') d.
Proof.
  induction d as [|[k0 v0] d IH]; simpl.
  - intros [H|[]]. inversion H. left. split; reflexivity.
  - destruct (String.eqb k0 k) eqn:E; simpl.
    + apply String.eqb_eq in E. subst k0. intros [H|H].
      * inversion H. left. split; reflexivity.
      * right. right. exact H.
    + intros [H|H]; [right; left; exact H|].
      destruct (IH H) as [H'|H']; [left; exact H' | right; right; exact H'].
Qed.

Lemma dict_set_twice {V : Type} (k : string) (v1 v2 : V) (d : dict V) :
  dict_set k v2 (dict_set k v1 d) = dict_set k v2 d.
Proof.
  induction d as [|[k0 v0] d IH]; simpl.
  - rewrite String.eqb_refl. reflexivity.
  - destruct (String.eqb k0 k) eqn:E; simpl; rewrite E; [reflexivity|].
    rewrite IH. reflexivity.
Qed.

Lemma dict_set_length {V : Type} (k : string) (v : V) (d : dict V) :
  length (dict_set k v d)
  = length d + match dict_get k d with Some _ => 0 | None => 1 end.
Proof.
  induction d as [|[k0 v0] d IH]; simpl; [reflexivity|].
  destruct (String.eqb k0 k); simpl; [lia | rewrite IH; lia].
Qed.

(** Counting the entries that satisfy [f], before and after an assignment. *)
Lemma dict_set_count {V : Type} (f : string * V -> bool) (k : string) (v : V)
  (d : dict V) :
  length (filter f (dict_set k v d))
  + match dict_get k d with
    | Some old => bool_count (f (k, old))
    | None => 0
    end
  = length (filter f d) + bool_count (f (k, v)).
Proof.
  induction d as [|[k0 v0] d IH]; simpl.
  - destruct (f (k, v)); simpl; lia.
  - destruct (String.eqb k0 k) eqn:E.
    + apply String.eqb_eq in E. subst k0. simpl.
      destruct (f (k, v)); destruct (f (k, v0)); simpl; lia.
    + simpl. destruct (f (k0, v0)); simpl; lia.
Qed.

(** ** [set_new_song] *)

Lemma set_new_song_run (user_id song_id next : string) (w : world) :
  DataSaver.set_new_song user_id song_id next w
  = (Ok "new song saved to json file",
     with_users w (write_json (mrs_users w) user_id song_id [next])).
Proof. reflexivity. Qed.

Lemma write_json_first_next (data : dict entry) (user_id song_id next : string) :
  exists user,
    dict_get user_id (write_json data user_id song_id [next]) = Some user /\
    first_next song_id user = Some next.
Proof.
  destruct (write_json_written data user_id song_id [next])
    as [user [history [E1 [E2 [E3 _]]]]].
  exists user. split; [exact E1|]. unfold first_next. rewrite E2, E3. reflexivity.
Qed.

(** Write, then read.  After [set_new_song(user, song, next)] the history of
    [user] for [song] is the one-element list [[next]], so the first recorded
    next-song of [user] after [song] is [next]; the user's whole history for
    every other song, the user's other members, every other user, the Config
    table, the random generator and the set of active users are what they
    were. *)
Theorem set_new_song_round_trip (user_id song_id next : string) (w : world) :
  exists w',
    DataSaver.set_new_song user_id song_id next w
      = (Ok "new song saved to json file", w') /\
    (exists user history,
        dict_get user_id (mrs_users w') = Some user /\
        played_songs user = Some history /\
        dict_get song_id history = Some [next] /\
        first_next song_id user = Some next /\
        (forall song, song <> song_id ->
           dict_get song history
           = match dict_get user_id (mrs_users w) with
             | Some old => match played_songs old with
                           | Some h => dict_get song h
                           | None => None
                           end
             | None => None
             end) /\
        (forall song, song <> song_id ->
           first_next song user
           = match dict_get user_id (mrs_users w) with
             | Some old => first_next song old
             | None => None
             end) /\
        forall old, dict_get user_id (mrs_users w) = Some old ->
                    BPM user = BPM old /\ genre user = genre old) /\
    (forall k, k <> user_id -> dict_get k (mrs_users w') = dict_get k (mrs_users w)) /\
    mrs_config w' = mrs_config w /\
    generator w' = generator w /\
    active_users w' = active_users w.
Proof.
  exists (with_users w (write_json (mrs_users w) user_id song_id [next])).
  split; [reflexivity|]. split; [|split; [|repeat split]].
  - cbn [mrs_users with_users]. unfold write_json.
    eexists. eexists. split; [apply dict_get_set_same|].
    split; [reflexivity|]. split; [apply dict_get_set_same|].
    split; [|split; [|split]].
    + unfold first_next. cbn [played_songs]. rewrite dict_get_set_same. reflexivity.
    + intros song Hne.
      rewrite (dict_get_set_other song_id song) by exact Hne.
      destruct (dict_get user_id (mrs_users w)) as [old|]; [|reflexivity].
      destruct (played_songs old); reflexivity.
    + intros song Hne. unfold first_next at 1. cbn [played_songs].
      rewrite (dict_get_set_other song_id song) by exact Hne.
      destruct (dict_get user_id (mrs_users w)) as [old|]; [|reflexivity].
      unfold first_next. destruct (played_songs old); reflexivity.
    + intros old Hold. rewrite Hold. split; reflexivity.
  - intros k Hk. cbn [mrs_users with_users]. apply write_json_other. exact Hk.
Qed.

Lemma write_json_twice (data : dict entry) (user_id song_id : string)
  (v1 v2 : list string) :
  write_json (write_json data user_id song_id v1) user_id song_id v2
  = write_json data user_id song_id v2.
Proof.
  unfold write_json. rewrite dict_get_set_same. cbn [played_songs BPM genre].
  rewrite !dict_set_twice. reflexivity.
Qed.

(** The last write wins: writing [first] and then [second] for the same user
    and song leaves the store that writing [second] alone leaves; writing
    the same choice twice is writing it once. *)
Theorem set_new_song_last_write_wins (user_id song_id first second : string)
  (w : world) :
  snd (DataSaver.set_new_song user_id song_id second
         (snd (DataSaver.set_new_song user_id song_id first w)))
  = snd (DataSaver.set_new_song user_id song_id second w).
Proof.
  rewrite !set_new_song_run. cbn [snd]. unfold with_users.
  cbn [mrs_users mrs_config generator active_users].
  rewrite write_json_twice. reflexivity.
Qed.

(** The users table stays a users table: keys stay unique, every object keeps
    a [played_songs] whose keys are unique, and no history is empty. *)
Theorem set_new_song_keeps_users_table (user_id song_id next : string) (w : world) :
  users_table (mrs_users w) ->
  users_table (mrs_users (snd (DataSaver.set_new_song user_id song_id next w))).
Proof.
  intros [Hu Hwf]. rewrite set_new_song_run. cbn [snd mrs_users with_users].
  unfold write_json. split; [apply dict_set_keys_unique; exact Hu|].
  intros k user Hin. apply dict_set_in in Hin. destruct Hin as [[Hk He]|Hin];
    [|exact (Hwf k user Hin)].
  subst k user. eexists. split; [reflexivity|].
  assert (Hold : keys_unique
                   (match played_songs
                            (match dict_get user_id (mrs_users w) with
                             | Some e => e
                             | None => empty_object
                             end) with
                    | Some ps => ps
                    | None => []
                    end) /\
                 forall song nexts,
                   In (song, nexts)
                      (match played_songs
                               (match dict_get user_id (mrs_users w) with
                                | Some e => e
                                | None => empty_object
                                end) with
                       | Some ps => ps
                       | None => []
                       end) -> nexts <> []).
  { destruct (dict_get user_id (mrs_users w)) as [old|] eqn:E.
    - destruct (Hwf user_id old (dict_get_some_in _ _ _ E)) as [h [Eh [Hk Hne]]].
      rewrite Eh. split; assumption.
    - cbn [empty_object played_songs]. split; [constructor | intros ? ? []]. }
  destruct Hold as [Hk Hne]. split; [apply dict_set_keys_unique; exact Hk|].
  intros song nexts Hin. apply dict_set_in in Hin.
  destruct Hin as [[_ Hn]|Hin]; [subst nexts; discriminate | exact (Hne song nexts Hin)].
Qed.

Lemma set_new_song_keeps_users_table_witness :
  users_table
    (mrs_users (snd (DataSaver.set_new_song "user_id_7" "song_id_1" "song_id_2"
                       Sample.session))).
Proof.
  exact (set_new_song_keeps_users_table "user_id_7" "song_id_1" "song_id_2"
           Sample.session sample_users_table).
Defined.

(** No user is removed or moved: the keys keep their order, a user that was
    not in the table is added last, and the user count grows by one exactly
    then. *)
Theorem set_new_song_user_count (user_id song_id next : string) (w : world) :
  let w' := snd (DataSaver.set_new_song user_id song_id next w) in
  match dict_get user_id (mrs_users w) with
  | Some _ =>
      keys (mrs_users w') = keys (mrs_users w) /\
      DataExtractor.get_user_count w' = DataExtractor.get_user_count w
  | None =>
      keys (mrs_users w') = keys (mrs_users w) ++ [user_id] /\
      DataExtractor.get_user_count w' = Ok (S (length (mrs_users w)))
  end.
Proof.
  cbv zeta. rewrite set_new_song_run. cbn [snd].
  unfold DataExtractor.get_user_count. rewrite !read_json_no_key. cbn [rbind].
  cbn [mrs_users with_users]. unfold write_json.
  destruct (dict_get user_id (mrs_users w)) as [old|] eqn:E.
  - split; [eapply dict_set_keys_present; exact E|].
    rewrite dict_set_length, E. f_equal. lia.
  - split; [apply dict_set_keys_absent; exact E|].
    rewrite dict_set_length, E. f_equal. lia.
Qed.

Lemma write_json_written_object (data : dict entry) (user_id song_id : string)
  (value : list string) :
  write_json data user_id song_id value
  = dict_set user_id (written_object data user_id song_id value) data.
Proof. reflexivity. Qed.

Lemma chose_written (data : dict entry) (user_id song_id next x : string) :
  chose song_id x (user_id, written_object data user_id song_id [next])
  = String.eqb next x.
Proof.
  unfold chose, first_next, written_object. cbn [snd played_songs].
  rewrite dict_get_set_same. reflexivity.
Qed.

Lemma chose_written_other (data : dict entry) (user_id song_id song x : string)
  (value : list string) :
  song <> song_id ->
  chose song x (user_id, written_object data user_id song_id value)
  = match dict_get user_id data with
    | Some old => chose song x (user_id, old)
    | None => false
    end.
Proof.
  intros Hne. unfold chose, first_next, written_object. cbn [snd played_songs].
  rewrite (dict_get_set_other song_id song) by exact Hne.
  destruct (dict_get user_id data) as [old|]; [|reflexivity].
  destruct (played_songs old); reflexivity.
Qed.

(** The feedback into the ranking.  One write moves one vote: for every
    candidate [x], the votes after the write plus the vote the user had given
    [x] before equal the votes before plus one if [x] is the song written.
    So the written song never loses a vote and no other song gains one; the
    votes after any other song do not change. *)
Theorem set_new_song_moves_one_vote (user_id song_id next : string) (w : world) :
  let users := mrs_users w in
  let users' := mrs_users (snd (DataSaver.set_new_song user_id song_id next w)) in
  (forall x,
      votes users' song_id x
      + bool_count (match earlier_choice users user_id song_id with
                    | Some old => String.eqb old x
                    | None => false
                    end)
      = votes users song_id x + bool_count (String.eqb next x)) /\
  votes users song_id next <= votes users' song_id next /\
  (forall x, x <> next -> votes users' song_id x <= votes users song_id x) /\
  (forall song x, song <> song_id -> votes users' song x = votes users song x).
Proof.
  cbv zeta. rewrite set_new_song_run. cbn [snd mrs_users with_users].
  rewrite write_json_written_object.
  assert (Heq : forall x,
             votes (dict_set user_id
                      (written_object (mrs_users w) user_id song_id [next])
                      (mrs_users w)) song_id x
             + bool_count (match earlier_choice (mrs_users w) user_id song_id with
                           | Some old => String.eqb old x
                           | None => false
                           end)
             = votes (mrs_users w) song_id x + bool_count (String.eqb next x)).
  { intros x. unfold votes, earlier_choice.
    pose proof (dict_set_count (chose song_id x) user_id
                  (written_object (mrs_users w) user_id song_id [next])
                  (mrs_users w)) as Hc.
    rewrite chose_written in Hc.
    destruct (dict_get user_id (mrs_users w)) as [old|]; [|exact Hc].
    unfold chose in Hc. cbn [snd] in Hc.
    destruct (first_next song_id old); exact Hc. }
  split; [exact Heq|]. split; [|split].
  - specialize (Heq next). rewrite String.eqb_refl in Heq.
    destruct (match earlier_choice (mrs_users w) user_id song_id with
              | Some old => String.eqb old next
              | None => false
              end); simpl in Heq; lia.
  - intros x Hx. specialize (Heq x).
    assert (E : String.eqb next x = false) by (apply String.eqb_neq; congruence).
    rewrite E in Heq. simpl in Heq. lia.
  - intros song x Hne. unfold votes.
    pose proof (dict_set_count (chose song x) user_id
                  (written_object (mrs_users w) user_id song_id [next])
                  (mrs_users w)) as Hc.
    rewrite (chose_written_other _ _ _ _ _ _ Hne) in Hc.
    destruct (dict_get user_id (mrs_users w)) as [old|]; simpl in Hc; lia.
Qed.

Lemma set_new_song_round_trip_witness :
  exists w' user history,
    DataSaver.set_new_song "user_id_1" "song_id_1" "song_id_5" Sample.session
      = (Ok "new song saved to json file", w') /\
    dict_get "user_id_1" (mrs_users w') = Some user /\
    played_songs user = Some history /\
    dict_get "song_id_1" history = Some ["song_id_5"] /\
    first_next "song_id_1" user = Some "song_id_5" /\
    dict_get "song_id_9" history = Some ["song_id_3"] /\
    dict_get "user_id_2" (mrs_users w') = dict_get "user_id_2" Sample.users.
Proof.
  destruct (set_new_song_round_trip "user_id_1" "song_id_1" "song_id_5" Sample.session)
    as [w' [Hrun [[user [history [Hget [Hplayed [Hsong [Hfirst [Hrest _]]]]]]]
                    [Hothers _]]]].
  exists w', user, history.
  split; [exact Hrun|]. split; [exact Hget|]. split; [exact Hplayed|].
  split; [exact Hsong|]. split; [exact Hfirst|]. split.
  - rewrite (Hrest "song_id_9") by discriminate. reflexivity.
  - apply Hothers. discriminate.
Defined.

Lemma set_new_song_moves_one_vote_witness :
  votes Sample.users "song_id_1" "song_id_5"
  <= votes (mrs_users (snd (DataSaver.set_new_song "user_id_2" "song_id_1" "song_id_5"
                              Sample.session))) "song_id_1" "song_id_5" /\
  votes (mrs_users (snd (DataSaver.set_new_song "user_id_2" "song_id_1" "song_id_5"
                           Sample.session))) "song_id_1" "song_id_3"
  <= votes Sample.users "song_id_1" "song_id_3" /\
  votes (mrs_users (snd (DataSaver.set_new_song "user_id_2" "song_id_1" "song_id_5"
                           Sample.session))) "song_id_9" "song_id_3"
  = votes Sample.users "song_id_9" "song_id_3".
Proof.
  destruct (set_new_song_moves_one_vote "user_id_2" "song_id_1" "song_id_5"
              Sample.session) as [_ [Hup [Hdown Hother]]].
  split; [exact Hup|]. split.
  - apply Hdown. discriminate.
  - apply Hother. discriminate.
Defined.

(* ================================================================== *)
(** * Data accessor: errors and edges                                  *)
(* ================================================================== *)

(** ** A loop stops at the first iteration that raises *)

Lemma for_each_app {A S : Type} (body : S -> A -> result S) (l1 l2 : list A) (s : S) :
  for_each body (l1 ++ l2) s = (s' <~ for_each body l1 s ;; for_each body l2 s').
Proof.
  revert s. induction l1 as [|x l1 IH]; intros s; [reflexivity|].
  cbn [app for_each]. destruct (body s x); cbn [rbind]; [apply IH | reflexivity..].
Qed.

(** ** [get_mfc_users_data] returns exactly over a dense table *)

Lemma tally_body_raises (song_id a b : string) (counts : nat * nat) (k : string)
  (user : entry) :
  first_next song_id user = None ->
  tally_body song_id a b counts (k, user) = Raise KeyError \/
  tally_body song_id a b counts (k, user) = Raise IndexError.
Proof.
  unfold first_next, tally_body. destruct counts as [c1 c2].
  destruct (played_songs user) as [history|] eqn:Eh.
  - rewrite (member_some played_songs user history Eh). cbn [rbind].
    unfold getitem. destruct (dict_get song_id history) as [[|n r]|];
      [intros _; right; reflexivity | discriminate | intros _; left; reflexivity].
  - intros _. left. unfold member. rewrite Eh. reflexivity.
Qed.

Lemma tally_body_returns (song_id a b : string) (counts : nat * nat) (k : string)
  (user : entry) (next : string) :
  first_next song_id user = Some next ->
  exists counts', tally_body song_id a b counts (k, user) = Ok counts'.
Proof.
  intros En. destruct (first_next_some song_id user next En) as [history [rest [Eh Eg]]].
  unfold tally_body. destruct counts as [c1 c2].
  rewrite (member_some played_songs user history Eh). cbn [rbind].
  rewrite (getitem_some history song_id _ Eg). cbn [rbind].
  change (list_index (next :: rest) 0) with (Ok next). cbn [rbind].
  destruct (String.eqb next a); [eexists; reflexivity|].
  destruct (String.eqb next b); eexists; reflexivity.
Qed.

Lemma tally_loop_raises (song_id a b : string) (users : dict entry) :
  (exists k user, In (k, user) users /\ first_next song_id user = None) ->
  forall counts,
    for_each (tally_body song_id a b) users counts = Raise KeyError \/
    for_each (tally_body song_id a b) users counts = Raise IndexError.
Proof.
  induction users as [|[k0 u0] users IH]; intros [k [user [Hin Hnone]]] counts;
    [contradiction|].
  cbn [for_each]. destruct (first_next song_id u0) as [next|] eqn:E0.
  - destruct (tally_body_returns song_id a b counts k0 u0 next E0) as [counts' Ec].
    rewrite Ec. cbn [rbind]. apply IH. exists k, user. split; [|exact Hnone].
    destruct Hin as [Heq|Hin]; [|exact Hin]. inversion Heq; subst. congruence.
  - destruct (tally_body_raises song_id a b counts k0 u0 E0) as [Er|Er];
      rewrite Er; [left | right]; reflexivity.
Qed.

Lemma get_mfc_users_data_loop (w : world) (song_id a b : string) :
  DataExtractor.get_mfc_users_data w song_id a b
  = (counts <~ for_each (tally_body song_id a b) (mrs_users w) (0, 0) ;;
     Ok (DataExtractor.mkTally (a, fst counts) (b, snd counts))).
Proof. reflexivity. Qed.

(** [get_mfc_users_data] returns a tally exactly when every user has a
    recorded, non-empty history for the song; as soon as one user has none,
    the call raises [KeyError] (no history for the song) or [IndexError] (an
    empty one), whatever the candidates. *)
Theorem get_mfc_users_data_returns_iff (w : world) (song_id a b : string) :
  ((exists tally, DataExtractor.get_mfc_users_data w song_id a b = Ok tally)
   <-> all_played (mrs_users w) song_id) /\
  ((exists k user, In (k, user) (mrs_users w) /\ first_next song_id user = None) ->
   DataExtractor.get_mfc_users_data w song_id a b = Raise KeyError \/
   DataExtractor.get_mfc_users_data w song_id a b = Raise IndexError).
Proof.
  assert (Hraise : (exists k user, In (k, user) (mrs_users w) /\
                                   first_next song_id user = None) ->
                   DataExtractor.get_mfc_users_data w song_id a b = Raise KeyError \/
                   DataExtractor.get_mfc_users_data w song_id a b = Raise IndexError).
  { intros Hbad. rewrite get_mfc_users_data_loop.
    destruct (tally_loop_raises song_id a b (mrs_users w) Hbad (0, 0)) as [E|E];
      rewrite E; [left | right]; reflexivity. }
  split; [|exact Hraise]. split.
  - intros [tally Ht] k user Hin Hnone.
    destruct (Hraise (ex_intro _ k (ex_intro _ user (conj Hin Hnone)))) as [E|E];
      rewrite E in Ht; discriminate Ht.
  - intros Hall. eexists. rewrite get_mfc_users_data_loop.
    change (for_each (tally_body song_id a b) (mrs_users w) (0, 0))
      with (for_each
              (fun (counts : nat * nat) (kv : string * entry) =>
                 let (song_1_count, song_2_count) := counts in
                 let (k, v) := kv in
                 history <~ member played_songs v ;;
                 nexts <~ getitem history song_id ;;
                 first' <~ list_index nexts 0 ;;
                 if String.eqb first' a then Ok (song_1_count + 1, song_2_count)
                 else
                   history' <~ member played_songs v ;;
                   nexts' <~ getitem history' song_id ;;
                   first'' <~ list_index nexts' 0 ;;
                   if String.eqb first'' b then Ok (song_1_count, song_2_count + 1)
                   else Ok (song_1_count, song_2_count))
              (mrs_users w) (0, 0)).
    rewrite (tally_loop song_id a b (mrs_users w) Hall 0 0). reflexivity.
Qed.

Lemma get_mfc_users_data_returns_iff_witness :
  (exists tally,
      DataExtractor.get_mfc_users_data Sample.session "song_id_1" "song_id_3" "song_id_2"
      = Ok tally) /\
  (DataExtractor.get_mfc_users_data Sample.session "song_id_9" "song_id_3" "song_id_2"
   = Raise KeyError \/
   DataExtractor.get_mfc_users_data Sample.session "song_id_9" "song_id_3" "song_id_2"
   = Raise IndexError).
Proof.
  split.
  - apply (get_mfc_users_data_returns_iff Sample.session "song_id_1" "song_id_3"
             "song_id_2"). exact sample_all_played.
  - apply (get_mfc_users_data_returns_iff Sample.session "song_id_9" "song_id_3"
             "song_id_2").
    exists "user_id_2", (Sample.listener [("song_id_1", ["song_id_3"])]).
    split; [simpl; tauto | reflexivity].
Defined.

(** ** [get_similar_bpm_songs] over a file without tempo data *)

(** The songs table is read from the users file.  When no object of that file
    has a [BPM] member, as in a file of users, the call raises [KeyError] for
    every song id: at [songs_data[song_id]] when the id is no key of the file,
    at [['BPM']] when it is. *)
Theorem get_similar_bpm_songs_needs_bpm (w : world) (song_id : string) :
  (forall k obj, In (k, obj) (mrs_users w) -> BPM obj = None) ->
  DataExtractor.get_similar_bpm_songs w song_id = Raise KeyError /\
  BPM.get_next_song song_id w = (Raise KeyError, w).
Proof.
  intros Hno.
  assert (E : DataExtractor.get_similar_bpm_songs w song_id = Raise KeyError).
  { unfold DataExtractor.get_similar_bpm_songs, DataExtractor.get_songs_data.
    rewrite read_json_no_key. cbn [rbind]. unfold getitem.
    destruct (dict_get song_id (mrs_users w)) as [obj|] eqn:Eg; [|reflexivity].
    cbn [rbind]. unfold member at 1.
    rewrite (Hno song_id obj (dict_get_some_in _ _ _ Eg)). reflexivity. }
  split; [exact E|].
  unfold BPM.get_next_song, bind, query. rewrite E. reflexivity.
Qed.

Lemma get_similar_bpm_songs_needs_bpm_witness :
  DataExtractor.get_similar_bpm_songs Sample.session "song_id_1" = Raise KeyError /\
  BPM.get_next_song "song_id_1" Sample.session = (Raise KeyError, Sample.session).
Proof.
  apply (get_similar_bpm_songs_needs_bpm Sample.session "song_id_1").
  intros k obj Hin. simpl in Hin.
  repeat (destruct Hin as [E|Hin]; [inversion E; reflexivity|]). contradiction.
Defined.

(** ** [get_most_played_songs] returns three distinct songs or nothing *)

Lemma sorted_Counter_keys_distinct (l : list string) :
  NoDup (map fst (sorted (fun item : string * nat => Z.of_nat (snd item)) true
                         (Counter l))).
Proof.
  destruct (ranking_spec l) as [_ [Hperm _]].
  eapply Permutation_NoDup; [apply Permutation_sym; exact Hperm|].
  apply first_seen_NoDup.
Qed.

(** Whatever the file holds, a list that [get_most_played_songs] returns has
    exactly three songs, no two the same; so the guard [songs_len > 2] of
    [MFC.get_next_song] always holds and the recommender only ever asks for
    the weights of three candidates. *)
Theorem get_most_played_songs_three_distinct (w : world) (song_id : string)
  (songs : list string) :
  DataExtractor.get_most_played_songs w song_id = Ok songs ->
  length songs = 3 /\ NoDup songs /\
  (2 <? length songs) = true /\
  DataExtractor.get_songs_probabilities_data w (length songs)
  = Ok (read_json (mrs_config w) (Some "songs_probabilities_set3")).
Proof.
  intros H. pose proof (get_most_played_songs_three w song_id songs H) as H3.
  split; [exact H3|]. split; [|split; [rewrite H3; reflexivity
                                     | rewrite H3; reflexivity]].
  unfold DataExtractor.get_most_played_songs in H.
  apply rbind_ok in H. destruct H as [users [_ H]].
  apply rbind_ok in H. destruct H as [next_songs [_ H]]. cbv zeta in H.
  pose proof (sorted_Counter_keys_distinct next_songs) as Hnd.
  unfold most_common, slice_to in H.
  destruct (sorted (fun item : string * nat => Z.of_nat (snd item)) true
                   (Counter next_songs)) as [|m0 [|m1 [|m2 rest]]];
    try discriminate H.
  cbn in H. inversion H; subst.
  change (map fst (m0 :: m1 :: m2 :: rest))
    with (fst m0 :: fst m1 :: fst m2 :: map fst rest) in Hnd.
  eapply NoDup_prefix3. exact Hnd.
Qed.

Lemma get_most_played_songs_three_distinct_witness :
  length ["song_id_3"; "song_id_2"; "song_id_4"] = 3 /\
  NoDup ["song_id_3"; "song_id_2"; "song_id_4"] /\
  (2 <? length ["song_id_3"; "song_id_2"; "song_id_4"]) = true /\
  DataExtractor.get_songs_probabilities_data Sample.session
    (length ["song_id_3"; "song_id_2"; "song_id_4"])
  = Ok (read_json Sample.config (Some "songs_probabilities_set3")).
Proof.
  apply (get_most_played_songs_three_distinct Sample.session "song_id_1").
  reflexivity.
Defined.

(** ** [get_song_count] looks at the first user only *)

(** Over an empty table [get_song_count] raises [KeyError].  Otherwise it is
    the number of songs in the history of the first user of the table, and no
    other user matters: after [set_new_song] it has grown by one exactly when
    the write gave the first user a song that user did not have. *)
Theorem get_song_count_first_user (w : world) :
  match mrs_users w with
  | [] => DataExtractor.get_song_count w = Raise KeyError
  | (first_id, first) :: _ =>
      DataExtractor.get_song_count w
      = match played_songs first with
        | Some history => Ok (length history)
        | None => Raise KeyError
        end /\
      forall history user_id song_id next,
        played_songs first = Some history ->
        DataExtractor.get_song_count
          (snd (DataSaver.set_new_song user_id song_id next w))
        = Ok (length history
              + match dict_get song_id history with
                | Some _ => 0
                | None => if String.eqb first_id user_id then 1 else 0
                end)
  end.
Proof.
  unfold DataExtractor.get_song_count. rewrite read_json_no_key. cbn [rbind].
  destruct (mrs_users w) as [|[first_id first] rest] eqn:Eu; [reflexivity|].
  split.
  - cbv zeta. unfold getitem. cbn [dict_get]. rewrite String.eqb_refl. cbn [rbind].
    unfold member. destruct (played_songs first); reflexivity.
  - intros history user_id song_id next Eh.
    rewrite set_new_song_run. cbn [snd]. rewrite read_json_no_key. cbn [rbind].
    cbn [mrs_users with_users]. rewrite Eu. unfold write_json.
    cbn [dict_get dict_set]. destruct (String.eqb first_id user_id) eqn:E.
    + cbv zeta. unfold getitem. cbn [dict_get]. rewrite String.eqb_refl.
      cbn [rbind]. unfold member. cbn [played_songs rbind]. rewrite Eh.
      rewrite dict_set_length. destruct (dict_get song_id history); reflexivity.
    + cbv zeta. unfold getitem. cbn [dict_get]. rewrite String.eqb_refl.
      cbn [rbind]. unfold member. rewrite Eh. cbn [rbind].
      destruct (dict_get song_id history); f_equal; lia.
Qed.

Lemma get_song_count_first_user_witness :
  DataExtractor.get_song_count Sample.session = Ok 2 /\
  DataExtractor.get_song_count
    (snd (DataSaver.set_new_song "user_id_1" "song_id_7" "song_id_2" Sample.session))
  = Ok 3 /\
  DataExtractor.get_song_count
    (snd (DataSaver.set_new_song "user_id_2" "song_id_7" "song_id_2" Sample.session))
  = Ok 2.
Proof.
  pose proof (get_song_count_first_user Sample.session) as H.
  cbn [mrs_users Sample.session Sample.users] in H. destruct H as [H0 H1].
  split; [exact H0|]. split.
  - exact (H1 _ "user_id_1" "song_id_7" "song_id_2" eq_refl).
  - exact (H1 _ "user_id_2" "song_id_7" "song_id_2" eq_refl).
Defined.

(** ** [get_inner_data] *)

(** ['users'] and ['songs'] give the same table, the content of the users
    file, whatever the key; ['genres'] gives [None]; any other data type
    raises [ValueError]. *)
Lemma get_inner_data_cases (w : world) (key : string) :
  DataExtractor.get_inner_data w "users" key = Ok (Some (mrs_users w)) /\
  DataExtractor.get_inner_data w "songs" key = Ok (Some (mrs_users w)) /\
  DataExtractor.get_inner_data w "genres" key = Ok None /\
  (forall data_type,
      data_type <> "users" -> data_type <> "songs" -> data_type <> "genres" ->
      DataExtractor.get_inner_data w data_type key = Raise ValueError).
Proof.
  repeat split; try reflexivity.
  intros data_type H1 H2 H3. unfold DataExtractor.get_inner_data.
  cbn [existsb]. apply String.eqb_neq in H1, H2, H3.
  rewrite H1, H2, H3. reflexivity.
Qed.

(* ================================================================== *)
(** * Recommenders: what they can return                               *)
(* ================================================================== *)

Lemma get_most_played_songs_run (w : world) (song_id : string) :
  users_table (mrs_users w) ->
  DataExtractor.get_most_played_songs w song_id
  = (let ranked := most_common 3 (Counter (recorded_next (mrs_users w) song_id)) in
     m0 <~ list_index ranked 0 ;;
     m1 <~ list_index ranked 1 ;;
     m2 <~ list_index ranked 2 ;;
     Ok [fst m0; fst m1; fst m2]).
Proof.
  intros [_ Hwf].
  unfold DataExtractor.get_most_played_songs, DataExtractor.get_users_data.
  rewrite read_json_no_key. cbn [rbind].
  rewrite (scan_users song_id (mrs_users w) Hwf []). reflexivity.
Qed.

Lemma most_played_are_candidates (w : world) (song_id : string) (songs : list string) :
  users_table (mrs_users w) ->
  DataExtractor.get_most_played_songs w song_id = Ok songs ->
  forall x, In x songs -> In x (candidates (mrs_users w) song_id).
Proof.
  intros Hwf H x Hin. rewrite (get_most_played_songs_run w song_id Hwf) in H.
  cbv zeta in H. unfold most_common, slice_to in H.
  destruct (ranking_spec (recorded_next (mrs_users w) song_id)) as [_ [Hperm _]].
  destruct (sorted (fun item : string * nat => Z.of_nat (snd item)) true
                   (Counter (recorded_next (mrs_users w) song_id)))
    as [|m0 [|m1 [|m2 rest]]]; try discriminate H.
  cbn in H. inversion H; subst. unfold candidates.
  apply (Permutation_in _ Hperm). simpl in Hin |- *. tauto.
Qed.

(** Over a users table, a song that [MFC.get_next_song] returns is a
    candidate: at least one user has it as first recorded next-song after the
    current song.  The recommender never proposes a song nobody went on to. *)
Theorem MFC_recommends_a_played_song (w w' : world) (song_id x : string) :
  users_table (mrs_users w) ->
  MFC.get_next_song song_id w = (Ok x, w') ->
  In x (candidates (mrs_users w) song_id) /\ 0 < votes (mrs_users w) song_id x.
Proof.
  intros Hwf H.
  assert (Hin : In x (candidates (mrs_users w) song_id)).
  { unfold MFC.get_next_song, MFC.get_next_songs, bind, query in H.
    destruct (DataExtractor.get_most_played_songs w song_id) as [songs| |] eqn:Es;
      try discriminate H.
    cbv zeta in H. rewrite guard_is_identity in H.
    destruct (DataExtractor.get_songs_probabilities_data w (length songs))
      as [probabilities| |]; try discriminate H.
    destruct (random.choices songs probabilities w) as [[picked| |] w1] eqn:Ec;
      try discriminate H.
    destruct (choices_member songs probabilities w w1 picked Ec) as [y [Ep Hy]].
    subst picked. unfold lift in H. cbn in H. inversion H; subst.
    exact (most_played_are_candidates w song_id songs Hwf Es x Hy). }
  split; [exact Hin | apply candidates_voted; exact Hin].
Qed.

Lemma MFC_recommends_a_played_song_witness :
  In "song_id_3" (candidates Sample.users "song_id_1") /\
  0 < votes Sample.users "song_id_1" "song_id_3".
Proof.
  apply (MFC_recommends_a_played_song Sample.session
           (with_generator Sample.session (advance Sample.gen)) "song_id_1" "song_id_3").
  - exact sample_users_table.
  - vm_compute. reflexivity.
Defined.

Lemma get_similar_bpm_songs_run (w : world) (song_id : string) (song : entry)
  (song_bpm : Z) (song_genre : string) :
  songs_table (mrs_users w) ->
  dict_get song_id (mrs_users w) = Some song ->
  BPM song = Some song_bpm -> genre song = Some song_genre ->
  DataExtractor.get_similar_bpm_songs w song_id
  = Ok (map fst (sorted (bpm_gap song_bpm) false
                        (peers (mrs_users w) song_id song_genre))).
Proof.
  intros [Hnd Hwf] Hget Hb Hg.
  assert (Hkeys : keys_unique (sorted (bpm_gap song_bpm) false
                                 (peers (mrs_users w) song_id song_genre))).
  { unfold keys_unique, keys. eapply Permutation_NoDup.
    - apply Permutation_map, Permutation_sym, sorted_perm.
    - apply peers_keys_unique. exact Hnd. }
  unfold DataExtractor.get_similar_bpm_songs, DataExtractor.get_songs_data.
  rewrite read_json_no_key. cbn [rbind].
  unfold getitem. rewrite Hget. cbn [rbind].
  rewrite (member_some BPM song song_bpm Hb), (member_some genre song song_genre Hg).
  cbn [rbind].
  rewrite (similar_loop song_id song_genre (mrs_users w) [] Hwf Hnd).
  cbn [rbind app]. fold (bpm_gap song_bpm).
  rewrite (dict_of_items_unique _ Hkeys). reflexivity.
Qed.

(** Over a songs table, what [BPM.get_next_song] returns is the last
    underscore-separated piece of the key of another song of the table, of
    the genre of the current song.  It never proposes the current song's own
    key, nor a song of another genre. *)
Theorem BPM_recommends_a_peer (w w' : world) (song_id returned : string) :
  songs_table (mrs_users w) ->
  BPM.get_next_song song_id w = (Ok returned, w') ->
  exists current key obj,
    dict_get song_id (mrs_users w) = Some current /\
    In (key, obj) (mrs_users w) /\
    key <> song_id /\
    genre obj = genre current /\
    list_last (split "_" key) = Ok returned.
Proof.
  intros Hst H. unfold BPM.get_next_song, bind, query in H.
  destruct (DataExtractor.get_similar_bpm_songs w song_id) as [songs| |] eqn:Es;
    try discriminate H.
  cbv zeta in H.
  destruct (DataExtractor.get_songs_probabilities_data w (length songs))
    as [probabilities| |]; try discriminate H.
  destruct (random.choices songs probabilities w) as [[picked| |] w1] eqn:Ec;
    try discriminate H.
  destruct (choices_member songs probabilities w w1 picked Ec) as [key [Ep Hkey]].
  subst picked. unfold lift in H. cbn [list_index nth_error] in H.
  assert (Hlast : list_last (split "_" key) = Ok returned).
  { destruct (list_last (split "_" key)); inversion H; reflexivity. }
  destruct (dict_get song_id (mrs_users w)) as [current|] eqn:Eg.
  - destruct Hst as [Hnd Hwf].
    destruct (Hwf song_id current (dict_get_some_in _ _ _ Eg)) as [b [g [Eb Egen]]].
    rewrite (get_similar_bpm_songs_run w song_id current b g (conj Hnd Hwf) Eg Eb Egen)
      in Es.
    inversion Es; subst songs. apply in_map_iff in Hkey.
    destruct Hkey as [[key' b'] [Ek Hin]]. cbn [fst] in Ek. subst key'.
    apply (Permutation_in _ (sorted_perm (bpm_gap b) false _)) in Hin.
    apply peers_spec in Hin. destruct Hin as [obj [Hin [Hg' [_ Hne]]]].
    exists current, key, obj. repeat split; try assumption. congruence.
  - unfold DataExtractor.get_similar_bpm_songs, DataExtractor.get_songs_data in Es.
    rewrite read_json_no_key in Es. cbn [rbind] in Es. unfold getitem in Es.
    rewrite Eg in Es. discriminate Es.
Qed.

Lemma BPM_recommends_a_peer_witness :
  exists current key obj,
    dict_get "song_id_1" Sample.songs = Some current /\
    In (key, obj) Sample.songs /\
    key <> "song_id_1" /\
    genre obj = genre current /\
    list_last (split "_" key) = Ok "2".
Proof.
  apply (BPM_recommends_a_peer Sample.catalogue
           (with_generator Sample.catalogue (advance Sample.gen)) "song_id_1" "2").
  - exact sample_songs_table.
  - vm_compute. reflexivity.
Defined.

(** ** Failures of the selection *)

Lemma MFC_get_next_song_without_weights_witness :
  MFC.get_next_song "song_id_1" Sample2.bare = (Raise ValueError, Sample2.bare).
Proof.
  exact (MFC_get_next_song_without_weights "song_id_1" Sample2.bare
           ["song_id_3"; "song_id_2"; "song_id_4"] eq_refl eq_refl).
Defined.

(** A song without same-genre peer gets no BPM suggestion: with an empty
    candidate list [BPM.get_next_song] always raises, [ValueError] or
    [IndexError] according to what the Config table holds under
    [songs_probabilities_set0], before any random draw. *)
Theorem BPM_no_peer_raises (w : world) (song_id : string) :
  DataExtractor.get_similar_bpm_songs w song_id = Ok [] ->
  BPM.get_next_song song_id w = (Raise ValueError, w) \/
  BPM.get_next_song song_id w = (Raise IndexError, w).
Proof.
  intros Hs. unfold BPM.get_next_song, bind, query. rewrite Hs. cbv zeta.
  unfold DataExtractor.get_songs_probabilities_data.
  destruct (read_json (mrs_config w) _) as [ws|data]; unfold random.choices.
  - rewrite accumulate_length. cbn [length].
    destruct ws as [|x ws]; [right; reflexivity | left; reflexivity].
  - rewrite accumulate_str_length. unfold keys. rewrite length_map. cbn [length].
    destruct data as [|kv data]; [right; reflexivity | left; reflexivity].
Qed.

Lemma BPM_no_peer_raises_witness :
  BPM.get_next_song Sample2.lonely Sample.catalogue = (Raise ValueError, Sample.catalogue) \/
  BPM.get_next_song Sample2.lonely Sample.catalogue = (Raise IndexError, Sample.catalogue).
Proof.
  exact (BPM_no_peer_raises Sample.catalogue Sample2.lonely eq_refl).
Defined.

(** ** One random draw per recommendation *)

Lemma choices_effect {A : Type} (population : list A)
  (weights : json_read (list Q)) (w w' : world) (r : result (list A)) :
  random.choices population weights w = (r, w') ->
  (w' = w /\ forall picked, r <> Ok picked) \/
  w' = with_generator w (advance (generator w)).
Proof.
  unfold random.choices, bind, lift, raise, ret, random.random, advance.
  destruct weights as [ws|data].
  - destruct (negb _); [intros E; inversion E; left; split; [reflexivity | discriminate]|].
    destruct (list_last _);
      try (intros E; inversion E; left; split; [reflexivity | discriminate]).
    destruct (Qle_bool _ _);
      [intros E; inversion E; left; split; [reflexivity | discriminate]|].
    cbn [random.next_raw snd]. destruct (random.bisect _ _ _ _);
      try (intros E; inversion E; right; reflexivity).
    destruct (list_index _ _); intros E; inversion E; right; reflexivity.
  - destruct (negb _); [intros E; inversion E; left; split; [reflexivity | discriminate]|].
    destruct (list_last _); intros E; inversion E; left; split;
      try reflexivity; discriminate.
Qed.

(** A recommender never writes.  A call of [MFC.get_next_song] or
    [BPM.get_next_song] leaves the world as it was, or as it was but for one
    draw taken from the random generator; and a call that returns has taken
    exactly one. *)
Theorem recommenders_take_one_draw (song_id : string) (w w' : world)
  (r : result string) :
  (MFC.get_next_song song_id w = (r, w') ->
   (w' = w /\ forall x, r <> Ok x) \/
   w' = with_generator w (advance (generator w))) /\
  (BPM.get_next_song song_id w = (r, w') ->
   (w' = w /\ forall x, r <> Ok x) \/
   w' = with_generator w (advance (generator w))).
Proof.
  split.
  - unfold MFC.get_next_song, MFC.get_next_songs, bind, query, lift.
    destruct (DataExtractor.get_most_played_songs w song_id) as [songs|e|];
      try (intros E; inversion E; left; split; [reflexivity | discriminate]).
    cbv zeta.
    destruct (DataExtractor.get_songs_probabilities_data w _) as [probabilities|e|];
      try (intros E; inversion E; left; split; [reflexivity | discriminate]).
    destruct (random.choices _ probabilities w) as [[picked|e|] w1] eqn:Ec;
      apply choices_effect in Ec.
    + destruct Ec as [[_ Hno]|Ec]; [exfalso; exact (Hno picked eq_refl)|].
      destruct (list_index picked 0); intros E; inversion E; subst; right; reflexivity.
    + intros E; inversion E; subst.
      destruct Ec as [[Ew _]|Ec]; [left; split; [exact Ew | discriminate] | right; exact Ec].
    + intros E; inversion E; subst.
      destruct Ec as [[Ew _]|Ec]; [left; split; [exact Ew | discriminate] | right; exact Ec].
  - unfold BPM.get_next_song, bind, query, lift.
    destruct (DataExtractor.get_similar_bpm_songs w song_id) as [songs|e|];
      try (intros E; inversion E; left; split; [reflexivity | discriminate]).
    cbv zeta.
    destruct (DataExtractor.get_songs_probabilities_data w _) as [probabilities|e|];
      try (intros E; inversion E; left; split; [reflexivity | discriminate]).
    destruct (random.choices _ probabilities w) as [[picked|e|] w1] eqn:Ec;
      apply choices_effect in Ec.
    + destruct Ec as [[_ Hno]|Ec]; [exfalso; exact (Hno picked eq_refl)|].
      destruct (list_index picked 0); intros E; inversion E; subst; right; reflexivity.
    + intros E; inversion E; subst.
      destruct Ec as [[Ew _]|Ec]; [left; split; [exact Ew | discriminate] | right; exact Ec].
    + intros E; inversion E; subst.
      destruct Ec as [[Ew _]|Ec]; [left; split; [exact Ew | discriminate] | right; exact Ec].
Qed.

Lemma recommenders_take_one_draw_witness :
  ((with_generator Sample.session (advance Sample.gen) = Sample.session /\
    forall x, Ok "song_id_3" <> Ok x) \/
   with_generator Sample.session (advance Sample.gen)
   = with_generator Sample.session (advance (generator Sample.session))) /\
  ((Sample2.bare = Sample2.bare /\ forall x, @Raise string KeyError <> Ok x) \/
   Sample2.bare = with_generator Sample2.bare (advance (generator Sample2.bare))).
Proof.
  split.
  - apply (proj1 (recommenders_take_one_draw "song_id_1" Sample.session
                    (with_generator Sample.session (advance Sample.gen))
                    (Ok "song_id_3"))).
    vm_compute. reflexivity.
  - apply (proj2 (recommenders_take_one_draw "song_id_1" Sample2.bare Sample2.bare
                    (Raise KeyError))).
    vm_compute. reflexivity.
Defined.

(* ================================================================== *)
(** * Activity simulator: the loop and its outcomes                    *)
(* ================================================================== *)

Lemma fill_active_users_same_files (count : nat) :
  forall fuel w r w',
    UAS.fill_active_users fuel count w = (r, w') -> same_files w w'.
Proof.
  induction fuel as [|fuel IH]; intros w r w' H.
  - cbn [UAS.fill_active_users] in H.
    destruct (length (active_users w) <? count); inversion H; split; reflexivity.
  - destruct (Nat.lt_ge_cases (length (active_users w)) count) as [Hlt|Hge].
    + rewrite (fill_active_users_S fuel count w Hlt) in H.
      destruct (IH _ _ _ H) as [H1 H2]. split; [exact H1 | exact H2].
    + rewrite (fill_active_users_done (S fuel) count w Hge) in H.
      inversion H. split; reflexivity.
Qed.

(** The loop adds the ids as they are drawn and stops at the first moment the
    set has [count] elements. *)
Lemma fill_active_users_trace (count : nat) :
  forall fuel w u w',
    UAS.fill_active_users fuel count w = (Ok u, w') ->
    exists k,
      k <= fuel /\
      active_users w'
      = fold_left (fun s x => set_add x s) (upcoming_ids (generator w) k)
                  (active_users w) /\
      generator w' = advance_by k (generator w) /\
      count <= length (active_users w') /\
      forall j, j < k ->
        length (fold_left (fun s x => set_add x s) (upcoming_ids (generator w) j)
                          (active_users w)) < count.
Proof.
  induction fuel as [|fuel IH]; intros w u w' H.
  - cbn [UAS.fill_active_users] in H.
    destruct (length (active_users w) <? count) eqn:E; [discriminate H|].
    inversion H; subst. apply Nat.ltb_ge in E. exists 0.
    repeat split; try reflexivity; try lia.
  - destruct (Nat.lt_ge_cases (length (active_users w)) count) as [Hlt|Hge].
    + rewrite (fill_active_users_S fuel count w Hlt) in H.
      destruct (IH _ _ _ H) as [k [Hk [Hs [Hg [Hc Hmin]]]]].
      exists (S k). split; [lia|]. split; [|split; [|split; [exact Hc|]]].
      * rewrite upcoming_ids_S. exact Hs.
      * exact Hg.
      * intros j Hj. destruct j as [|j]; [exact Hlt|].
        rewrite upcoming_ids_S. apply Hmin. lia.
    + rewrite (fill_active_users_done (S fuel) count w Hge) in H.
      inversion H; subst. exists 0. repeat split; try reflexivity; try lia.
Qed.

Section Simulator.
Context `{SetOrder}.

(** The cohort is the set of the ids drawn, no more and no less: when
    [generate_active_users] returns it has taken one draw for the size and
    [k] draws for the ids, its cohort lists the distinct values of those [k]
    ids, these are as many as the size drawn, and no shorter run of draws
    had that many. *)
Theorem generate_active_users_trace (fuel : nat) (w w' : world) (cohort : list nat) :
  UAS.generate_active_users fuel w = (Ok cohort, w') ->
  exists k,
    k <= fuel /\
    Permutation cohort (first_seen_nat (upcoming_ids (advance (generator w)) k)) /\
    length (first_seen_nat (upcoming_ids (advance (generator w)) k))
    = count_at (generator w) /\
    generator w' = advance_by (S k) (generator w) /\
    forall j, j < k ->
      length (first_seen_nat (upcoming_ids (advance (generator w)) j))
      < count_at (generator w).
Proof.
  intros Hrun. pose proof (generate_active_users_spec fuel w) as S.
  rewrite Hrun in S. destruct S as [_ [Hlen [Hperm _]]].
  rewrite generate_active_users_run in Hrun. cbv zeta in Hrun.
  destruct (UAS.fill_active_users fuel (count_at (generator w)) _)
    as [[u|e|] w1] eqn:Ef; try discriminate Hrun.
  inversion Hrun; subst.
  destruct (fill_active_users_trace _ _ _ _ _ Ef) as [k [Hk [Hs [Hg [_ Hmin]]]]].
  cbn [active_users generator with_active_users with_generator] in Hs, Hg, Hmin.
  exists k. split; [exact Hk|]. unfold first_seen_nat. rewrite <- Hs.
  split; [exact Hperm|].
  split; [rewrite <- (Permutation_length Hperm); exact Hlen|].
  split; [exact Hg | exact Hmin].
Qed.

Lemma generate_active_users_same_files (fuel : nat) (w w' : world)
  (r : result (list nat)) :
  UAS.generate_active_users fuel w = (r, w') -> same_files w w'.
Proof.
  rewrite generate_active_users_run. cbv zeta.
  destruct (UAS.fill_active_users fuel _ _) as [[u|e|] w1] eqn:Ef;
    apply fill_active_users_same_files in Ef; intros E; inversion E; subst; exact Ef.
Qed.

Lemma active_users_behaviour_run (song_id : string) (fuel : nat) (w w3 : world)
  (r : option nat) :
  UAS.active_users_behaviour song_id fuel w = (Ok r, w3) ->
  exists user rest w1 next w2,
    UAS.generate_active_users fuel w = (Ok (user :: rest), w1) /\
    MFC.get_next_song song_id w1 = (Ok next, w2) /\
    r = Some (length (user :: rest)) /\
    w3 = with_users w2
           (write_json (mrs_users w2) (DataSaver.format_user_id user) song_id [next]).
Proof.
  unfold UAS.active_users_behaviour, bind. intros Hrun.
  pose proof (generate_active_users_spec fuel w) as S.
  pose proof (count_at_range (generator w)) as Hcount.
  destruct (UAS.generate_active_users fuel w) as [[cohort|e|] w1];
    try discriminate Hrun.
  destruct S as [_ [Hlen _]].
  destruct cohort as [|user rest]; [simpl in Hlen; lia|].
  destruct (MFC.get_next_song song_id w1) as [[next|e|] w2] eqn:Hp;
    try discriminate Hrun.
  unfold DataSaver.set_new_song, ret in Hrun. inversion Hrun; subst.
  exists user, rest, w1, next, w2. repeat split; try reflexivity. exact Hp.
Qed.

(** What a call of [active_users_behaviour] can do.  When it returns, it
    returns a number between 10 and 24, never [None], and the Config table is
    untouched; when it does not return, neither file has been written. *)
Theorem active_users_behaviour_outcomes (song_id : string) (fuel : nat) (w : world) :
  match UAS.active_users_behaviour song_id fuel w with
  | (Ok r, w') =>
      (exists n, r = Some n /\ 10 <= n <= 24) /\ mrs_config w' = mrs_config w
  | (Raise _, w') => same_files w w'
  | (OutOfFuel, w') => same_files w w'
  end.
Proof.
  destruct (UAS.active_users_behaviour song_id fuel w) as [[r|e|] w'] eqn:Hrun.
  - destruct (active_users_behaviour_run _ _ _ _ _ Hrun)
      as [user [rest [w1 [next [w2 [Hg [Hp [Hr Hw]]]]]]]].
    pose proof (generate_active_users_spec fuel w) as S. rewrite Hg in S.
    destruct S as [_ [Hlen [_ [_ Hcfg]]]].
    pose proof (count_at_range (generator w)) as Hcount.
    destruct (MFC_get_next_song_same_files _ _ _ _ Hp) as [_ Hcfg2].
    split; [exists (length (user :: rest)); split; [exact Hr | lia]|].
    subst w'. cbn [mrs_config with_users]. congruence.
  - unfold UAS.active_users_behaviour, bind in Hrun.
    destruct (UAS.generate_active_users fuel w) as [[cohort|e'|] w1] eqn:Hg;
      apply generate_active_users_same_files in Hg.
    + destruct cohort as [|user rest]; [discriminate Hrun|].
      destruct (MFC.get_next_song song_id w1) as [[next|e'|] w2] eqn:Hp;
        try discriminate Hrun.
      apply MFC_get_next_song_same_files in Hp. inversion Hrun; subst.
      destruct Hg, Hp. split; congruence.
    + inversion Hrun; subst. exact Hg.
    + discriminate Hrun.
  - unfold UAS.active_users_behaviour, bind in Hrun.
    destruct (UAS.generate_active_users fuel w) as [[cohort|e'|] w1] eqn:Hg;
      apply generate_active_users_same_files in Hg.
    + destruct cohort as [|user rest]; [discriminate Hrun|].
      destruct (MFC.get_next_song song_id w1) as [[next|e'|] w2] eqn:Hp;
        try discriminate Hrun.
      apply MFC_get_next_song_same_files in Hp. inversion Hrun; subst.
      destruct Hg, Hp. split; congruence.
    + discriminate Hrun.
    + inversion Hrun; subst. exact Hg.
Qed.

End Simulator.

Lemma generate_active_users_trace_witness :
  exists k,
    k <= 13 /\
    Permutation [11; 18; 25; 32; 39; 46; 3; 10; 17; 24; 31; 38; 45]
                (first_seen_nat (upcoming_ids (advance Sample.gen) k)) /\
    length (first_seen_nat (upcoming_ids (advance Sample.gen) k))
    = count_at Sample.gen /\
    generator (snd (UAS.generate_active_users 13 Sample.session))
    = advance_by (S k) Sample.gen /\
    forall j, j < k ->
      length (first_seen_nat (upcoming_ids (advance Sample.gen) j))
      < count_at Sample.gen.
Proof.
  destruct (generate_active_users_trace 13 Sample.session
              (snd (UAS.generate_active_users 13 Sample.session))
              (32 :: Sample.others)) as [k [Hk [Hperm Hrest]]].
  - vm_compute. reflexivity.
  - exists k. split; [exact Hk|]. split; [|exact Hrest].
    apply (Permutation_trans (l' := 32 :: Sample.others)); [|exact Hperm].
    apply same_elements_perm. reflexivity.
Defined.

(* ================================================================== *)
(** * Session aggregator: reads, writes and failures                   *)
(* ================================================================== *)

(** ** [original_recommendation] *)

Lemma original_loop (song_id : string) (data : dict entry) :
  keys_unique data ->
  forall found,
    for_each (original_body song_id) data found
    = match dict_get "user_id_1" data with
      | Some v =>
          history <~ member played_songs v ;;
          nexts <~ getitem history song_id ;;
          Ok (Some nexts)
      | None => Ok found
      end.
Proof.
  unfold keys_unique. induction data as [|[k v] data IH]; intros Hnd found;
    [reflexivity|].
  inversion Hnd as [|? ? Hfresh Hnd']; subst.
  cbn [for_each dict_get original_body]. destruct (String.eqb k "user_id_1") eqn:E.
  - apply String.eqb_eq in E. subst k.
    destruct (member played_songs v) as [history| |]; try reflexivity. cbn [rbind].
    destruct (getitem history song_id) as [nexts| |]; try reflexivity. cbn [rbind].
    rewrite (IH Hnd'). rewrite (dict_get_not_in "user_id_1" data Hfresh). reflexivity.
  - cbn [rbind]. apply IH. exact Hnd'.
Qed.

Lemma original_recommendation_loop (song_id : string) (w : world) :
  MFCInterface.original_recommendation song_id w
  = (found <~ for_each (original_body song_id) (mrs_users w) None ;;
     match found with
     | None => Raise UnboundLocalError
     | Some found => list_index found 0
     end, w).
Proof. reflexivity. Qed.

Lemma original_recommendation_is_lookup (song_id : string) (w : world) :
  keys_unique (mrs_users w) ->
  MFCInterface.original_recommendation song_id w
  = (match dict_get "user_id_1" (mrs_users w) with
     | None => Raise UnboundLocalError
     | Some user =>
         match played_songs user with
         | None => Raise KeyError
         | Some history =>
             match dict_get song_id history with
             | None => Raise KeyError
             | Some [] => Raise IndexError
             | Some (next :: _) => Ok next
             end
         end
     end, w).
Proof.
  intros Hu. rewrite original_recommendation_loop.
  rewrite (original_loop song_id (mrs_users w) Hu None).
  destruct (dict_get "user_id_1" (mrs_users w)) as [user|]; [|reflexivity].
  unfold member. destruct (played_songs user) as [history|]; [|reflexivity].
  cbn [rbind]. unfold getitem.
  destruct (dict_get song_id history) as [[|next rest]|]; reflexivity.
Qed.

(** Over a table with unique keys, [original_recommendation] is a lookup of
    [user_id_1]: it raises [UnboundLocalError] when the table has no such
    user, [KeyError] when that user has no history for the song,
    [IndexError] when the history is empty, and otherwise returns the first
    recorded next-song of [user_id_1]; no other user matters and nothing is
    written. *)
Theorem original_recommendation_lookup (song_id : string) (w : world) :
  keys_unique (mrs_users w) ->
  match dict_get "user_id_1" (mrs_users w) with
  | None =>
      MFCInterface.original_recommendation song_id w = (Raise UnboundLocalError, w)
  | Some user =>
      match first_next song_id user with
      | Some next => MFCInterface.original_recommendation song_id w = (Ok next, w)
      | None =>
          MFCInterface.original_recommendation song_id w = (Raise KeyError, w) \/
          MFCInterface.original_recommendation song_id w = (Raise IndexError, w)
      end
  end.
Proof.
  intros Hu. rewrite (original_recommendation_is_lookup song_id w Hu).
  destruct (dict_get "user_id_1" (mrs_users w)) as [user|]; [|reflexivity].
  unfold first_next. destruct (played_songs user) as [history|]; [|left; reflexivity].
  destruct (dict_get song_id history) as [[|next rest]|];
    [right; reflexivity | reflexivity | left; reflexivity].
Qed.

Lemma original_recommendation_lookup_witness :
  MFCInterface.original_recommendation "song_id_9" Sample.session
  = (Ok "song_id_3", Sample.session) /\
  MFCInterface.original_recommendation "song_id_1" Sample2.session
  = (Raise UnboundLocalError, Sample2.session).
Proof.
  split.
  - apply (original_recommendation_lookup "song_id_9" Sample.session). keys_distinct.
  - apply (original_recommendation_lookup "song_id_1" Sample2.session). keys_distinct.
Defined.

(** Write, then ask.  Once [set_new_song] has written [next] for user 1, the
    "default" song that [original_recommendation] reports for that song is
    [next]: a simulated choice of user 1 replaces the originally recorded
    one. *)
Theorem original_recommendation_after_write (song_id next : string) (w : world) :
  keys_unique (mrs_users w) ->
  let w' := snd (DataSaver.set_new_song (DataSaver.format_user_id 1) song_id next w) in
  MFCInterface.original_recommendation song_id w' = (Ok next, w').
Proof.
  intros Hu w'.
  assert (Hu' : keys_unique (mrs_users w')).
  { unfold w'. rewrite set_new_song_run. cbn [snd mrs_users with_users].
    rewrite write_json_written_object. apply dict_set_keys_unique. exact Hu. }
  rewrite (original_recommendation_is_lookup song_id w' Hu').
  unfold w'. rewrite set_new_song_run. cbn [snd mrs_users with_users].
  change (DataSaver.format_user_id 1) with "user_id_1".
  unfold write_json. rewrite dict_get_set_same. cbn [played_songs].
  rewrite dict_get_set_same. reflexivity.
Qed.

Lemma original_recommendation_after_write_witness :
  MFCInterface.original_recommendation "song_id_1"
    (snd (DataSaver.set_new_song (DataSaver.format_user_id 1) "song_id_1" "song_id_5"
            Sample.session))
  = (Ok "song_id_5",
     snd (DataSaver.set_new_song (DataSaver.format_user_id 1) "song_id_1" "song_id_5"
            Sample.session)).
Proof.
  apply (original_recommendation_after_write "song_id_1" "song_id_5" Sample.session).
  keys_distinct.
Defined.

(** ** [stats] *)

Lemma get_most_played_songs_of_users (w1 w2 : world) (song_id : string) :
  mrs_users w1 = mrs_users w2 ->
  DataExtractor.get_most_played_songs w1 song_id
  = DataExtractor.get_most_played_songs w2 song_id.
Proof.
  intros E. unfold DataExtractor.get_most_played_songs, DataExtractor.get_users_data.
  rewrite E. reflexivity.
Qed.

Lemma MFC_pick_is_listed (song_id : string) (w w' : world) (x : string) :
  MFC.get_next_song song_id w = (Ok x, w') ->
  exists songs,
    DataExtractor.get_most_played_songs w song_id = Ok songs /\ In x songs.
Proof.
  intros H. unfold MFC.get_next_song, MFC.get_next_songs, bind, query in H.
  destruct (DataExtractor.get_most_played_songs w song_id) as [songs| |] eqn:Es;
    try discriminate H.
  cbv zeta in H. rewrite guard_is_identity in H.
  destruct (DataExtractor.get_songs_probabilities_data w (length songs))
    as [probabilities| |]; try discriminate H.
  destruct (random.choices songs probabilities w) as [[picked| |] w1] eqn:Ec;
    try discriminate H.
  destruct (choices_member songs probabilities w w1 picked Ec) as [y [Ep Hy]].
  subst picked. unfold lift in H. cbn in H. inversion H; subst.
  exists songs. split; [reflexivity | exact Hy].
Qed.

Lemma three_songs (songs : list string) :
  length songs = 3 -> exists a b c, songs = [a; b; c].
Proof.
  destruct songs as [|a [|b [|c [|d rest]]]]; simpl; intros H; try discriminate H.
  exists a, b, c. reflexivity.
Qed.

Section Aggregator.
Context `{SetOrder}.

(** What [stats] has done when it returns.  The tally is that of the two
    most played songs, counted on the table as it was before the call; the
    cohort [user :: rest] is the one the simulator draws from the world of the
    call, between 10 and 24 users of [1, 50]; [next] is what the MFC
    recommender returns in the world left by that draw, one of the three most
    played songs; the Users table has received exactly one write, [[next]] as
    history of the current song for [user], the first of the cohort; the
    Config table is untouched; the default song is the lookup made on the
    written table, which changes nothing; the MFC song is a second run of the
    MFC recommender, on the written table, and is one of its three most
    played songs; the user count reported is the constant 50. *)
Theorem stats_effect (song_id : string) (fuel : nat) (w w' : world)
  (s : MFCInterface.Stats) :
  MFCInterface.stats song_id fuel w = (Ok s, w') ->
  exists a b c user rest next w1 w2 w3,
    DataExtractor.get_most_played_songs w song_id = Ok [a; b; c] /\
    DataExtractor.get_mfc_users_data w song_id a b
    = Ok (MFCInterface.users_count_and_choosen_songs s) /\
    UAS.generate_active_users fuel w = (Ok (user :: rest), w1) /\
    MFC.get_next_song song_id w1 = (Ok next, w2) /\
    In next [a; b; c] /\
    w3 = with_users w2
           (write_json (mrs_users w2) (DataSaver.format_user_id user) song_id [next]) /\
    MFCInterface.original_recommendation song_id w3
    = (Ok (MFCInterface.default_song s), w3) /\
    MFC.get_next_song song_id w3 = (Ok (MFCInterface.mfc_song s), w') /\
    MFCInterface.user_count s = 50 /\
    MFCInterface.active_users_count s = Some (length (user :: rest)) /\
    10 <= length (user :: rest) <= 24 /\
    1 <= user <= 50 /\
    MFCInterface.original_song s = song_id /\
    mrs_users w'
    = write_json (mrs_users w) (DataSaver.format_user_id user) song_id [next] /\
    mrs_config w' = mrs_config w /\
    exists songs',
      DataExtractor.get_most_played_songs w' song_id = Ok songs' /\
      In (MFCInterface.mfc_song s) songs'.
Proof.
  unfold MFCInterface.stats, MFCInterface.mfc_recommendation.
  unfold bind at 1. unfold MFC.get_next_songs, query at 1.
  destruct (DataExtractor.get_most_played_songs w song_id) as [songs| |] eqn:Es;
    try discriminate.
  destruct (three_songs songs (get_most_played_songs_three w song_id songs Es))
    as [a [b [c ->]]].
  unfold bind at 1, lift at 1. cbn [list_index nth_error].
  unfold bind at 1, lift at 1. cbn [list_index nth_error].
  unfold bind at 1, query at 1.
  destruct (DataExtractor.get_mfc_users_data w song_id a b) as [tally| |] eqn:Et;
    try discriminate.
  unfold bind at 1.
  destruct (UAS.active_users_behaviour song_id fuel w) as [[active| |] w3] eqn:Ea;
    try discriminate.
  destruct (active_users_behaviour_run _ _ _ _ _ Ea)
    as [user [rest [w1 [next [w2 [Hg [Hp [Hr Hw]]]]]]]].
  unfold bind at 1.
  destruct (MFCInterface.original_recommendation song_id w3) as [[default| |] w4] eqn:Eo;
    try discriminate.
  assert (w4 = w3) by (rewrite original_recommendation_loop in Eo; congruence).
  subst w4. unfold bind.
  destruct (MFC.get_next_song song_id w3) as [[mfc| |] w5] eqn:Em; try discriminate.
  unfold ret. intros E. inversion E; subst s w'. clear E.
  pose proof (generate_active_users_spec fuel w) as S. rewrite Hg in S.
  destruct S as [[_ Hrange] [Hlen [_ [Hu1 Hc1]]]].
  pose proof (count_at_range (generator w)) as Hcount.
  destruct (MFC_get_next_song_same_files _ _ _ _ Hp) as [Hu2 Hc2].
  destruct (MFC_get_next_song_same_files _ _ _ _ Em) as [Hu5 Hc5].
  destruct (MFC_pick_is_listed _ _ _ _ Em) as [songs' [Es' Hin']].
  destruct (MFC_pick_is_listed _ _ _ _ Hp) as [songs1 [Es1 Hin1]].
  rewrite (get_most_played_songs_of_users w1 w song_id Hu1), Es in Es1.
  injection Es1 as <-.
  exists a, b, c, user, rest, next, w1, w2, w3.
  cbn [MFCInterface.users_count_and_choosen_songs MFCInterface.user_count
    MFCInterface.active_users_count MFCInterface.original_song
    MFCInterface.default_song MFCInterface.mfc_song].
  split; [reflexivity|]. split; [exact Et|]. split; [exact Hg|].
  split; [exact Hp|]. split; [exact Hin1|]. split; [exact Hw|].
  split; [exact Eo|]. split; [exact Em|]. split; [reflexivity|].
  split; [exact Hr|].
  split; [lia|]. split; [inversion Hrange; assumption|]. split; [reflexivity|].
  split; [|split].
  - rewrite Hu5, Hw. cbn [mrs_users with_users]. congruence.
  - rewrite Hc5, Hw. cbn [mrs_config with_users]. congruence.
  - exists songs'. split; [|exact Hin'].
    rewrite <- Es'. apply get_most_played_songs_of_users. exact Hu5.
Qed.

(** A failure of the first two reads stops [stats] before anything has
    happened: when [get_most_played_songs] raises (fewer than three
    candidates), or when the tally of its first two songs raises (a user
    without history for the song), [stats] raises the same exception and the
    world, random generator included, is unchanged. *)
Theorem stats_fails_before_writing (song_id : string) (fuel : nat) (w : world) :
  (forall e, DataExtractor.get_most_played_songs w song_id = Raise e ->
             MFCInterface.stats song_id fuel w = (Raise e, w)) /\
  (forall a b c e,
      DataExtractor.get_most_played_songs w song_id = Ok [a; b; c] ->
      DataExtractor.get_mfc_users_data w song_id a b = Raise e ->
      MFCInterface.stats song_id fuel w = (Raise e, w)).
Proof.
  split.
  - intros e He. unfold MFCInterface.stats, bind, MFC.get_next_songs, query.
    rewrite He. reflexivity.
  - intros a b c e Hs He. unfold MFCInterface.stats, MFC.get_next_songs.
    unfold bind at 1, query at 1. rewrite Hs.
    unfold bind at 1, lift at 1. cbn [list_index nth_error].
    unfold bind at 1, lift at 1. cbn [list_index nth_error].
    unfold bind at 1, query at 1. rewrite He. reflexivity.
Qed.

(** [stats] can fail after it has written.  Over a table without
    [user_id_1], once the simulator has written the pick for a first cohort
    member other than user 1, the lookup of the default song raises
    [UnboundLocalError]; [stats] raises it and the write stays in the Users
    table. *)
Theorem stats_fails_after_writing (song_id : string) (fuel : nat) (w w1 w2 : world)
  (a b c : string) (tally : DataExtractor.mfc_users_data)
  (user : nat) (rest : list nat) (next : string) :
  keys_unique (mrs_users w) ->
  dict_get "user_id_1" (mrs_users w) = None ->
  DataExtractor.get_most_played_songs w song_id = Ok [a; b; c] ->
  DataExtractor.get_mfc_users_data w song_id a b = Ok tally ->
  UAS.generate_active_users fuel w = (Ok (user :: rest), w1) ->
  MFC.get_next_song song_id w1 = (Ok next, w2) ->
  user <> 1 ->
  exists w3,
    MFCInterface.stats song_id fuel w = (Raise UnboundLocalError, w3) /\
    mrs_users w3
    = write_json (mrs_users w) (DataSaver.format_user_id user) song_id [next] /\
    exists record,
      dict_get (DataSaver.format_user_id user) (mrs_users w3) = Some record /\
      first_next song_id record = Some next.
Proof.
  intros Hu Hno Hs Ht Hg Hp Hne.
  pose proof (generate_active_users_spec fuel w) as S. rewrite Hg in S.
  destruct S as [_ [_ [_ [Hu1 _]]]].
  destruct (MFC_get_next_song_same_files _ _ _ _ Hp) as [Hu2 _].
  assert (Husers : mrs_users w2 = mrs_users w) by congruence.
  set (uid := DataSaver.format_user_id user).
  set (w3 := with_users w2 (write_json (mrs_users w2) uid song_id [next])).
  assert (Hw3 : mrs_users w3 = write_json (mrs_users w) uid song_id [next]).
  { unfold w3. cbn [mrs_users with_users]. rewrite Husers. reflexivity. }
  exists w3. split; [|split; [exact Hw3|]].
  - unfold MFCInterface.stats, MFC.get_next_songs.
    unfold bind at 1, query at 1. rewrite Hs.
    unfold bind at 1, lift at 1. cbn [list_index nth_error].
    unfold bind at 1, lift at 1. cbn [list_index nth_error].
    unfold bind at 1, query at 1. rewrite Ht.
    unfold bind at 1.
    assert (Ea : UAS.active_users_behaviour song_id fuel w
                 = (Ok (Some (length (user :: rest))), w3)).
    { unfold UAS.active_users_behaviour, bind. rewrite Hg. cbv beta iota.
      rewrite Hp. reflexivity. }
    rewrite Ea. unfold bind at 1.
    assert (Hu3 : keys_unique (mrs_users w3)).
    { rewrite Hw3, write_json_written_object. apply dict_set_keys_unique. exact Hu. }
    rewrite (original_recommendation_is_lookup song_id w3 Hu3).
    rewrite Hw3, write_json_other, Hno; [reflexivity|].
    change "user_id_1" with (DataSaver.format_user_id 1). unfold uid.
    intros E. apply format_user_id_injective in E. congruence.
  - rewrite Hw3. apply write_json_first_next.
Qed.

End Aggregator.

Lemma stats_effect_witness :
  exists a b c user rest next w1 w2 w3,
    DataExtractor.get_most_played_songs Sample.session "song_id_1" = Ok [a; b; c] /\
    DataExtractor.get_mfc_users_data Sample.session "song_id_1" a b
    = Ok (DataExtractor.mkTally ("song_id_3", 2) ("song_id_2", 1)) /\
    UAS.generate_active_users 13 Sample.session = (Ok (user :: rest), w1) /\
    MFC.get_next_song "song_id_1" w1 = (Ok next, w2) /\
    In next [a; b; c] /\
    w3 = with_users w2
           (write_json (mrs_users w2) (DataSaver.format_user_id user) "song_id_1" [next]) /\
    MFCInterface.original_recommendation "song_id_1" w3 = (Ok "song_id_2", w3) /\
    MFC.get_next_song "song_id_1" w3
    = (Ok "song_id_3", snd (MFCInterface.stats "song_id_1" 13 Sample.session)) /\
    50 = 50 /\
    Some 13 = Some (length (user :: rest)) /\
    10 <= length (user :: rest) <= 24 /\
    1 <= user <= 50 /\
    "song_id_1" = "song_id_1" /\
    mrs_users (snd (MFCInterface.stats "song_id_1" 13 Sample.session))
    = write_json Sample.users (DataSaver.format_user_id user) "song_id_1" [next] /\
    mrs_config (snd (MFCInterface.stats "song_id_1" 13 Sample.session)) = Sample.config /\
    exists songs',
      DataExtractor.get_most_played_songs
        (snd (MFCInterface.stats "song_id_1" 13 Sample.session)) "song_id_1"
      = Ok songs' /\
      In "song_id_3" songs'.
Proof.
  apply (stats_effect "song_id_1" 13 Sample.session
           (snd (MFCInterface.stats "song_id_1" 13 Sample.session))
           (MFCInterface.mkStats 50 (Some 13) "song_id_1" "song_id_2" "song_id_3"
              (DataExtractor.mkTally ("song_id_3", 2) ("song_id_2", 1)))).
  vm_compute. reflexivity.
Defined.

Lemma stats_fails_before_writing_witness :
  MFCInterface.stats "song_id_9" 13 Sample.session = (Raise IndexError, Sample.session) /\
  MFCInterface.stats "song_id_1" 13
    (mkWorld (Sample.users ++ [("user_id_6", Sample.listener [])])
             Sample.config Sample.gen [])
  = (Raise KeyError,
     mkWorld (Sample.users ++ [("user_id_6", Sample.listener [])])
             Sample.config Sample.gen []).
Proof.
  split.
  - apply (stats_fails_before_writing "song_id_9" 13 Sample.session). reflexivity.
  - apply (proj2 (stats_fails_before_writing "song_id_1" 13
                    (mkWorld (Sample.users ++ [("user_id_6", Sample.listener [])])
                             Sample.config Sample.gen []))
             "song_id_3" "song_id_2" "song_id_4"); reflexivity.
Defined.

Lemma stats_fails_after_writing_witness :
  exists user rest w3,
    Permutation (user :: rest) Sample.drawn /\
    user <> 1 /\
    MFCInterface.stats "song_id_1" 13 Sample2.session = (Raise UnboundLocalError, w3) /\
    mrs_users w3
    = write_json Sample2.users (DataSaver.format_user_id user) "song_id_1" ["song_id_3"] /\
    exists record,
      dict_get (DataSaver.format_user_id user) (mrs_users w3) = Some record /\
      first_next "song_id_1" record = Some "song_id_3".
Proof.
  exists 32, Sample.others.
  destruct (stats_fails_after_writing "song_id_1" 13 Sample2.session
              (snd (UAS.generate_active_users 13 Sample2.session))
              (snd (MFC.get_next_song "song_id_1"
                      (snd (UAS.generate_active_users 13 Sample2.session))))
              "song_id_3" "song_id_4" "song_id_5"
              (DataExtractor.mkTally ("song_id_3", 2) ("song_id_4", 1))
              32 Sample.others "song_id_3") as [w3 W].
  - keys_distinct.
  - reflexivity.
  - reflexivity.
  - reflexivity.
  - vm_compute. reflexivity.
  - vm_compute. reflexivity.
  - discriminate.
  - exists w3. split; [|split; [discriminate | exact W]].
    apply same_elements_perm. reflexivity.
Defined.

(* ================================================================== *)
(** * Identifiers and the remaining writer                             *)
(* ================================================================== *)

(** ** Stored keys and raw ids *)

Lemma prefix_song_id_other (c : ascii) (rest : string) :
  Ascii.eqb c "s" = false -> String.prefix "song_id_" (String c rest) = false.
Proof.
  intros H. cbn [String.prefix]. destruct (ascii_dec "s" c) as [E|E]; [|reflexivity].
  subst c. discriminate H.
Qed.

Lemma replace_without_s (s : string) :
  contains "s" s = false -> replace "song_id_" "" s = s.
Proof.
  unfold replace. induction s as [|c s IH]; [reflexivity|].
  cbn [contains]. intros H. apply orb_false_iff in H. destruct H as [Hc Hs].
  cbn [replace_from]. rewrite (prefix_song_id_other c s Hc), (IH Hs). reflexivity.
Qed.

Lemma digits_no_s (d : Decimal.uint) :
  contains "s" (NilEmpty.string_of_uint d) = false.
Proof. induction d; simpl; try assumption; reflexivity. Qed.

Lemma prefix_append (p s : string) : String.prefix p (String.append p s) = true.
Proof.
  induction p as [|c p IH]; [destruct s; reflexivity|].
  cbn [String.append String.prefix]. destruct (ascii_dec c c); [exact IH | congruence].
Qed.

Lemma replace_from_matched (old new : string) (c : ascii) (rest : string) :
  String.prefix old (String c rest) = true ->
  replace_from 0 old new (String c rest)
  = String.append new (replace_from (String.length old - 1) old new rest).
Proof. intros H. cbn [replace_from]. rewrite H. reflexivity. Qed.

Lemma replace_from_skips (old new p s : string) :
  replace_from (String.length p) old new (String.append p s)
  = replace_from 0 old new s.
Proof.
  induction p as [|c p IH]; [destruct s; reflexivity|].
  cbn [String.length String.append replace_from]. exact IH.
Qed.

(** [current_song] undoes [format_song_id]: for the stored key of song [n]
    it gives [str(n)], the same raw id that [BPM.get_next_song] obtains with
    [split("_")[-1]]; and a string without the letter [s] is returned as it
    is. *)
Theorem current_song_strips_prefix (n : nat) :
  MFCInterface.current_song (DataSaver.format_song_id n) = str n /\
  list_last (split "_" (DataSaver.format_song_id n))
  = Ok (MFCInterface.current_song (DataSaver.format_song_id n)) /\
  (forall s, contains "s" s = false -> MFCInterface.current_song s = s).
Proof.
  assert (E : MFCInterface.current_song (DataSaver.format_song_id n) = str n).
  { unfold MFCInterface.current_song, DataSaver.format_song_id, replace.
    change (String.append "song_id_" (str n))
      with (String "s" (String.append "ong_id_" (str n))).
    rewrite replace_from_matched
      by (change (String "s" (String.append "ong_id_" (str n)))
            with (String.append "song_id_" (str n)); apply prefix_append).
    change (String.length "song_id_" - 1) with (String.length "ong_id_").
    rewrite replace_from_skips. cbn [String.append].
    apply (replace_without_s (str n)). apply digits_no_s. }
  split; [exact E|]. split; [rewrite E; apply strip_song_id|].
  intros s Hs. apply replace_without_s. exact Hs.
Qed.

Lemma current_song_strips_prefix_witness :
  MFCInterface.current_song (DataSaver.format_song_id 12) = str 12 /\
  MFCInterface.current_song "12" = "12".
Proof.
  destruct (current_song_strips_prefix 12) as [Hstrip [_ Hsame]].
  split; [exact Hstrip | apply Hsame; reflexivity].
Defined.

Lemma format_song_id_injective (n m : nat) :
  DataSaver.format_song_id n = DataSaver.format_song_id m -> n = m.
Proof.
  unfold DataSaver.format_song_id. simpl. intros E. inversion E.
  apply str_injective. assumption.
Qed.

(** Distinct users get distinct keys, distinct songs get distinct keys, no
    user key is a song key, and the raw id can be read back from either key
    as its last underscore-separated piece. *)
Theorem stored_keys_are_faithful :
  (forall n m, DataSaver.format_user_id n = DataSaver.format_user_id m -> n = m) /\
  (forall n m, DataSaver.format_song_id n = DataSaver.format_song_id m -> n = m) /\
  (forall n m, DataSaver.format_user_id n <> DataSaver.format_song_id m) /\
  (forall n, list_last (split "_" (DataSaver.format_user_id n)) = Ok (str n)) /\
  (forall n, list_last (split "_" (DataSaver.format_song_id n)) = Ok (str n)).
Proof.
  split; [exact format_user_id_injective|].
  split; [exact format_song_id_injective|].
  split; [intros n m E; unfold DataSaver.format_user_id, DataSaver.format_song_id in E;
          simpl in E; discriminate E|].
  split; [|exact strip_song_id].
  intros n. unfold DataSaver.format_user_id.
  change (String.append "user_id_" (str n))
    with (String.append "user_id" (String "_" (str n))).
  apply last_piece_after_sep, str_no_underscore.
Qed.

Lemma stored_keys_are_faithful_witness :
  7 = 7 /\ DataSaver.format_user_id 7 <> DataSaver.format_song_id 7.
Proof.
  destruct stored_keys_are_faithful as [Hu [_ [Hd _]]].
  split; [apply Hu; reflexivity | apply Hd].
Defined.

(** ** [write_to_interview_sessions] *)

(** The member [interview_sessions] is replaced as a whole by [value]: what
    was stored under it is gone, every other member of the file is as it was,
    and [main_key] has no effect on the file (it only shows in the message
    returned). *)
Theorem write_to_interview_sessions_replaces {V : Type} (data : dict V)
  (main_key : string) (value : V) :
  let data' := fst (write_to_interview_sessions data main_key value) in
  dict_get "interview_sessions" data' = Some value /\
  (forall k, k <> "interview_sessions" -> dict_get k data' = dict_get k data) /\
  (forall other_key, fst (write_to_interview_sessions data other_key value) = data') /\
  (forall other_key later,
      fst (write_to_interview_sessions data' other_key later)
      = fst (write_to_interview_sessions data other_key later)) /\
  (keys_unique data -> keys_unique data').
Proof.
  cbv zeta. unfold write_to_interview_sessions. cbn [fst].
  split; [apply dict_get_set_same|].
  split; [intros k Hk; apply dict_get_set_other; exact Hk|].
  split; [reflexivity|].
  split; [intros _ later; apply dict_set_twice|].
  apply dict_set_keys_unique.
Qed.

Lemma write_to_interview_sessions_replaces_witness :
  dict_get "songs_probabilities_set2"
    (fst (write_to_interview_sessions Sample.config "any" [1%Q]))
  = dict_get "songs_probabilities_set2" Sample.config /\
  keys_unique (fst (write_to_interview_sessions Sample.config "any" [1%Q])).
Proof.
  destruct (write_to_interview_sessions_replaces Sample.config "any" [1%Q])
    as [_ [Hother [_ [_ Hunique]]]].
  split; [apply Hother; discriminate | apply Hunique; keys_distinct].
Defined.
